(** * DocDecorator: a shallow embedding of the document helpers

    The repository is a thin layer of Python helpers (modules [part],
    [element], [content], [doc_decorate], [style]) over the python-docx
    object model.  The helpers are embedded as functions of a small
    state-and-exception monad over a heap of document elements; the
    object model itself lives outside the repository and is modelled at
    the level the specification describes it (section 3, data model). *)

From Stdlib Require Import ZArith Ascii.
From stdpp Require Import gmap strings list pretty.

Local Open Scope list_scope.
Local Open Scope Z_scope.

(** ** Python exceptions and results *)

(** [assert cond, ValueError(msg)] raises an [AssertionError] whose
    argument is the [ValueError] instance; the message is kept. *)
Inductive exn : Type :=
| AssertionError (msg : string)
| ValueError (msg : string)
| IOError (msg : string)
| TypeError
| IndexError
| AttributeError
| KeyError
| ZeroDivisionError.

Definition result (A : Type) : Type := (exn + A)%type.

(** [l[i]] on a Python list: negative indices count from the end. *)
Definition py_getitem {A} (l : list A) (i : Z) : result A :=
  let n := Z.of_nat (length l) in
  let j := if i <? 0 then i + n else i in
  if (0 <=? j) && (j <? n)
  then match l !! Z.to_nat j with Some x => inr x | None => inl IndexError end
  else inl IndexError.

(** [range(n)]. *)
Definition range (n : Z) : list Z := Z.of_nat <$> seq 0 (Z.to_nat n).

(** ** The document object model

    Elements live in a heap, one store per element kind; the Python
    objects the helpers pass around (runs, cells, tables, documents) are
    references into the stores, so that a run reached through a cached
    list and through its paragraph is one and the same object. *)

Abbreviation loc := nat.

Record RGBColor : Type := mkRGBColor { red : Z; green : Z; blue : Z }.

Record RunElem : Type := mkRun {
  r_text : string;
  r_font_name : option string;        (* run.font.name *)
  r_rFonts : gmap string string;      (* attributes of run._element.rPr.rFonts *)
  r_font_size : option Z;             (* run.font.size, in EMU *)
  r_font_color : option RGBColor;     (* run.font.color *)
  r_bold : option bool;
  r_italic : option bool }.

Record ParagraphElem : Type := mkParagraph {
  p_runs : list loc;
  p_style : option string;
  p_alignment : option (option Z) }.  (* the w:jc element, if any, and its value, if any *)

Record CellElem : Type := mkCell { c_paragraphs : list loc }.

(** A table is a grid: [tblGrid] columns and the rows of cells. *)
Record TableElem : Type := mkTable {
  tblGrid : nat;
  tr_lst : list (list loc);
  t_style : option string }.

Inductive block : Type :=
| BlockP (p : loc)
| BlockT (t : loc).

Record DocumentElem : Type := mkDocument { body : list block }.

Record heap : Type := mkHeap {
  h_runs : gmap nat RunElem;
  h_pars : gmap nat ParagraphElem;
  h_cells : gmap nat CellElem;
  h_tbls : gmap nat TableElem;
  h_docs : gmap nat DocumentElem }.


Definition empty_run (s : string) : RunElem :=
  mkRun s None ∅ None None None None.

#[global] Instance RunElem_inhabited : Inhabited RunElem := populate (empty_run "").
#[global] Instance ParagraphElem_inhabited : Inhabited ParagraphElem :=
  populate (mkParagraph [] None None).
#[global] Instance CellElem_inhabited : Inhabited CellElem := populate (mkCell []).
#[global] Instance TableElem_inhabited : Inhabited TableElem := populate (mkTable 0 [] None).
#[global] Instance DocumentElem_inhabited : Inhabited DocumentElem := populate (mkDocument []).

Definition empty_heap : heap := mkHeap ∅ ∅ ∅ ∅ ∅.

(** Proxies.  A paragraph proxy remembers the container it was listed
    from (python-docx's [Paragraph(p, parent)]); rows and columns are
    views on a table: the table and an index. *)
Inductive container : Type :=
| InBody (d : loc)
| InCell (c : loc).

Record Paragraph : Type := mkParagraphProxy { p_elem : loc; p_parent : container }.
Record _Row : Type := mkRow { row_table : loc; row_index : nat }.
Record _Column : Type := mkColumn { column_table : loc; column_index : nat }.

#[global] Instance block_eq_dec : EqDecision block.
Proof. solve_decision. Defined.
#[global] Instance container_eq_dec : EqDecision container.
Proof. solve_decision. Defined.
#[global] Instance Paragraph_eq_dec : EqDecision Paragraph.
Proof. solve_decision. Defined.

(** ** The state-and-exception monad

    A Python call may mutate the heap and then raise: the heap is
    returned in both cases. *)
Definition M (A : Type) : Type := heap → heap * result A.

Definition ret {A} (a : A) : M A := λ h, (h, inr a).
Definition raise {A} (e : exn) : M A := λ h, (h, inl e).
Definition bind {A B} (m : M A) (k : A → M B) : M B :=
  λ h, match m h with
       | (h', inl e) => (h', inl e)
       | (h', inr a) => k a h'
       end.
Definition gets {A} (f : heap → A) : M A := λ h, (h, inr (f h)).
Definition modify (f : heap → heap) : M unit := λ h, (f h, inr tt).
Definition lift {A} (r : result A) : M A := λ h, (h, r).
Definition py_assert (b : bool) (msg : string) : M unit :=
  if b then ret tt else raise (AssertionError msg).

Notation "x <- m ;; k" := (bind m (λ x, k))
  (at level 100, m at next level, right associativity).
Notation "m ;;; k" := (bind m (λ _, k))
  (at level 100, right associativity).

(** [for x in xs: body]. *)
Fixpoint for_ {A} (xs : list A) (body : A → M unit) : M unit :=
  match xs with
  | [] => ret tt
  | x :: xs' => body x ;;; for_ xs' body
  end.

(** ** Heap access *)

Definition set_runs (f : gmap nat RunElem → gmap nat RunElem) (h : heap) : heap :=
  mkHeap (f (h_runs h)) (h_pars h) (h_cells h) (h_tbls h) (h_docs h).
Definition set_pars (f : gmap nat ParagraphElem → gmap nat ParagraphElem) (h : heap) : heap :=
  mkHeap (h_runs h) (f (h_pars h)) (h_cells h) (h_tbls h) (h_docs h).
Definition set_cells (f : gmap nat CellElem → gmap nat CellElem) (h : heap) : heap :=
  mkHeap (h_runs h) (h_pars h) (f (h_cells h)) (h_tbls h) (h_docs h).
Definition set_tbls (f : gmap nat TableElem → gmap nat TableElem) (h : heap) : heap :=
  mkHeap (h_runs h) (h_pars h) (h_cells h) (f (h_tbls h)) (h_docs h).
Definition set_docs (f : gmap nat DocumentElem → gmap nat DocumentElem) (h : heap) : heap :=
  mkHeap (h_runs h) (h_pars h) (h_cells h) (h_tbls h) (f (h_docs h)).

Definition new_run (e : RunElem) : M loc :=
  λ h, let r := fresh (dom (h_runs h)) in (set_runs <[r := e]> h, inr r).
Definition new_paragraph (e : ParagraphElem) : M loc :=
  λ h, let p := fresh (dom (h_pars h)) in (set_pars <[p := e]> h, inr p).
Definition new_cell (e : CellElem) : M loc :=
  λ h, let c := fresh (dom (h_cells h)) in (set_cells <[c := e]> h, inr c).
Definition new_table (e : TableElem) : M loc :=
  λ h, let t := fresh (dom (h_tbls h)) in (set_tbls <[t := e]> h, inr t).
Definition new_document (e : DocumentElem) : M loc :=
  λ h, let d := fresh (dom (h_docs h)) in (set_docs <[d := e]> h, inr d).

Definition update_run (r : loc) (f : RunElem → RunElem) : heap → heap :=
  set_runs (λ m, <[r := f (m !!! r)]> m).
Definition update_par (p : loc) (f : ParagraphElem → ParagraphElem) : heap → heap :=
  set_pars (λ m, <[p := f (m !!! p)]> m).
Definition update_cell (c : loc) (f : CellElem → CellElem) : heap → heap :=
  set_cells (λ m, <[c := f (m !!! c)]> m).
Definition update_tbl (t : loc) (f : TableElem → TableElem) : heap → heap :=
  set_tbls (λ m, <[t := f (m !!! t)]> m).
Definition update_doc (d : loc) (f : DocumentElem → DocumentElem) : heap → heap :=
  set_docs (λ m, <[d := f (m !!! d)]> m).

(** ** The object model's operations

    Modelled from the spec: python-docx is an external collaborator and
    is not part of the repository; its reads and mutators are modelled
    as the data model of the specification describes them (a document
    is an ordered body of paragraphs and tables, a paragraph an ordered
    sequence of runs, a table a grid of cells with rows and columns as
    views, a cell a sequence of paragraphs, a run a text with
    character attributes).  Where the object model refuses an
    operation the helpers use, the refusal is modelled: a row has no
    length, the colour of a font can be read but not assigned, the
    font name lives in the [rFonts] element of the run, and the
    alignment of a paragraph belongs to an enumeration. *)

Definition LF : string := String "010"%char EmptyString.

(** [run.text] *)
Definition Run_text (h : heap) (r : loc) : string := r_text (h_runs h !!! r).

Definition with_text (s : string) (e : RunElem) : RunElem :=
  mkRun s (r_font_name e) (r_rFonts e) (r_font_size e) (r_font_color e)
        (r_bold e) (r_italic e).

(** [run.text = s] *)
Definition Run_set_text (r : loc) (s : string) : M unit :=
  modify (update_run r (with_text s)).

(** [paragraph.runs] and [paragraph.text] *)
Definition Paragraph_runs (h : heap) (p : Paragraph) : list loc :=
  p_runs (h_pars h !!! p_elem p).
Definition Paragraph_text (h : heap) (p : Paragraph) : string :=
  String.concat "" (Run_text h <$> Paragraph_runs h p).

(** [cell.paragraphs] and [cell.text] *)
Definition Cell_paragraphs (h : heap) (c : loc) : list Paragraph :=
  (λ p, mkParagraphProxy p (InCell c)) <$> c_paragraphs (h_cells h !!! c).
Definition Cell_text (h : heap) (c : loc) : string :=
  String.concat LF (Paragraph_text h <$> Cell_paragraphs h c).

(** [doc.paragraphs] and [doc.tables]: the top-level paragraphs (tables)
    of the body, in document order. *)
Definition body_paragraph (d : loc) (b : block) : option Paragraph :=
  match b with
  | BlockP p => Some (mkParagraphProxy p (InBody d))
  | BlockT _ => None
  end.
Definition body_table (b : block) : option loc :=
  match b with
  | BlockT t => Some t
  | BlockP _ => None
  end.
Definition Document_paragraphs (h : heap) (d : loc) : list Paragraph :=
  omap (body_paragraph d) (body (h_docs h !!! d)).
Definition Document_tables (h : heap) (d : loc) : list loc :=
  omap body_table (body (h_docs h !!! d)).

(** [table.rows], [table.columns], [table._cells] (a property: the
    row-major list of the cells), [table.row_cells(i)], [row.cells],
    [column.cells]. *)
Definition Table_rows (h : heap) (t : loc) : list _Row :=
  mkRow t <$> seq 0 (length (tr_lst (h_tbls h !!! t))).
Definition Table_columns (h : heap) (t : loc) : list _Column :=
  mkColumn t <$> seq 0 (tblGrid (h_tbls h !!! t)).
Definition Table__cells (h : heap) (t : loc) : list loc :=
  concat (tr_lst (h_tbls h !!! t)).
Definition Table_row_cells (h : heap) (t : loc) (i : nat) : list loc :=
  default [] (tr_lst (h_tbls h !!! t) !! i).
Definition Row_cells (h : heap) (row : _Row) : list loc :=
  Table_row_cells h (row_table row) (row_index row).
Definition Column_cells (h : heap) (col : _Column) : list loc :=
  omap (λ cs : list loc, cs !! column_index col) (tr_lst (h_tbls h !!! column_table col)).

(** [len(row)]: a row of the object model has no length ([_Row]
    defines no [__len__]), so [len] raises TypeError. *)
Definition Row_len (row : _Row) : result Z := inl TypeError.

(** A run is created for the text only when the text is not empty. *)
Definition new_runs_for (text : string) : M (list loc) :=
  if decide (text = "") then ret []
  else r <- new_run (empty_run text) ;; ret [r].

(** [docx.Document()]: a new document with an empty body. *)
Definition docx_Document_new : M loc := new_document (mkDocument []).

(** [doc.add_paragraph(text, style)]: appended at the end of the body. *)
Definition Document_add_paragraph (d : loc) (text : string) (style : option string)
  : M Paragraph :=
  rs <- new_runs_for text ;;
  p <- new_paragraph (mkParagraph rs style None) ;;
  modify (update_doc d (λ e, mkDocument (body e ++ [BlockP p]))) ;;;
  ret (mkParagraphProxy p (InBody d)).

(** Insert [y] directly before the first occurrence of [x]. *)
Fixpoint insert_before {A} `{EqDecision A} (x y : A) (l : list A) : list A :=
  match l with
  | [] => []
  | z :: l' => if decide (z = x) then y :: z :: l' else z :: insert_before x y l'
  end.

(** [paragraph.insert_paragraph_before(text, style)]: the new paragraph
    becomes the sibling directly before [paragraph] in its container. *)
Definition Paragraph_insert_paragraph_before (para : Paragraph) (text : string)
    (style : option string) : M Paragraph :=
  rs <- new_runs_for text ;;
  p <- new_paragraph (mkParagraph rs style None) ;;
  modify (match p_parent para with
          | InBody d =>
              update_doc d (λ e, mkDocument
                (insert_before (BlockP (p_elem para)) (BlockP p) (body e)))
          | InCell c =>
              update_cell c (λ e, mkCell
                (insert_before (p_elem para) p (c_paragraphs e)))
          end) ;;;
  ret (mkParagraphProxy p (p_parent para)).

(** A new cell holds one empty paragraph. *)
Definition new_tc : M loc :=
  p <- new_paragraph (mkParagraph [] None None) ;;
  new_cell (mkCell [p]).

Fixpoint replicateM {A} (n : nat) (m : M A) : M (list A) :=
  match n with
  | O => ret []
  | S n' => x <- m ;; xs <- replicateM n' m ;; ret (x :: xs)
  end.

(** [doc.add_table(rows, cols, style)]: a [rows] by [cols] grid of new
    cells, appended at the end of the body. *)
Definition Document_add_table (d : loc) (rows cols : Z) (style : option string) : M loc :=
  grid <- replicateM (Z.to_nat rows) (replicateM (Z.to_nat cols) new_tc) ;;
  t <- new_table (mkTable (Z.to_nat cols) grid style) ;;
  modify (update_doc d (λ e, mkDocument (body e ++ [BlockT t]))) ;;;
  ret t.

(** [table.add_row()]: one new cell per grid column, appended as the
    last row; the row proxy is returned. *)
Definition Table_add_row (t : loc) : M _Row :=
  n <- gets (λ h, length (tr_lst (h_tbls h !!! t))) ;;
  g <- gets (λ h, tblGrid (h_tbls h !!! t)) ;;
  cs <- replicateM g new_tc ;;
  modify (update_tbl t (λ e, mkTable (tblGrid e) (tr_lst e ++ [cs]) (t_style e))) ;;;
  ret (mkRow t n).

(** [cell.text = s]: the content of the cell is replaced by one
    paragraph holding one run with the text. *)
Definition Cell_set_text (c : loc) (s : string) : M unit :=
  r <- new_run (empty_run s) ;;
  p <- new_paragraph (mkParagraph [r] None None) ;;
  modify (update_cell c (λ _, mkCell [p])).

(** ** Python strings *)

(** [key in s]: [key] occurs in [s] as a substring. *)
Fixpoint py_in (key s : string) : bool :=
  String.prefix key s ||
  match s with
  | EmptyString => false
  | String _ s' => py_in key s'
  end.

(** [s.replace(old, new)] for a non-empty [old]: the occurrences are
    replaced from left to right without overlap; [skip] counts the
    characters of the occurrence just replaced that are still to pass. *)
Fixpoint replace_from (old new s : string) (skip : nat) : string :=
  match s with
  | EmptyString => EmptyString
  | String c s' =>
      match skip with
      | S k => replace_from old new s' k
      | O => if String.prefix old s
             then new +:+ replace_from old new s' (String.length old - 1)
             else String c (replace_from old new s' 0)
      end
  end.

(** With an empty [old], [new] is put before every character and at the end. *)
Fixpoint replace_empty (new s : string) : string :=
  match s with
  | EmptyString => new
  | String c s' => new +:+ String c (replace_empty new s')
  end.

Definition py_replace (s old new : string) : string :=
  if decide (old = "") then replace_empty new s else replace_from old new s 0.

(** Values of a substitution mapping and their [str()]. *)
Inductive pyval : Type :=
| VStr (s : string)
| VInt (z : Z)
| VBool (b : bool)
| VNone.

Definition py_str (v : pyval) : string :=
  match v with
  | VStr s => s
  | VInt z => pretty z
  | VBool true => "True"
  | VBool false => "False"
  | VNone => "None"
  end.

(** A [dict] with string keys, in insertion order. *)
Definition dict : Type := list (string * pyval).
Definition dict_keys (d : dict) : list string := d.*1.
Definition dict_get (d : dict) (key : string) : pyval :=
  default VNone (snd <$> List.find (λ kv, bool_decide (kv.1 = key)) d).

(** [l.remove(x)]: the first element equal to [x] goes; [None] stands
    for the [ValueError] of an absent [x]. *)
Fixpoint list_remove {A} `{EqDecision A} (x : A) (l : list A) : option (list A) :=
  match l with
  | [] => None
  | y :: l' => if decide (x = y) then Some l' else (y ::.) <$> list_remove x l'
  end.

(** The objects a [doc] argument or attribute may hold. *)
Inductive pyobj : Type :=
| ObjStr (s : string)            (* a path *)
| ObjDocument (d : loc)          (* a python-docx Document *)
| ObjDocContent (doc : pyobj)    (* a DocContent instance, with its [doc] attribute *)
| ObjNone.

(** [o.paragraphs] and [o.tables]: only a Document has them. *)
Definition getattr_paragraphs (h : heap) (o : pyobj) : result (list Paragraph) :=
  match o with
  | ObjDocument d => inr (Document_paragraphs h d)
  | _ => inl AttributeError
  end.
Definition getattr_tables (h : heap) (o : pyobj) : result (list loc) :=
  match o with
  | ObjDocument d => inr (Document_tables h d)
  | _ => inl AttributeError
  end.

(** The elements of a table the polymorphic helpers accept. *)
Inductive table_element : Type :=
| ETable (t : loc)
| ERow (r : _Row)
| EColumn (c : _Column)
| ECell (c : loc).

(** ** part.py *)
Module part.
Section Part.
(** [docx.Document(path)]: opening a file is outside the model. *)
Context (docx_Document : string → M loc).

Definition open_document (doc : string) : M loc :=
  λ h, match docx_Document doc h with
       | (h', inl (IOError _)) => (h', inl (IOError ("打开文档" +:+ doc +:+ "失败")))
       | r => r
       end.

Definition opened (doc : pyobj) : M pyobj :=
  match doc with
  | ObjStr s => d <- open_document s ;; ret (ObjDocument d)
  | _ => ret doc
  end.

Definition get_paragraphs (doc : pyobj) : M (list Paragraph) :=
  doc <- opened doc ;;
  h <- gets id ;; lift (getattr_paragraphs h doc).

Definition get_tables (doc : pyobj) : M (list loc) :=
  doc <- opened doc ;;
  h <- gets id ;; lift (getattr_tables h doc).

Definition get_table_row_length (h : heap) (table : loc) : Z :=
  Z.of_nat (length (Table_rows h table)).

Definition get_table_column_length (h : heap) (table : loc) : Z :=
  Z.of_nat (length (Table_columns h table)).

Definition get_cells_in_table (h : heap) (table : loc) : list loc :=
  foldl (λ cells i, cells ++ Table_row_cells h table (Z.to_nat i))
        [] (range (get_table_row_length h table)).

Definition get_cells_in_tables (doc : pyobj) : M (list loc) :=
  tables <- get_tables doc ;;
  gets (λ h, foldl (λ cells table, cells ++ get_cells_in_table h table) [] tables).

Definition get_paragraphs_in_tables (doc : pyobj) : M (list Paragraph) :=
  cells <- get_cells_in_tables doc ;;
  gets (λ h, foldl (λ paragraphs cell, paragraphs ++ Cell_paragraphs h cell) [] cells).

Definition get_all_paragraphs (doc : pyobj) : M (list Paragraph) :=
  ps <- get_paragraphs doc ;;
  qs <- get_paragraphs_in_tables doc ;;
  ret (([] ++ ps) ++ qs).

Definition get_all_runs (doc : pyobj) : M (list loc) :=
  paragraphs <- get_all_paragraphs doc ;;
  gets (λ h, foldl (λ cells paragraph, cells ++ Paragraph_runs h paragraph) [] paragraphs).

Definition get_row_in_table (h : heap) (table : loc) (row_index : Z) : result _Row :=
  if (0 <? row_index) && (row_index <? get_table_row_length h table)
  then py_getitem (Table_rows h table) row_index
  else inl (AssertionError "row_index out of range").

Definition get_column_in_table (h : heap) (table : loc) (column_index : Z)
  : result _Column :=
  if (0 <? column_index) && (column_index <? get_table_column_length h table)
  then py_getitem (Table_columns h table) column_index
  else inl (AssertionError "column_index out of range").
Definition get_runs_in_paragraphs (doc : pyobj) : M (list loc) :=
  paragraphs <- get_paragraphs doc ;;
  gets (λ h, foldl (λ runs paragraph, runs ++ Paragraph_runs h paragraph) [] paragraphs).

Definition get_runs_in_tables (doc : pyobj) : M (list loc) :=
  paragraphs <- get_paragraphs_in_tables doc ;;
  gets (λ h, foldl (λ runs paragraph, runs ++ Paragraph_runs h paragraph) [] paragraphs).

Definition get_runs_in_cell (h : heap) (cell : loc) : list loc :=
  foldl (λ runs paragraph, runs ++ Paragraph_runs h paragraph) [] (Cell_paragraphs h cell).

Definition get_run_in_row (h : heap) (row : _Row) : list loc :=
  foldl (λ runs cell,
           foldl (λ runs paragraph, runs ++ Paragraph_runs h paragraph)
                 runs (Cell_paragraphs h cell))
        [] (Row_cells h row).

Definition get_paragraphs_in_table (h : heap) (table : loc) : list Paragraph :=
  foldl (λ paragraphs cell, paragraphs ++ Cell_paragraphs h cell)
        [] (get_cells_in_table h table).

(** The elements [get_runs_in_element] is annotated for; the last
    branch of the function returns its argument, a list of runs. *)
Inductive element : Type :=
| ElDocument (d : loc)
| ElTable (t : loc)
| ElCell (c : loc)
| ElParagraph (p : Paragraph)
| ElRow (r : _Row)
| ElRun (r : loc)
| ElRuns (rs : list loc).

Definition get_runs_in_element (element : element) : M (list loc) :=
  match element with
  | ElDocument d => get_all_runs (ObjDocument d)
  | ElTable t =>
      gets (λ h, foldl (λ runs cell, runs ++ get_runs_in_cell h cell)
                       [] (get_cells_in_table h t))
  | ElCell c => gets (λ h, get_runs_in_cell h c)
  | ElParagraph p => gets (λ h, Paragraph_runs h p)
  | ElRow r =>
      gets (λ h, foldl (λ runs cell, runs ++ get_runs_in_cell h cell) [] (Row_cells h r))
  | ElRun r => ret ([] ++ [r])
  | ElRuns rs => ret rs
  end.
End Part.
End part.

(** Binding on results, for the helpers that only read the document. *)
Definition rbind {A B} (r : result A) (k : A → result B) : result B :=
  match r with
  | inl e => inl e
  | inr a => k a
  end.
Notation "x <-? r ;; k" := (rbind r (λ x, k))
  (at level 100, r at next level, right associativity).

(** ** element.py *)
Module DOCXElement.
Record instance : Type := mk {
  doc : pyobj;
  paragraphs : option (list Paragraph);
  tables : option (list loc);
  runs : option (list loc) }.

Definition __init__ (docx_Document : string → M loc) (file : pyobj) : M instance :=
  match file with
  | ObjStr s => d <- docx_Document s ;; ret (mk (ObjDocument d) None None None)
  | _ => ret (mk file None None None)
  end.

Definition get_paragraphs_of_document (h : heap) (self : instance)
  : result (instance * list Paragraph) :=
  ps <-? getattr_paragraphs h (doc self) ;;
  inr (mk (doc self) (Some ps) (tables self) (runs self), ps).

Definition get_paragraph_by_index (h : heap) (self : instance) (index : Z)
  : result (instance * Paragraph) :=
  sp <-? match paragraphs self with
         | None => get_paragraphs_of_document h self
         | Some ps => inr (self, ps)
         end ;;
  if (0 <=? index) && (index <? Z.of_nat (length sp.2))
  then p <-? py_getitem sp.2 index ;; inr (sp.1, p)
  else inl (AssertionError "段落下标不合规").

Definition get_paragraph (h : heap) (self : instance) (paragraph : Z + Paragraph)
  : result (instance * Paragraph) :=
  match paragraph with
  | inl index => get_paragraph_by_index h self index
  | inr p => inr (self, p)
  end.

Definition get_runs_of_paragraphs (h : heap) (self : instance)
  : result (instance * list loc) :=
  sp <-? match paragraphs self with
         | None => get_paragraphs_of_document h self
         | Some ps => inr (self, ps)
         end ;;
  inr (sp.1, foldl (λ runs paragraph, runs ++ Paragraph_runs h paragraph) [] sp.2).

(** With an index, [self.paragraphs] is assigned the list
    [get_paragraphs_of_document] has just stored there. *)
Definition get_runs_of_paragraph (h : heap) (self : instance) (paragraph : Z + Paragraph)
  : result (instance * list loc) :=
  match paragraph with
  | inl index =>
      sp <-? match paragraphs self with
             | None =>
                 sp <-? get_paragraphs_of_document h self ;;
                 inr (mk (doc sp.1) (Some sp.2) (tables sp.1) (runs sp.1), sp.2)
             | Some ps => inr (self, ps)
             end ;;
      if (0 <=? index) && (index <? Z.of_nat (length sp.2))
      then p <-? py_getitem sp.2 index ;; inr (sp.1, Paragraph_runs h p)
      else inl (AssertionError "段落下标不合规")
  | inr p => inr (self, Paragraph_runs h p)
  end.

(** [table._cells]: an attribute of tables only. *)
Definition get_cells_of_table (h : heap) (table : table_element) : result (list loc) :=
  match table with
  | ETable t => inr (Table__cells h t)
  | _ => inl AttributeError
  end.

Definition get_cells_of_row (h : heap) (row : _Row) : list loc := Row_cells h row.
Definition get_cells_of_column (h : heap) (column : _Column) : list loc :=
  Column_cells h column.
Definition get_paragraphs_of_cell (h : heap) (cell : loc) : list Paragraph :=
  Cell_paragraphs h cell.

Definition get_paragraphs_of_table (h : heap) (table : table_element)
  : result (list Paragraph) :=
  cells <-? get_cells_of_table h table ;;
  inr (foldl (λ paragraphs cell, paragraphs ++ get_paragraphs_of_cell h cell) [] cells).

(** [element._cells()] calls the list of cells of a table, and a list
    is not callable; a cell stands for itself; a row or a column
    gives its [cells]. *)
Definition get_cells_of_table_element (h : heap) (element : table_element)
  : result (list loc) :=
  match element with
  | ETable t => _ <-? inr (Table__cells h t) ;; inl TypeError
  | ECell c => inr [c]
  | ERow r => inr (Row_cells h r)
  | EColumn c => inr (Column_cells h c)
  end.

Definition get_paragraphs_of_table_element (h : heap) (element : table_element)
  : result (list Paragraph) :=
  cells <-? get_cells_of_table_element h element ;;
  inr (foldl (λ paragraphs cell, paragraphs ++ Cell_paragraphs h cell) [] cells).

Definition get_runs_in_table_element (h : heap) (element : table_element)
  : result (list loc) :=
  paragraphs <-? get_paragraphs_of_table_element h element ;;
  inr (foldl (λ runs paragraph, runs ++ Paragraph_runs h paragraph) [] paragraphs).
Definition get_tables_of_document (h : heap) (self : instance) : result (list loc) :=
  getattr_tables h (doc self).

Definition get_all_paragraphs (h : heap) (self : instance)
  : result (instance * list Paragraph) :=
  sp <-? get_paragraphs_of_document h self ;;
  tables <-? get_tables_of_document h sp.1 ;;
  ps <-? foldl (λ acc table,
                  paragraphs <-? acc ;;
                  qs <-? get_paragraphs_of_table h (ETable table) ;;
                  inr (paragraphs ++ qs))
               (inr ([] ++ sp.2)) tables ;;
  inr (sp.1, ps).

Definition get_all_runs (h : heap) (self : instance) : result (instance * list loc) :=
  sp <-? get_all_paragraphs h self ;;
  inr (sp.1, foldl (λ runs paragraph, runs ++ Paragraph_runs h paragraph) [] sp.2).

(** [self.tables] is read but never assigned: [get_tables_of_document]
    returns the tables without caching them.  In the chained comparison
    [0 <= index < len(self.tables)] the length is only taken when
    [0 <= index] holds. *)
Definition get_table_by_index (h : heap) (self : instance) (index : Z)
  : result (instance * loc) :=
  _ <-? match tables self with
        | None => get_tables_of_document h self
        | Some ts => inr ts
        end ;;
  if 0 <=? index
  then n <-? match tables self with
             | Some ts => inr (Z.of_nat (length ts))
             | None => inl TypeError
             end ;;
       if index <? n
       then t <-? match tables self with
                  | Some ts => py_getitem ts index
                  | None => inl TypeError
                  end ;;
            inr (self, t)
       else inl (AssertionError "表格下标不合格")
  else inl (AssertionError "表格下标不合格").

Definition get_table (h : heap) (self : instance) (table : Z + loc)
  : result (instance * loc) :=
  match table with
  | inl index => get_table_by_index h self index
  | inr t => inr (self, t)
  end.

Definition get_rows_of_table (h : heap) (table : loc) : list _Row := Table_rows h table.
Definition get_columns_of_table (h : heap) (table : loc) : list _Column :=
  Table_columns h table.

Definition get_row_of_table_by_index (h : heap) (table : loc) (row_index : Z)
  : result _Row :=
  py_getitem (get_rows_of_table h table) row_index.

Definition get_column_of_table_by_index (h : heap) (table : loc) (column_index : Z)
  : result _Column :=
  py_getitem (get_columns_of_table h table) column_index.

Definition get_runs_of_cell (h : heap) (cell : loc) : list loc :=
  foldl (λ runs paragraph, runs ++ Paragraph_runs h paragraph)
        [] (get_paragraphs_of_cell h cell).

Definition get_runs_of_table (h : heap) (table : table_element) : result (list loc) :=
  paragraphs <-? get_paragraphs_of_table h table ;;
  inr (foldl (λ runs paragraph, runs ++ Paragraph_runs h paragraph) [] paragraphs).

Definition get_paragraphs_of_row (h : heap) (row : _Row) : list Paragraph :=
  foldl (λ paragraphs cell, paragraphs ++ Cell_paragraphs h cell)
        [] (get_cells_of_row h row).

Definition get_paragraphs_of_column (h : heap) (column : _Column) : list Paragraph :=
  foldl (λ paragraphs cell, paragraphs ++ Cell_paragraphs h cell)
        [] (get_cells_of_column h column).

Definition get_runs_of_column (h : heap) (column : _Column) : list loc :=
  foldl (λ runs paragraph, runs ++ Paragraph_runs h paragraph)
        [] (get_paragraphs_of_column h column).

Definition get_runs_of_row (h : heap) (row : _Row) : list loc :=
  foldl (λ runs paragraph, runs ++ Paragraph_runs h paragraph)
        [] (get_paragraphs_of_row h row).
End DOCXElement.

(** Operands of [*] and [+]: integers, and the row objects a loop
    variable may come to hold. *)
Inductive operand : Type :=
| OInt (z : Z)
| ORow (r : _Row).

Definition py_mul (a b : operand) : result operand :=
  match a, b with
  | OInt x, OInt y => inr (OInt (x * y))
  | _, _ => inl TypeError
  end.
Definition py_add (a b : operand) : result operand :=
  match a, b with
  | OInt x, OInt y => inr (OInt (x + y))
  | _, _ => inl TypeError
  end.
(** An operand used as a list index. *)
Definition py_index (a : operand) : result Z :=
  match a with
  | OInt x => inr x
  | ORow _ => inl TypeError
  end.

(** The characters of a string, as [len] and indexing see them. *)
Fixpoint chars (s : string) : list string :=
  match s with
  | EmptyString => []
  | String c s' => String c EmptyString :: chars s'
  end.

(** ** content.py *)
Module DocContent.
Record instance : Type := mk { doc : pyobj }.

Section Content.
Context (docx_Document : string → M loc).

Definition __init__ (doc : pyobj) : M instance :=
  match doc with
  | ObjStr s => d <- docx_Document s ;; ret (mk (ObjDocument d))
  | ObjDocContent _ => ret (mk doc)
  | _ => d <- docx_Document_new ;; ret (mk (ObjDocument d))
  end.

(** [self.doc.add_paragraph(text, style)], by the object [self.doc] is. *)
Fixpoint add_paragraph_on (self_doc : pyobj) (text : string) (style : option string)
  : M Paragraph :=
  match self_doc with
  | ObjDocument d => Document_add_paragraph d text style
  | ObjDocContent inner => add_paragraph_on inner text style
  | _ => raise AttributeError
  end.

Definition add_paragraph (self : instance) (text : string) (style : option string)
  : M Paragraph :=
  add_paragraph_on (doc self) text style.

Definition insert_paragraph_before (self : instance) (text : string)
    (position : Z + Paragraph) (style : option string) : M Paragraph :=
  e <- DOCXElement.__init__ docx_Document (doc self) ;;
  h <- gets id ;;
  sp <- lift (DOCXElement.get_paragraph h e position) ;;
  Paragraph_insert_paragraph_before sp.2 text style.

(** The body of [add_table] for a given [self.doc].  When [self.doc]
    is itself a DocContent, [self.doc.add_table(rows, columns, style)]
    is this method again, with [style] bound to [data]. *)
Fixpoint add_table_on (self_doc : pyobj) (rows columns : Z) (data : list string)
    (style : option string) : M loc :=
  py_assert ((0 <? rows) && (0 <? columns)) "表格行数或列数不能小于或者等于0" ;;;
  py_assert (rows * columns <=? Z.of_nat (length data)) "数据个数应该大于单元格个数" ;;;
  table <- match self_doc with
           | ObjDocument d => Document_add_table d rows columns style
           | ObjDocContent inner =>
               match style with
               | Some s => add_table_on inner rows columns (chars s) None
               | None => raise TypeError
               end
           | _ => raise AttributeError
           end ;;
  _ <- DOCXElement.__init__ docx_Document self_doc ;;
  h <- gets id ;;
  cells <- lift (DOCXElement.get_cells_of_table h (ETable table)) ;;
  for_ (range (rows * columns)) (λ index,
    v <- lift (py_getitem data index) ;;
    c <- lift (py_getitem cells index) ;;
    Cell_set_text c v) ;;;
  ret table.

Definition add_table (self : instance) (rows columns : Z) (data : list string)
    (style : option string) : M loc :=
  add_table_on (doc self) rows columns data style.
End Content.

(** The first statement takes the length of the first row.  In the
    loop, the variable [row] is first the integer from [range(rows)]
    and then rebound to the row [table.add_row()] returns, which is
    the value [row * column_length] multiplies. *)
Definition append_rows (table : loc) (data : list string) : M unit :=
  rows0 <- gets (λ h, Table_rows h table) ;;
  row0 <- lift (py_getitem rows0 0) ;;
  column_length <- lift (Row_len row0) ;;
  rows <- (if column_length =? 0 then raise ZeroDivisionError
           else ret (Z.quot (Z.of_nat (length data)) column_length)) ;;
  for_ (range rows) (λ row,
    let row := OInt row in
    r <- Table_add_row table ;;
    let row := ORow r in
    for_ (range column_length) (λ index,
      k <- lift (py_mul row (OInt column_length)) ;;
      k <- lift (py_add k (OInt index)) ;;
      i <- lift (py_index k) ;;
      v <- lift (py_getitem data i) ;;
      cells <- gets (λ h, Row_cells h r) ;;
      c <- lift (py_getitem cells index) ;;
      Cell_set_text c v)).
End DocContent.

(** ** doc_decorate.py *)
Module DocDecorate.
Record instance : Type := mk {
  doc : pyobj;
  runs : list loc;
  paragraphs : list Paragraph;
  tables : list loc;
  cells : list loc }.

Definition __init__ (docx_Document : string → M loc) (doc : pyobj) : M instance :=
  self_doc <- match doc with
              | ObjStr s => d <- docx_Document s ;; ret (ObjDocument d)
              | _ => ret doc
              end ;;
  runs <- part.get_all_runs docx_Document self_doc ;;
  paragraphs <- part.get_paragraphs docx_Document self_doc ;;
  tables <- part.get_tables docx_Document self_doc ;;
  cells <- part.get_cells_in_tables docx_Document self_doc ;;
  ret (mk self_doc runs paragraphs tables cells).

Definition replace (self : instance) (context : dict) : M unit :=
  for_ (runs self) (λ run,
    for_ (dict_keys context) (λ key,
      t <- gets (λ h, Run_text h run) ;;
      if py_in key t
      then t' <- gets (λ h, Run_text h run) ;;
           Run_set_text run (py_replace t' key (py_str (dict_get context key)))
      else ret tt)).

(** The loop of [delete_run] over the runs still to visit; the list
    [self.runs] is only changed on the iteration that leaves the loop. *)
Fixpoint delete_run_loop (todo : list loc) (self : instance) (text : string)
  : M instance :=
  match todo with
  | [] => ret self
  | run :: todo' =>
      t <- gets (λ h, Run_text h run) ;;
      if decide (t = text)
      then Run_set_text run "" ;;;
           match list_remove run (runs self) with
           | Some runs' =>
               ret (mk (doc self) runs' (paragraphs self) (tables self) (cells self))
           | None => raise (ValueError "list.remove(x): x not in list")
           end
      else delete_run_loop todo' self text
  end.

Definition delete_run (self : instance) (text : string) : M instance :=
  delete_run_loop (runs self) self text.
End DocDecorate.

(** ** Colours, lengths and qualified names of the object model

    Modelled from the spec: [RGBColor] is a triple of integers in
    0..255, built from three integers or from a string of six
    hexadecimal digits; [Pt] converts points to the model's length
    unit; [qn] turns a prefixed attribute name into its qualified name. *)

Definition RGBColor_new (r g b : Z) : result RGBColor :=
  if forallb (λ v, (0 <=? v) && (v <=? 255)) [r; g; b]
  then inr (mkRGBColor r g b)
  else inl (ValueError "RGBColor() takes three integer values 0-255").

Definition hex_digit (c : ascii) : option Z :=
  let n := Z.of_nat (nat_of_ascii c) in
  if (48 <=? n) && (n <=? 57) then Some (n - 48)
  else if (65 <=? n) && (n <=? 70) then Some (n - 55)
  else if (97 <=? n) && (n <=? 102) then Some (n - 87)
  else None.

Fixpoint int16_from (acc : Z) (s : string) : option Z :=
  match s with
  | EmptyString => Some acc
  | String c s' =>
      match hex_digit c with
      | Some d => int16_from (16 * acc + d) s'
      | None => None
      end
  end.

(** [int(s, 16)] on a string of hexadecimal digits. *)
Definition py_int16 (s : string) : result Z :=
  match s with
  | EmptyString => inl (ValueError "invalid literal for int() with base 16")
  | _ => match int16_from 0 s with
         | Some z => inr z
         | None => inl (ValueError "invalid literal for int() with base 16")
         end
  end.

(** [RGBColor.from_string(s)]: [s[:2]], [s[2:4]] and [s[4:]] in base 16. *)
Definition RGBColor_from_string (s : string) : result RGBColor :=
  r <-? py_int16 (String.substring 0 2 s) ;;
  g <-? py_int16 (String.substring 2 2 s) ;;
  b <-? py_int16 (String.substring 4 (String.length s - 4) s) ;;
  RGBColor_new r g b.

(** The six-digit encoding of a colour: two upper-case hexadecimal
    digits per component. *)
Definition hex_char (d : Z) : ascii :=
  ascii_of_nat (Z.to_nat (if d <? 10 then 48 + d else 55 + d)).
Definition hex2 (v : Z) : string :=
  String (hex_char (v / 16)) (String (hex_char (v mod 16)) EmptyString).
Definition rgb_hex (r g b : Z) : string := hex2 r +:+ hex2 g +:+ hex2 b.

Definition Pt (points : Z) : Z := points * 12700.

Definition nsmap : list (string * string) :=
  [ ("a", "http://schemas.openxmlformats.org/drawingml/2006/main");
    ("pic", "http://schemas.openxmlformats.org/drawingml/2006/picture");
    ("r", "http://schemas.openxmlformats.org/officeDocument/2006/relationships");
    ("w", "http://schemas.openxmlformats.org/wordprocessingml/2006/main");
    ("wp", "http://schemas.openxmlformats.org/drawingml/2006/wordprocessingDrawing");
    ("xml", "http://www.w3.org/XML/1998/namespace") ].

(** [tag.split(':')] *)
Fixpoint split_colon (cur : string) (s : string) : list string :=
  match s with
  | EmptyString => [cur]
  | String c s' =>
      if decide (c = ":"%char) then cur :: split_colon EmptyString s'
      else split_colon (cur +:+ String c EmptyString) s'
  end.

(** [qn(tag)]: [prefix, tagroot = tag.split(':')], then the namespace of
    the prefix is looked up. *)
Definition qn (tag : option string) : result string :=
  match tag with
  | None => inl AttributeError
  | Some tag =>
      match split_colon EmptyString tag with
      | [pfx; tagroot] =>
          match List.find (λ kv, bool_decide (kv.1 = pfx)) nsmap with
          | Some kv => inr ("{" +:+ kv.2 +:+ "}" +:+ tagroot)
          | None => inl KeyError
          end
      | [_] => inl (ValueError "not enough values to unpack (expected 2, got 1)")
      | _ => inl (ValueError "too many values to unpack (expected 2)")
      end
  end.

(** Field assignments on a run. *)
Definition with_font_name (v : option string) (e : RunElem) : RunElem :=
  mkRun (r_text e) v (r_rFonts e) (r_font_size e) (r_font_color e) (r_bold e) (r_italic e).
Definition with_rFont (key v : string) (e : RunElem) : RunElem :=
  mkRun (r_text e) (r_font_name e) (<[key := v]> (r_rFonts e)) (r_font_size e)
        (r_font_color e) (r_bold e) (r_italic e).
Definition with_font_size (v : option Z) (e : RunElem) : RunElem :=
  mkRun (r_text e) (r_font_name e) (r_rFonts e) v (r_font_color e) (r_bold e) (r_italic e).
Definition with_bold (v : option bool) (e : RunElem) : RunElem :=
  mkRun (r_text e) (r_font_name e) (r_rFonts e) (r_font_size e) (r_font_color e) v (r_italic e).
Definition with_italic (v : option bool) (e : RunElem) : RunElem :=
  mkRun (r_text e) (r_font_name e) (r_rFonts e) (r_font_size e) (r_font_color e) (r_bold e) v.

(** [run.font.name = v]: the name is kept in the [rFonts] element of
    the run; assigning [None] removes that element, with all its
    attributes. *)
Definition Font_set_name (v : option string) (e : RunElem) : RunElem :=
  match v with
  | Some _ => with_font_name v e
  | None => mkRun (r_text e) None ∅ (r_font_size e) (r_font_color e) (r_bold e) (r_italic e)
  end.

(** Whether the run has an [rFonts] element: the element is known by
    its attributes. *)
Definition has_rFonts (e : RunElem) : bool :=
  bool_decide (r_font_name e ≠ None) || bool_decide (r_rFonts e ≠ ∅).

(** [run._element.rPr.rFonts.set]: the lookup of the method, which
    comes before the arguments of the call are evaluated; without an
    [rFonts] element [rPr.rFonts] is [None]. *)
Definition rFonts_set_method (run : loc) : M unit :=
  e <- gets (λ h, h_runs h !!! run) ;;
  if has_rFonts e then ret tt else raise AttributeError.

(** [rFonts.set(key, value)]: the value of an attribute is a string. *)
Definition rFonts_set (run : loc) (key : string) (value : option string) : M unit :=
  match value with
  | Some v => modify (update_run run (with_rFont key v))
  | None => raise TypeError
  end.

(** [run.font.color = c]: [Font.color] is a read-only property of the
    object model, so the assignment raises AttributeError once its
    right-hand side has been evaluated; the colour of the run stays as
    it was. *)
Definition Font_set_color (run : loc) (c : RGBColor) : M unit := raise AttributeError.

(** The values of [WD_PARAGRAPH_ALIGNMENT]: LEFT, CENTER, RIGHT,
    JUSTIFY, DISTRIBUTE, JUSTIFY_MED, JUSTIFY_HI, JUSTIFY_LOW and
    THAI_JUSTIFY. *)
Definition WD_PARAGRAPH_ALIGNMENT : list Z := [0; 1; 2; 3; 4; 5; 7; 8; 9].

Definition with_jc (v : option (option Z)) (e : ParagraphElem) : ParagraphElem :=
  mkParagraph (p_runs e) (p_style e) v.
Definition get_or_add_jc (e : ParagraphElem) : ParagraphElem :=
  match p_alignment e with
  | None => with_jc (Some None) e
  | Some _ => e
  end.

(** [paragraph.alignment = value]: [None] removes the [w:jc] element;
    any other value is given to the element, which is added first when
    the paragraph has none, and must be one of the enumeration. *)
Definition Paragraph_set_alignment (p : Paragraph) (value : option Z) : M unit :=
  match value with
  | None => modify (update_par (p_elem p) (with_jc None))
  | Some v =>
      modify (update_par (p_elem p) get_or_add_jc) ;;;
      if bool_decide (v ∈ WD_PARAGRAPH_ALIGNMENT)
      then modify (update_par (p_elem p) (with_jc (Some (Some v))))
      else raise (ValueError (pretty v +:+ " is not a valid WD_PARAGRAPH_ALIGNMENT"))
  end.

(** The colour argument: a triple of integers or a string. *)
Inductive color_arg : Type :=
| ColorTuple (r g b : Z)
| ColorStr (s : string).

(** An argument of a call: left out, or passed (possibly as [None]). *)
Inductive arg (A : Type) : Type :=
| Absent
| Passed (v : option A).
Arguments Absent {A}.
Arguments Passed {A} v.

Definition or_default {A} (d : option A) (a : arg A) : option A :=
  match a with
  | Absent => d
  | Passed v => v
  end.

(** ** style.py *)
Module DocStyle.
Definition set_paragraph_alignment (paragraph : Paragraph) (alignment : option Z)
  : M Paragraph :=
  Paragraph_set_alignment paragraph alignment ;;;
  ret paragraph.

Definition set_run_attribute (run : loc) (en_font zh_font : option string)
    (font_size : option Z) (color : option color_arg) (bold italic : option bool)
  : M loc :=
  (if bool_decide (en_font ≠ None) || bool_decide (zh_font ≠ None)
   then modify (update_run run (Font_set_name zh_font)) ;;;
        rFonts_set_method run ;;;
        key <- lift (qn en_font) ;;
        rFonts_set run key zh_font
   else ret tt) ;;;
  match font_size with
  | Some sz => modify (update_run run (with_font_size (Some (Pt sz))))
  | None => ret tt
  end ;;;
  match color with
  | Some (ColorTuple r g b) =>
      c <- lift (RGBColor_new r g b) ;;
      Font_set_color run c
  | Some (ColorStr s) =>
      c <- lift (RGBColor_from_string s) ;;
      Font_set_color run c
  | None => ret tt
  end ;;;
  match bold with
  | Some _ => modify (update_run run (with_bold bold))
  | None => ret tt
  end ;;;
  match italic with
  | Some _ => modify (update_run run (with_italic italic))
  | None => ret tt
  end ;;;
  ret run.

(** A call of [set_run_attribute] in which some keyword arguments are
    left out: those take the defaults of the signature. *)
Definition set_run_attribute_call (run : loc) (en_font zh_font : arg string)
    (font_size : arg Z) (color : arg color_arg) (bold italic : arg bool) : M loc :=
  set_run_attribute run
    (or_default (Some "w:eastAsia") en_font)
    (or_default (Some "微软雅黑") zh_font)
    (or_default None font_size) (or_default None color)
    (or_default None bold) (or_default None italic).

Definition set_table_element_content_alignment (element : table_element)
    (alignment : option Z) : M table_element :=
  h <- gets id ;;
  paragraphs <- lift (DOCXElement.get_paragraphs_of_table h element) ;;
  for_ paragraphs (λ paragraph, set_paragraph_alignment paragraph alignment ;;; ret tt) ;;;
  ret element.

Definition set_table_element_content_attribute (element : table_element)
    (en_font zh_font : option string) (font_size : option Z)
    (color : option color_arg) (bold italic : option bool) : M table_element :=
  h <- gets id ;;
  runs <- lift (DOCXElement.get_runs_in_table_element h element) ;;
  for_ runs (λ run,
    set_run_attribute run en_font zh_font font_size color bold italic ;;; ret tt) ;;;
  ret element.
Definition set_paragraph_attributes (paragraph : Paragraph) (en_font zh_font : option string)
    (font_size : option Z) (color : option color_arg) (bold italic : option bool)
  : M Paragraph :=
  runs <- gets (λ h, Paragraph_runs h paragraph) ;;
  for_ runs (λ run,
    set_run_attribute run en_font zh_font font_size color bold italic ;;; ret tt) ;;;
  ret paragraph.

(** A call of [set_paragraph_attributes] in which some keyword
    arguments are left out; the defaults are those of [set_run_attribute]. *)
Definition set_paragraph_attributes_call (paragraph : Paragraph)
    (en_font zh_font : arg string) (font_size : arg Z) (color : arg color_arg)
    (bold italic : arg bool) : M Paragraph :=
  set_paragraph_attributes paragraph
    (or_default (Some "w:eastAsia") en_font)
    (or_default (Some "微软雅黑") zh_font)
    (or_default None font_size) (or_default None color)
    (or_default None bold) (or_default None italic).
End DocStyle.


(** [paragraph.add_run()]: a new run without text, appended to the
    runs of the paragraph (modelled as the object model's operations
    above). *)
Definition Paragraph_add_run (p : Paragraph) : M loc :=
  r <- new_run (empty_run "") ;;
  modify (update_par (p_elem p)
            (λ e, mkParagraph (p_runs e ++ [r]) (p_style e) (p_alignment e))) ;;;
  ret r.

(** What a method that wraps its body in [try ... except Exception:
    raise Exception(msg)] may raise: the base [Exception] with the
    message.  Every exception of [exn] is an [Exception]. *)
Inductive raised : Type :=
| Exception (msg : string).

Definition try_except_Exception {A} (m : M A) (msg : string)
  : heap → heap * (raised + A) :=
  λ h, match m h with
       | (h', inl _) => (h', inl (Exception msg))
       | (h', inr a) => (h', inr a)
       end.

(** ** doc_decorate.py: the other methods of [DocDecorate] *)
Module doc_decorate.
Section Decorate.
Context (docx_Document : string → M loc).

Definition with_paragraphs (ps : list Paragraph) (self : DocDecorate.instance)
  : DocDecorate.instance :=
  DocDecorate.mk (DocDecorate.doc self) (DocDecorate.runs self) ps
    (DocDecorate.tables self) (DocDecorate.cells self).
Definition with_tables (ts : list loc) (self : DocDecorate.instance)
  : DocDecorate.instance :=
  DocDecorate.mk (DocDecorate.doc self) (DocDecorate.runs self)
    (DocDecorate.paragraphs self) ts (DocDecorate.cells self).

(** The body of the loop of [append_row]: a run is added to the first
    paragraph of the cell and takes the text. *)
Definition append_row_step (cells : list loc) (row_data : list pyval) (index : Z) : M unit :=
  c <- lift (py_getitem cells index) ;;
  ps <- gets (λ h, Cell_paragraphs h c) ;;
  p <- lift (py_getitem ps 0) ;;
  run <- Paragraph_add_run p ;;
  v <- lift (py_getitem row_data index) ;;
  Run_set_text run (py_str v).

(** In [append_row] the row is added before its length is compared
    with the data; the whole body is inside the [try]. *)
Definition append_row_body (self : DocDecorate.instance) (table_index : Z)
    (row_data : list pyval) : M (DocDecorate.instance * _Row) :=
  table <- lift (py_getitem (DocDecorate.tables self) table_index) ;;
  row <- Table_add_row table ;;
  cells <- gets (λ h, Row_cells h row) ;;
  py_assert (bool_decide (length cells = length row_data))
    "传入的数据与单元格数量不一致" ;;;
  for_ (range (Z.of_nat (length cells))) (append_row_step cells row_data) ;;;
  tables <- part.get_tables docx_Document (DocDecorate.doc self) ;;
  ret (with_tables tables self, row).

Definition append_row (self : DocDecorate.instance) (table_index : Z)
    (row_data : list pyval) : heap → heap * (raised + (DocDecorate.instance * _Row)) :=
  try_except_Exception (append_row_body self table_index row_data) "添加行失败".

(** [self.doc.add_paragraph(content)] and [self.doc.add_table(rows,
    columns)], by the object [self.doc] is; [DocContent.add_table]
    needs its [data] argument. *)
Definition doc_add_paragraph (self_doc : pyobj) (content : option string) : M Paragraph :=
  DocContent.add_paragraph_on self_doc (default "" content) None.
Definition doc_add_table (self_doc : pyobj) (rows columns : Z) : M loc :=
  match self_doc with
  | ObjDocument d => Document_add_table d rows columns None
  | ObjDocContent _ => raise TypeError
  | _ => raise AttributeError
  end.

(** The loop of [add_paragraph] over the cached paragraphs; without a
    paragraph whose text is [flag] the method returns [None]. *)
Fixpoint add_paragraph_loop (todo : list Paragraph) (self : DocDecorate.instance)
    (content : option string) (flag : string)
  : M (DocDecorate.instance * option Paragraph) :=
  match todo with
  | [] => ret (self, None)
  | paragraph :: todo' =>
      t <- gets (λ h, Paragraph_text h paragraph) ;;
      if decide (flag = t)
      then new_p <- Paragraph_insert_paragraph_before paragraph (default "" content) None ;;
           ps <- part.get_paragraphs docx_Document (DocDecorate.doc self) ;;
           ret (with_paragraphs ps self, Some new_p)
      else add_paragraph_loop todo' self content flag
  end.

(** [if flag:] holds for a string that is not empty. *)
Definition add_paragraph (self : DocDecorate.instance) (content flag : option string)
  : M (DocDecorate.instance * option Paragraph) :=
  match flag with
  | Some (String c f) =>
      add_paragraph_loop (DocDecorate.paragraphs self) self content (String c f)
  | _ =>
      new_p <- doc_add_paragraph (DocDecorate.doc self) content ;;
      ps <- part.get_paragraphs docx_Document (DocDecorate.doc self) ;;
      ret (with_paragraphs ps self, Some new_p)
  end.

Definition add_table (self : DocDecorate.instance) (rows columns : Z)
  : M (DocDecorate.instance * loc) :=
  table <- doc_add_table (DocDecorate.doc self) rows columns ;;
  ts <- part.get_tables docx_Document (DocDecorate.doc self) ;;
  ret (with_tables ts self, table).

Definition set_font (element : part.element) (font : string) (font_size : Z) : M unit :=
  runs <- part.get_runs_in_element docx_Document element ;;
  for_ runs (λ run,
    modify (update_run run (Font_set_name (Some font))) ;;;
    modify (update_run run (with_font_size (Some (Pt font_size)))) ;;;
    rFonts_set_method run ;;;
    key <- lift (qn (Some "w:eastAsia")) ;;
    rFonts_set run key (Some font)).
End Decorate.

Definition set_paragraph_align (paragraph : Paragraph) (align : option Z) : M unit :=
  Paragraph_set_alignment paragraph align.

Definition set_table_align (table : loc) (align : option Z) : M unit :=
  paragraphs <- gets (λ h, part.get_paragraphs_in_table h table) ;;
  for_ paragraphs (λ paragraph, set_paragraph_align paragraph align).

Definition set_row_align (row : _Row) (align : option Z) : M unit :=
  cells <- gets (λ h, Row_cells h row) ;;
  for_ cells (λ cell,
    paragraphs <- gets (λ h, Cell_paragraphs h cell) ;;
    for_ paragraphs (λ paragraph, set_paragraph_align paragraph align)).

Definition set_column_align (column : _Column) (align : option Z) : M unit :=
  cells <- gets (λ h, Column_cells h column) ;;
  for_ cells (λ cell,
    paragraphs <- gets (λ h, Cell_paragraphs h cell) ;;
    for_ paragraphs (λ paragraph, set_paragraph_align paragraph align)).

Definition add_cell_text (cell : loc) (text : string) : M unit := Cell_set_text cell text.

(** [row.cells] is read again on every iteration. *)
Definition add_row_text (row : _Row) (content : list pyval) : M _Row :=
  cells <- gets (λ h, Row_cells h row) ;;
  py_assert (bool_decide (length content = length cells)) "content长度于单元格个数不符" ;;;
  for_ (range (Z.of_nat (length content))) (λ index,
    v <- lift (py_getitem content index) ;;
    cells <- gets (λ h, Row_cells h row) ;;
    c <- lift (py_getitem cells index) ;;
    Cell_set_text c (py_str v)) ;;;
  ret row.

Definition add_column_text (column : _Column) (content : list pyval) : M _Column :=
  cells <- gets (λ h, Column_cells h column) ;;
  py_assert (bool_decide (length content = length cells)) "content长度于单元格个数不符" ;;;
  for_ (range (Z.of_nat (length content))) (λ index,
    v <- lift (py_getitem content index) ;;
    cells <- gets (λ h, Column_cells h column) ;;
    c <- lift (py_getitem cells index) ;;
    Cell_set_text c (py_str v)) ;;;
  ret column.
End doc_decorate.

(** * Vocabulary of the properties *)

(** The runs below a list of cells: cell order, then paragraph order,
    then run order. *)
Definition runs_of_cells (h : heap) (cells : list loc) : list loc :=
  c ← cells; p ← Cell_paragraphs h c; Paragraph_runs h p.

(** The qualified name of the east-Asian font attribute. *)
Definition eastAsia : string :=
  "{http://schemas.openxmlformats.org/wordprocessingml/2006/main}eastAsia".

(** The text of a run after the substitutions of a mapping: for each
    key in iteration order that occurs in the current text, the key is
    replaced by the stringified value. *)
Definition replace_step (context : dict) (t key : string) : string :=
  if py_in key t then py_replace t key (py_str (dict_get context key)) else t.
Definition replace_text (context : dict) (t : string) : string :=
  foldl (replace_step context) t (dict_keys context).

(** The two loops of [DocDecorate.replace], named: the body for one key
    and the inner loop for one run. *)
Definition replace_key (context : dict) (run : loc) (key : string) : M unit :=
  t <- gets (λ h, Run_text h run) ;;
  if py_in key t
  then t' <- gets (λ h, Run_text h run) ;;
       Run_set_text run (py_replace t' key (py_str (dict_get context key)))
  else ret tt.
Definition replace_keys (context : dict) (run : loc) (keys : list string) : M unit :=
  for_ keys (replace_key context run).

(** The loop of [DocContent.add_table] that seeds the cells, named. *)
Definition fill_cells (cells : list loc) (data : list string) (n : Z) : M unit :=
  for_ (range n) (λ index,
    v <- lift (py_getitem data index) ;;
    c <- lift (py_getitem cells index) ;;
    Cell_set_text c v).

(** A computation preserves [R] when [R] relates the heap before to the
    heap after, whether the computation returns or raises. *)
Definition preserves (R : relation heap) {A} (m : M A) : Prop :=
  ∀ h, R h (m h).1.

(** The observation [g] of the heap is left as it was. *)
Definition same_on {B} (g : heap → B) : relation heap := λ h h', g h' = g h.

(** The runs other than [run], and a field of [run]. *)
Definition other_runs (run : loc) (h : heap) : gmap nat RunElem := delete run (h_runs h).
Definition run_field {B} (f : RunElem → B) (run : loc) (h : heap) : B :=
  f (h_runs h !!! run).

(** A new cell: one paragraph without runs. *)
Definition empty_cell (h : heap) (c : loc) : Prop :=
  ∃ p, h_cells h !! c = Some (mkCell [p]) ∧
       h_pars h !! p = Some (mkParagraph [] None None).

(** A cell whose content is one paragraph with one run of text [s]. *)
Definition cell_holds (h : heap) (c : loc) (s : string) : Prop :=
  ∃ p r, h_cells h !! c = Some (mkCell [p]) ∧
         h_pars h !! p = Some (mkParagraph [r] None None) ∧
         h_runs h !! r = Some (empty_run s).

(** [m] returns new, distinct, empty cells (those [cells_of] finds in
    its result) and leaves every element of the heap as it was. *)
Definition allocates {A} (cells_of : A → list loc) (m : M A) : Prop :=
  ∀ h, ∃ a h', m h = (h', inr a) ∧
    NoDup (cells_of a) ∧
    Forall (λ c, h_cells h !! c = None ∧ empty_cell h' c) (cells_of a) ∧
    h_pars h ⊆ h_pars h' ∧ h_cells h ⊆ h_cells h' ∧
    h_runs h' = h_runs h ∧ h_tbls h' = h_tbls h ∧ h_docs h' = h_docs h.

(** The paragraphs inside the tables of a document: table order, then
    cell order (row-major), then paragraph order. *)
Definition table_paragraphs (h : heap) (d : loc) : list Paragraph :=
  t ← Document_tables h d; c ← Table__cells h t; Cell_paragraphs h c.

(** Once [P] holds it holds ever after. *)
Definition keeps (P : heap → Prop) : relation heap := λ h h', P h → P h'.

(** The outcome [out] of a loop that assigns the integer [v], which
    is not an alignment, to the paragraphs [ps] and then returns [x]:
    it stops at the first paragraph, whose [w:jc] is left without the
    value. *)
Definition alignment_rejected {A} (ps : list Paragraph) (v : Z) (h : heap) (x : A)
    (out : heap * result A) : Prop :=
  (ps = [] → out = (h, inr x)) ∧
  (∀ p rest, ps = p :: rest →
     out = (update_par (p_elem p) get_or_add_jc h,
            inl (ValueError (pretty v +:+ " is not a valid WD_PARAGRAPH_ALIGNMENT")))).

(** [h'] is [h] with the alignment of the paragraphs [ps] set to [a]
    and nothing else changed. *)
Definition aligned (ps : list Paragraph) (a : option Z) (h h' : heap) : Prop :=
  (∀ p, p ∈ ps → p_alignment (h_pars h' !!! p_elem p) = Some <$> a) ∧
  (∀ q, p_runs (h_pars h' !!! q) = p_runs (h_pars h !!! q) ∧
        p_style (h_pars h' !!! q) = p_style (h_pars h !!! q)) ∧
  (∀ q, q ∉ p_elem <$> ps → h_pars h' !! q = h_pars h !! q) ∧
  h_runs h' = h_runs h ∧ h_cells h' = h_cells h ∧
  h_tbls h' = h_tbls h ∧ h_docs h' = h_docs h.

(** The components a string of six hexadecimal digits encodes; the
    digits may be in upper or in lower case. *)
Definition hex6 (s : string) : option (Z * Z * Z) :=
  match s with
  | String c1 (String c2 (String c3 (String c4 (String c5 (String c6 EmptyString))))) =>
      d1 ← hex_digit c1; d2 ← hex_digit c2; d3 ← hex_digit c3;
      d4 ← hex_digit c4; d5 ← hex_digit c5; d6 ← hex_digit c6;
      Some (16 * d1 + d2, 16 * d3 + d4, 16 * d5 + d6)
  | _ => None
  end.

(** The colour an argument stands for: none, or the colour the
    constructor builds. *)
Definition color_of (color : option color_arg) : result (option RGBColor) :=
  match color with
  | None => inr None
  | Some (ColorTuple r g b) => c <-? RGBColor_new r g b ;; inr (Some c)
  | Some (ColorStr s) => c <-? RGBColor_from_string s ;; inr (Some c)
  end.

(** A run whose font name and east-Asian font are [f] and whose size,
    colour, bold and italic are the given ones, where given; the text
    is that of [e]. *)
Definition run_attributes (f : string) (sz : option Z) (c : option RGBColor)
    (bold italic : option bool) (e : RunElem) : RunElem :=
  mkRun (r_text e) (Some f) (<[eastAsia := f]> (r_rFonts e))
        (from_option (λ v, Some (Pt v)) (r_font_size e) sz)
        (from_option Some (r_font_color e) c)
        (from_option Some (r_bold e) bold)
        (from_option Some (r_italic e) italic).

(** [h'] is [h] with the row [cs] of new cells appended to the table
    [t]; what was in [h] is still there. *)
Definition row_appended (t : loc) (cs : list loc) (h h' : heap) : Prop :=
  tr_lst (h_tbls h' !!! t) = tr_lst (h_tbls h !!! t) ++ [cs] ∧
  Row_cells h' (mkRow t (length (tr_lst (h_tbls h !!! t)))) = cs ∧
  length cs = tblGrid (h_tbls h !!! t) ∧
  NoDup cs ∧ Forall (λ c, h_cells h !! c = None) cs ∧
  h_runs h ⊆ h_runs h' ∧ h_pars h ⊆ h_pars h' ∧ h_cells h ⊆ h_cells h' ∧
  (∀ t', t' ≠ t → h_tbls h' !! t' = h_tbls h !! t') ∧
  h_docs h' = h_docs h.

(** [n] DocContent facades around an object. *)
Fixpoint wrapped (n : nat) (o : pyobj) : pyobj :=
  match n with
  | O => o
  | S n' => ObjDocContent (wrapped n' o)
  end.

(** * Sample documents *)

(** No file can be opened. *)
Definition no_files : string → M loc := λ path, raise (IOError path).

(** A document holding one table of one row and three columns. *)
Definition doc_table_1x3 : heap :=
  ((d <- docx_Document_new ;; Document_add_table d 1 3 None) empty_heap).1.

(** A document holding one table of two rows and two columns. *)
Definition doc_table_2x2 : heap :=
  ((d <- docx_Document_new ;; Document_add_table d 2 2 None) empty_heap).1.

(** An empty document. *)
Definition doc_empty : heap := (docx_Document_new empty_heap).1.

(** A document of two paragraphs, [a] and [b]. *)
Definition doc_a_b : heap :=
  ((d <- docx_Document_new ;;
   Document_add_paragraph d "a" None ;;;
   Document_add_paragraph d "b" None) empty_heap).1.

(** A document of one paragraph with the text [foobar123], and the
    facade built on it. *)
Definition doc_foobar : heap :=
  ((d <- docx_Document_new ;; Document_add_paragraph d "foobar123" None) empty_heap).1.
Definition facade_foobar : DocDecorate.instance :=
  DocDecorate.mk (ObjDocument 0%nat) [0%nat] [mkParagraphProxy 0%nat (InBody 0%nat)] [] [].

(** A document of two paragraphs, [marker] and [keep], and the facade
    built on it. *)
Definition doc_marker : heap :=
  ((d <- docx_Document_new ;;
   Document_add_paragraph d "marker" None ;;;
   Document_add_paragraph d "keep" None) empty_heap).1.
Definition facade_marker : DocDecorate.instance :=
  DocDecorate.mk (ObjDocument 0%nat) [0%nat; 1%nat]
    [mkParagraphProxy 0%nat (InBody 0%nat); mkParagraphProxy 1%nat (InBody 0%nat)] [] [].

(** A run set in Arial. *)
Definition run_arial : heap :=
  set_runs <[0%nat := mkRun "hello" (Some "Arial") ∅ None None None None]> empty_heap.

(** The facade built on the document of one table of two rows and
    two columns. *)
Definition facade_table_2x2 : DocDecorate.instance :=
  DocDecorate.mk (ObjDocument 0%nat) [] [] [0%nat] [0%nat; 1%nat; 2%nat; 3%nat].

(** The element facade of the document at location 0, before any call. *)
Definition element_facade : DOCXElement.instance :=
  DOCXElement.mk (ObjDocument 0%nat) None None None.

(** The element facade of the document at location 0 with a cache
    that holds the second paragraph only. *)
Definition element_facade_stale : DOCXElement.instance :=
  DOCXElement.mk (ObjDocument 0%nat) (Some [mkParagraphProxy 1%nat (InBody 0%nat)]) None None.

(** * Properties *)

(** ** Python lists *)

Lemma py_getitem_nat {A} (l : list A) (i : Z) (x : A) :
  0 ≤ i → l !! Z.to_nat i = Some x → py_getitem l i = inr x.
Proof.
  intros Hi Hx. unfold py_getitem.
  pose proof (lookup_lt_Some _ _ _ Hx) as Hlt.
  destruct (i <? 0) eqn:E; [lia|].
  replace ((0 <=? i) && (i <? Z.of_nat (length l))) with true by (symmetry; apply andb_true_iff; lia).
  by rewrite Hx.
Qed.

Lemma foldl_extend {A B} (f : A → list B) (acc : list B) (l : list A) :
  foldl (λ xs a, xs ++ f a) acc l = acc ++ concat (f <$> l).
Proof.
  revert acc. induction l as [|a l IH]; intros acc; simpl.
  - by rewrite app_nil_r.
  - by rewrite IH, app_assoc.
Qed.

(** ** Rows and columns of a table by index (part.py) *)

Lemma Table_rows_lookup h t i :
  (i < length (tr_lst (h_tbls h !!! t)))%nat → Table_rows h t !! i = Some (mkRow t i).
Proof. intros Hi. unfold Table_rows. by rewrite list_lookup_fmap, lookup_seq_lt. Qed.

Lemma Table_columns_lookup h t i :
  (i < tblGrid (h_tbls h !!! t))%nat → Table_columns h t !! i = Some (mkColumn t i).
Proof. intros Hi. unfold Table_columns. by rewrite list_lookup_fmap, lookup_seq_lt. Qed.

(** C10: [part.get_row_in_table] and [part.get_column_in_table] accept
    an index [i] only when [0 < i < count]: index 0 fails for every
    table, an index outside the range fails, and for [0 < i < count]
    the row (the column) of the table at index [i] is returned. *)
Theorem get_row_column_in_table_index (h : heap) (t : loc) :
  part.get_row_in_table h t 0 = inl (AssertionError "row_index out of range") ∧
  part.get_column_in_table h t 0 = inl (AssertionError "column_index out of range") ∧
  (∀ i, ¬ (0 < i < part.get_table_row_length h t) →
        part.get_row_in_table h t i = inl (AssertionError "row_index out of range")) ∧
  (∀ i, ¬ (0 < i < part.get_table_column_length h t) →
        part.get_column_in_table h t i = inl (AssertionError "column_index out of range")) ∧
  (∀ i, 0 < i < part.get_table_row_length h t →
        part.get_row_in_table h t i = inr (mkRow t (Z.to_nat i)) ∧
        Table_rows h t !! Z.to_nat i = Some (mkRow t (Z.to_nat i)) ∧
        tr_lst (h_tbls h !!! t) !! Z.to_nat i = Some (Row_cells h (mkRow t (Z.to_nat i)))) ∧
  (∀ i, 0 < i < part.get_table_column_length h t →
        part.get_column_in_table h t i = inr (mkColumn t (Z.to_nat i)) ∧
        Table_columns h t !! Z.to_nat i = Some (mkColumn t (Z.to_nat i))).
Proof.
  unfold part.get_row_in_table, part.get_column_in_table,
    part.get_table_row_length, part.get_table_column_length.
  split_and!; try done.
  - intros i Hi. destruct (0 <? i) eqn:E1; [|done].
    destruct (i <? _) eqn:E2; [|done]. lia.
  - intros i Hi. destruct (0 <? i) eqn:E1; [|done].
    destruct (i <? _) eqn:E2; [|done]. lia.
  - intros i Hi.
    assert (Hlt : (Z.to_nat i < length (tr_lst (h_tbls h !!! t)))%nat).
    { unfold Table_rows in Hi. rewrite length_fmap, length_seq in Hi. lia. }
    pose proof (Table_rows_lookup h t _ Hlt) as Hrow.
    replace ((0 <? i) && _) with true by (symmetry; apply andb_true_iff; lia).
    split_and!; [by apply py_getitem_nat; [lia|]|done|].
    unfold Row_cells, Table_row_cells; simpl.
    destruct (tr_lst (h_tbls h !!! t) !! Z.to_nat i) eqn:E; [done|].
    apply lookup_ge_None in E. lia.
  - intros i Hi.
    assert (Hlt : (Z.to_nat i < tblGrid (h_tbls h !!! t))%nat).
    { unfold Table_columns in Hi. rewrite length_fmap, length_seq in Hi. lia. }
    pose proof (Table_columns_lookup h t _ Hlt) as Hcol.
    replace ((0 <? i) && _) with true by (symmetry; apply andb_true_iff; lia).
    split; [by apply py_getitem_nat; [lia|]|done].
Qed.

(** ** Runs of a table element (element.py) *)

Lemma runs_of_cells_extend h cells :
  foldl (λ runs paragraph, runs ++ Paragraph_runs h paragraph) []
    (foldl (λ paragraphs cell, paragraphs ++ Cell_paragraphs h cell) [] cells)
  = runs_of_cells h cells.
Proof.
  rewrite !foldl_extend. simpl. unfold runs_of_cells.
  induction cells as [|c cells IH]; [done|].
  rewrite fmap_cons, concat_cons, fmap_app, concat_app, IH.
  rewrite bind_cons. f_equal.
  generalize (Cell_paragraphs h c). intros ps.
  induction ps as [|p ps IHp]; [done|].
  by rewrite fmap_cons, concat_cons, bind_cons, IHp.
Qed.

(** C8: [DOCXElement.get_runs_in_table_element] raises [TypeError] on
    every table, because [get_cells_of_table_element] calls the list
    [element._cells] that [get_cells_of_table] reads as an attribute;
    on a row, a column or a cell it returns the runs of the element's
    cells, in cell, paragraph and run order. *)
Theorem get_runs_in_table_element_kinds (h : heap) :
  (∀ t, DOCXElement.get_runs_in_table_element h (ETable t) = inl TypeError) ∧
  (∀ t, DOCXElement.get_cells_of_table h (ETable t) = inr (Table__cells h t)) ∧
  (∀ r, DOCXElement.get_runs_in_table_element h (ERow r)
        = inr (runs_of_cells h (Row_cells h r))) ∧
  (∀ c, DOCXElement.get_runs_in_table_element h (EColumn c)
        = inr (runs_of_cells h (Column_cells h c))) ∧
  (∀ c, DOCXElement.get_runs_in_table_element h (ECell c)
        = inr (runs_of_cells h [c])).
Proof.
  unfold DOCXElement.get_runs_in_table_element,
    DOCXElement.get_paragraphs_of_table_element.
  split_and!; intros x; try done;
    cbv [DOCXElement.get_cells_of_table_element rbind];
    by rewrite runs_of_cells_extend.
Qed.

Lemma set_table_element_content_attribute_table h t en zh sz color bold italic :
  DocStyle.set_table_element_content_attribute (ETable t) en zh sz color bold italic h
  = (h, inl TypeError).
Proof. done. Qed.

Lemma set_table_element_content_alignment_not_table h element alignment :
  (∀ t, element ≠ ETable t) →
  DocStyle.set_table_element_content_alignment element alignment h
  = (h, inl AttributeError).
Proof. intros Hne. destruct element; [by destruct (Hne t)|done..]. Qed.

(** ** Allocation *)

Lemma fresh_None {A} (m : gmap nat A) : m !! fresh (dom m) = None.
Proof. apply not_elem_of_dom, is_fresh. Qed.

Lemma fresh_ne {A} (m : gmap nat A) (i : nat) (x : A) :
  m !! i = Some x → fresh (dom m) ≠ i.
Proof. intros Hi Heq. rewrite <- Heq, fresh_None in Hi. done. Qed.

(** ** Construction of the facades (content.py, doc_decorate.py) *)

Lemma new_runs_for_docs text h :
  h_docs (new_runs_for text h).1 = h_docs h ∧
  h_pars (new_runs_for text h).1 = h_pars h ∧
  h_cells (new_runs_for text h).1 = h_cells h ∧
  h_tbls (new_runs_for text h).1 = h_tbls h ∧
  ∃ rs, (new_runs_for text h).2 = inr rs.
Proof. unfold new_runs_for. case_decide; simpl; eauto 10. Qed.

Lemma Document_add_paragraph_eq d text style h :
  ∃ rs h1, new_runs_for text h = (h1, inr rs) ∧
    let p := fresh (dom (h_pars h1)) in
    Document_add_paragraph d text style h =
      (update_doc d (λ e, mkDocument (body e ++ [BlockP p]))
         (set_pars <[p := mkParagraph rs style None]> h1),
       inr (mkParagraphProxy p (InBody d))).
Proof.
  unfold Document_add_paragraph, new_runs_for, bind.
  case_decide; simpl; eauto.
Qed.

(** C9: [DocContent.__init__] called with an existing Document [d] does
    not keep [d]: the facade's [doc] is a new, empty document [d' ≠ d],
    and a paragraph added through the facade lands in [d'] while [d]
    stays as it was; [DocDecorate.__init__] keeps [d]. *)
Theorem DocContent_init_drops_document (docx_Document : string → M loc)
    (h : heap) (d : loc) (e : DocumentElem) :
  h_docs h !! d = Some e →
  ∃ d' h1,
    d' ≠ d ∧
    DocContent.__init__ docx_Document (ObjDocument d) h
      = (h1, inr (DocContent.mk (ObjDocument d'))) ∧
    h_docs h !! d' = None ∧
    h_docs h1 !! d' = Some (mkDocument []) ∧
    h_docs h1 !! d = Some e ∧
    (∀ text style, ∃ p h2,
       DocContent.add_paragraph (DocContent.mk (ObjDocument d')) text style h1
         = (h2, inr (mkParagraphProxy p (InBody d'))) ∧
       Document_paragraphs h2 d' = [mkParagraphProxy p (InBody d')] ∧
       h_docs h2 !! d = Some e) ∧
    ∃ self, DocDecorate.__init__ docx_Document (ObjDocument d) h = (h, inr self) ∧
            DocDecorate.doc self = ObjDocument d.
Proof.
  intros Hd. exists (fresh (dom (h_docs h))), (set_docs <[fresh (dom (h_docs h)) := mkDocument []]> h).
  pose proof (fresh_ne _ _ _ Hd) as Hne.
  split_and!; try done.
  - apply fresh_None.
  - simpl. apply lookup_insert_eq.
  - simpl. by rewrite lookup_insert_ne.
  - intros text style. unfold DocContent.add_paragraph; simpl.
    set (h1 := set_docs _ h).
    destruct (Document_add_paragraph_eq (fresh (dom (h_docs h))) text style h1)
      as (rs & h1' & Hrs & Heq).
    pose proof (new_runs_for_docs text h1) as (Hdocs & _). rewrite Hrs in Hdocs; simpl in Hdocs.
    eexists _, _. split; [exact Heq|]. simpl. rewrite Hdocs.
    split.
    + unfold Document_paragraphs; simpl.
      rewrite lookup_total_insert_eq; simpl.
      rewrite Hdocs, lookup_total_insert_eq. done.
    + by rewrite !lookup_insert_ne.
  - eexists. split; [reflexivity|done].
Qed.

(** ** Run attributes (style.py) *)

Lemma update_run_lookup r f h : h_runs (update_run r f h) !!! r = f (h_runs h !!! r).
Proof. simpl. apply lookup_total_insert_eq. Qed.

Lemma update_run_lookup_ne r r' f h :
  r' ≠ r → h_runs (update_run r f h) !! r' = h_runs h !! r'.
Proof. intros Hne. simpl. by rewrite lookup_insert_ne. Qed.

Lemma hex_digit_char d : 0 ≤ d < 16 → hex_digit (hex_char d) = Some d.
Proof.
  intros Hd. assert (Hn : d = Z.of_nat (Z.to_nat d)) by lia.
  assert (Hlt : (Z.to_nat d < 16)%nat) by lia.
  rewrite Hn. generalize dependent (Z.to_nat d). intros n _ Hlt.
  do 16 (destruct n as [|n]; [reflexivity|]). lia.
Qed.

Lemma RGBColor_new_ok r g b :
  0 ≤ r ≤ 255 → 0 ≤ g ≤ 255 → 0 ≤ b ≤ 255 →
  RGBColor_new r g b = inr (mkRGBColor r g b).
Proof.
  intros Hr Hg Hb. unfold RGBColor_new. simpl.
  replace ((0 <=? r) && (r <=? 255)) with true by (symmetry; apply andb_true_iff; lia).
  replace ((0 <=? g) && (g <=? 255)) with true by (symmetry; apply andb_true_iff; lia).
  replace ((0 <=? b) && (b <=? 255)) with true by (symmetry; apply andb_true_iff; lia).
  done.
Qed.

Lemma qn_eastAsia : qn (Some "w:eastAsia") = inr eastAsia.
Proof. reflexivity. Qed.

(** ** Frame reasoning *)

#[global] Instance same_on_preorder {B} (g : heap → B) : PreOrder (same_on g).
Proof. split; [done|]. intros x y z Hxy Hyz. unfold same_on in *. congruence. Qed.

Section Preserves.
Context (R : relation heap) `{!PreOrder R}.

Lemma preserves_ret {A} (a : A) : preserves R (ret a).
  Proof. intros h. simpl. reflexivity. Qed.

Lemma preserves_raise {A} (e : exn) : preserves R (raise (A := A) e).
  Proof. intros h. simpl. reflexivity. Qed.

Lemma preserves_lift {A} (r : result A) : preserves R (lift r).
  Proof. intros h. simpl. reflexivity. Qed.

Lemma preserves_gets {A} (f : heap → A) : preserves R (gets f).
  Proof. intros h. simpl. reflexivity. Qed.

Lemma preserves_assert b msg : preserves R (py_assert b msg).
  Proof. destruct b; [apply preserves_ret|apply preserves_raise]. Qed.

Lemma preserves_modify (f : heap → heap) :
    (∀ h, R h (f h)) → preserves R (modify f).
  Proof. intros Hf h. apply Hf. Qed.

Lemma preserves_bind {A B} (m : M A) (k : A → M B) :
    preserves R m → (∀ a, preserves R (k a)) → preserves R (bind m k).
  Proof.
    intros Hm Hk h. unfold bind. specialize (Hm h).
    destruct (m h) as [h1 [e|a]]; simpl in *; [done|].
    etrans; [exact Hm|apply Hk].
  Qed.

Lemma preserves_for {A} (xs : list A) (body : A → M unit) :
    (∀ x, preserves R (body x)) → preserves R (for_ xs body).
  Proof.
    intros Hbody. induction xs as [|x xs IH]; simpl.
    - apply preserves_ret.
    - apply preserves_bind; [apply Hbody|intros _; apply IH].
  Qed.

Lemma preserves_replicateM {A} (n : nat) (m : M A) :
    preserves R m → preserves R (replicateM n m).
  Proof.
    intros Hm. induction n as [|n IH]; simpl.
    - apply preserves_ret.
    - apply preserves_bind; [done|intros a].
      apply preserves_bind; [done|intros xs]. apply preserves_ret.
  Qed.
End Preserves.

Ltac preserves_step :=
  lazymatch goal with
  | |- preserves _ (ret _) => apply preserves_ret; apply _
  | |- preserves _ (raise _) => apply preserves_raise; apply _
  | |- preserves _ (lift _) => apply preserves_lift; apply _
  | |- preserves _ (gets _) => apply preserves_gets; apply _
  | |- preserves _ (py_assert _ _) => apply preserves_assert; apply _
  | |- preserves _ (bind _ _) => apply preserves_bind; [apply _| |intros ?]
  | |- preserves _ (for_ _ _) => apply preserves_for; [apply _|intros ?]
  | |- preserves _ (replicateM _ _) => apply preserves_replicateM; [apply _|]
  | |- preserves _ (modify _) => apply preserves_modify; intros ?; unfold same_on
  | |- preserves _ (match ?x with _ => _ end) => destruct x
  end.

Ltac preserves_steps := repeat preserves_step.

Lemma other_runs_lookup run h h' r' :
  other_runs run h' = other_runs run h → r' ≠ run → h_runs h' !! r' = h_runs h !! r'.
Proof.
  unfold other_runs. intros Heq Hne.
  rewrite <- (lookup_delete_ne (h_runs h') run r'), Heq by done.
  by rewrite lookup_delete_ne.
Qed.

Lemma other_runs_update run f h : other_runs run (update_run run f h) = other_runs run h.
Proof. unfold other_runs. simpl. apply delete_insert_eq. Qed.

Lemma run_field_update {B} (g : RunElem → B) run f h :
  (∀ e, g (f e) = g e) → run_field g run (update_run run f h) = run_field g run h.
Proof. intros Hf. unfold run_field. simpl. by rewrite lookup_total_insert_eq. Qed.

Ltac run_attr :=
  unfold DocStyle.set_run_attribute, rFonts_set, rFonts_set_method, Font_set_color;
  preserves_steps;
  first [ apply other_runs_update
        | apply run_field_update; intros ?; unfold Font_set_name; by repeat case_match
        | done ].





(** The colour of the run is never assigned. *)
Lemma set_run_attribute_color run en zh sz color bold italic :
  preserves (same_on (run_field r_font_color run))
    (DocStyle.set_run_attribute run en zh sz color bold italic).
Proof. run_attr. Qed.



Lemma bind_returns {A B} (m : M A) (k : A → M B) h h1 a :
  m h = (h1, inr a) → bind m k h = k a h1.
Proof. intros Hm. unfold bind. by rewrite Hm. Qed.

Lemma bind_raises {A B} (m : M A) (k : A → M B) h h1 e :
  m h = (h1, inl e) → bind m k h = (h1, inl e).
Proof. intros Hm. unfold bind. by rewrite Hm. Qed.

Lemma bind_never_returns {A B} (m : M A) (k : A → M B) h :
  (∀ a h1, ∃ e, (k a h1).2 = inl e) → ∃ e, (bind m k h).2 = inl e.
Proof.
  intros Hk. unfold bind. destruct (m h) as [h1 [e|a]]; [by exists e|apply Hk].
Qed.

Lemma update_run_twice r f g h :
  update_run r f (update_run r g h) = update_run r (f ∘ g) h.
Proof.
  unfold update_run, set_runs. simpl. f_equal.
  by rewrite lookup_total_insert_eq, insert_insert_eq.
Qed.

Lemma update_run_ext r f g h :
  (∀ e, f e = g e) → update_run r f h = update_run r g h.
Proof. intros Hfg. unfold update_run, set_runs. by rewrite Hfg. Qed.

(** The [rFonts] element after the assignment of the font name. *)
Lemma has_rFonts_named v e : has_rFonts (Font_set_name (Some v) e) = true.
Proof. done. Qed.

Lemma has_rFonts_removed e : has_rFonts (Font_set_name None e) = false.
Proof.
  unfold has_rFonts, Font_set_name. cbn [r_font_name r_rFonts].
  rewrite (bool_decide_eq_false_2 (@None string ≠ None)) by (intros H; by apply H).
  by rewrite (bool_decide_eq_false_2 ((∅ : gmap string string) ≠ ∅))
    by (intros H; by apply H).
Qed.

Lemma rFonts_set_method_eq run f h :
  rFonts_set_method run (update_run run f h)
  = (update_run run f h,
     if has_rFonts (f (h_runs h !!! run)) then inr tt else inl AttributeError).
Proof.
  unfold rFonts_set_method, bind, gets. rewrite update_run_lookup.
  by destruct (has_rFonts _).
Qed.

(** The two statements under the guard on the fonts. *)
Lemma set_fonts_eq run en zh h :
  (modify (update_run run (Font_set_name zh)) ;;;
   rFonts_set_method run ;;;
   key <- lift (qn en) ;;
   rFonts_set run key zh) h
  = match zh with
    | None => (update_run run (Font_set_name None) h, inl AttributeError)
    | Some f =>
        match qn en with
        | inl e => (update_run run (Font_set_name (Some f)) h, inl e)
        | inr key => (update_run run (with_rFont key f)
                        (update_run run (Font_set_name (Some f)) h), inr tt)
        end
    end.
Proof.
  erewrite bind_returns by reflexivity.
  destruct zh as [f|].
  - erewrite bind_returns by (rewrite rFonts_set_method_eq, has_rFonts_named; reflexivity).
    unfold bind, lift. by destruct (qn en).
  - erewrite bind_raises; [reflexivity|].
    by rewrite rFonts_set_method_eq, has_rFonts_removed.
Qed.


(** One call with the default [en_font] and a font: the fonts and the
    size are set first; a colour is then built and cannot be assigned;
    without a colour, bold and italic are set and the run returned. *)
Lemma set_run_attribute_eq run f sz color bold italic h :
  DocStyle.set_run_attribute run (Some "w:eastAsia") (Some f) sz color bold italic h
  = match color_of color with
    | inr None => (update_run run (run_attributes f sz None bold italic) h, inr run)
    | inr (Some _) =>
        (update_run run (run_attributes f sz None None None) h, inl AttributeError)
    | inl e => (update_run run (run_attributes f sz None None None) h, inl e)
    end.
Proof.
  unfold DocStyle.set_run_attribute.
  change (bool_decide (Some "w:eastAsia" ≠ None)) with true. simpl orb. cbv iota.
  erewrite bind_returns; [|rewrite set_fonts_eq, qn_eastAsia; reflexivity].
  assert (Hupd : ∀ {A} G G' (r : result A), (∀ e, G e = G' e) →
            (update_run run G h, r) = (update_run run G' h, r)).
  { intros A G G' r HG. f_equal. by apply update_run_ext. }
  destruct color as [[r g b|s]|]; simpl.
  - destruct (RGBColor_new r g b) as [e'|c]; simpl;
      destruct sz; cbv [bind modify lift ret raise Font_set_color];
      rewrite ?update_run_twice; apply Hupd; done.
  - destruct (RGBColor_from_string s) as [e'|c]; simpl;
      destruct sz; cbv [bind modify lift ret raise Font_set_color];
      rewrite ?update_run_twice; apply Hupd; done.
  - destruct sz, bold, italic; cbv [bind modify lift ret];
      rewrite ?update_run_twice; apply Hupd; done.
Qed.

(** ** Colours of a run (style.py) *)

Lemma hex6_rgb_hex r g b :
  0 ≤ r ≤ 255 → 0 ≤ g ≤ 255 → 0 ≤ b ≤ 255 → hex6 (rgb_hex r g b) = Some (r, g, b).
Proof.
  intros Hr Hg Hb. unfold rgb_hex, hex2. simpl.
  assert (Hd : ∀ v, 0 ≤ v ≤ 255 →
            hex_digit (hex_char (v / 16)) = Some (v / 16) ∧
            hex_digit (hex_char (v mod 16)) = Some (v mod 16) ∧
            16 * (v / 16) + v mod 16 = v).
  { intros v Hv. split_and!.
    - apply hex_digit_char.
      split; [apply Z.div_pos; lia | apply Z.div_lt_upper_bound; lia].
    - apply hex_digit_char, Z.mod_pos_bound. lia.
    - pose proof (Z.div_mod v 16). lia. }
  destruct (Hd r Hr) as (-> & -> & Hr').
  destruct (Hd g Hg) as (-> & -> & Hg').
  destruct (Hd b Hb) as (-> & -> & Hb').
  simpl. by rewrite Hr', Hg', Hb'.
Qed.

Lemma RGBColor_from_string_hex6 s r g b :
  hex6 s = Some (r, g, b) → RGBColor_from_string s = RGBColor_new r g b.
Proof.
  unfold hex6.
  destruct s as [|c1 [|c2 [|c3 [|c4 [|c5 [|c6 [|c7 s]]]]]]]; try done.
  intros H. unfold RGBColor_from_string, py_int16. simpl.
  destruct (hex_digit c1) as [d1|]; [|done]. destruct (hex_digit c2) as [d2|]; [|done].
  destruct (hex_digit c3) as [d3|]; [|done]. destruct (hex_digit c4) as [d4|]; [|done].
  destruct (hex_digit c5) as [d5|]; [|done]. destruct (hex_digit c6) as [d6|]; [|done].
  simpl in *. injection H as <- <- <-. f_equal; lia.
Qed.

(** C7: [set_run_attribute] does not set the colour.  For [r], [g],
    [b] in 0..255 the call with the triple [(r, g, b)] and the call
    with any six-digit hexadecimal encoding of it (upper or lower
    case) have the same outcome, but the outcome is never a return and
    the colour of the run is the one it had: once the colour is built,
    [run.font.color = ...] raises AttributeError.  With the default
    fonts, or with [None] for both, AttributeError is what the call
    raises. *)
Theorem set_run_attribute_color_encodings (run : loc) (en zh : option string)
    (sz : option Z) (bold italic : option bool) (r g b : Z) (h : heap) :
  0 ≤ r ≤ 255 → 0 ≤ g ≤ 255 → 0 ≤ b ≤ 255 →
  let tuple :=
    DocStyle.set_run_attribute run en zh sz (Some (ColorTuple r g b)) bold italic h in
  hex6 (rgb_hex r g b) = Some (r, g, b) ∧
  (∀ s, hex6 s = Some (r, g, b) →
     DocStyle.set_run_attribute run en zh sz (Some (ColorStr s)) bold italic h = tuple) ∧
  (∀ h' x, tuple ≠ (h', inr x)) ∧
  r_font_color (h_runs tuple.1 !!! run) = r_font_color (h_runs h !!! run) ∧
  ((en = None ∧ zh = None) ∨ (en = Some "w:eastAsia" ∧ zh ≠ None) →
   tuple.2 = inl AttributeError) ∧
  (∃ h',
     DocStyle.set_run_attribute_call run Absent Absent Absent
       (Passed (Some (ColorTuple r g b))) Absent Absent h = (h', inl AttributeError) ∧
     DocStyle.set_run_attribute_call run Absent Absent Absent
       (Passed (Some (ColorStr (rgb_hex r g b)))) Absent Absent h
     = (h', inl AttributeError) ∧
     r_font_color (h_runs h' !!! run) = r_font_color (h_runs h !!! run)).
Proof.
  intros Hr Hg Hb tuple. subst tuple.
  pose proof (RGBColor_new_ok r g b Hr Hg Hb) as Hnew.
  assert (Heq : ∀ s en zh sz bold italic, hex6 s = Some (r, g, b) →
    DocStyle.set_run_attribute run en zh sz (Some (ColorStr s)) bold italic h
    = DocStyle.set_run_attribute run en zh sz (Some (ColorTuple r g b)) bold italic h).
  { intros s en' zh' sz' bold' italic' Hs. unfold DocStyle.set_run_attribute.
    by rewrite (RGBColor_from_string_hex6 s r g b Hs). }
  split_and!.
  - by apply hex6_rgb_hex.
  - intros s Hs. by apply Heq.
  - intros h' x Hret.
    assert (Hraise : ∃ e,
      (DocStyle.set_run_attribute run en zh sz (Some (ColorTuple r g b)) bold italic h).2
      = inl e).
    { unfold DocStyle.set_run_attribute.
      apply bind_never_returns. intros _ h1.
      apply bind_never_returns. intros _ h2.
      rewrite Hnew. by exists AttributeError. }
    destruct Hraise as [e He]. rewrite Hret in He. discriminate He.
  - apply set_run_attribute_color.
  - intros [[-> ->]|[-> Hzh]].
    + unfold DocStyle.set_run_attribute. rewrite Hnew. by destruct sz.
    + destruct zh as [f|]; [|done].
      rewrite set_run_attribute_eq. simpl. by rewrite Hnew.
  - unfold DocStyle.set_run_attribute_call; simpl.
    rewrite (Heq _ _ _ _ _ _ (hex6_rgb_hex r g b Hr Hg Hb)).
    rewrite set_run_attribute_eq. simpl. rewrite Hnew. simpl.
    eexists. split_and!; [reflexivity..|].
    by rewrite update_run_lookup.
Qed.

(** ** Parameters that are None or left out (style.py) *)


(** ** Substitution in the cached runs (doc_decorate.py) *)

Lemma with_text_id e : with_text (r_text e) e = e.
Proof. by destruct e. Qed.

Lemma for_cons {A} (x : A) (xs : list A) (body : A → M unit) h :
  for_ (x :: xs) body h =
  match body x h with
  | (h1, inl e) => (h1, inl e)
  | (h1, inr _) => for_ xs body h1
  end.
Proof. done. Qed.

Lemma replace_key_eq context run key h :
  replace_key context run key h =
  (if py_in key (Run_text h run)
   then update_run run (with_text (replace_step context (Run_text h run) key)) h
   else h, inr tt).
Proof.
  unfold replace_key, replace_step, bind, gets. simpl.
  by destruct (py_in key (Run_text h run)).
Qed.

Lemma replace_keys_run context run keys h :
  (replace_keys context run keys h).2 = inr tt ∧
  h_runs (replace_keys context run keys h).1 !!! run
  = with_text (foldl (replace_step context) (Run_text h run) keys) (h_runs h !!! run).
Proof.
  revert h. induction keys as [|key keys IH]; intros h.
  - simpl. split; [done|]. symmetry. apply with_text_id.
  - unfold replace_keys. rewrite for_cons, replace_key_eq.
    fold (replace_keys context run keys). simpl foldl.
    destruct (py_in key (Run_text h run)) eqn:E.
    + destruct (IH (update_run run
                      (with_text (replace_step context (Run_text h run) key)) h))
        as [IH1 IH2].
      split; [exact IH1|]. rewrite IH2. unfold Run_text at 1.
      by rewrite update_run_lookup.
    + replace (replace_step context (Run_text h run) key) with (Run_text h run)
        by (unfold replace_step; by rewrite E).
      apply IH.
Qed.

Lemma replace_keys_frame context run keys :
  preserves (same_on (other_runs run)) (replace_keys context run keys) ∧
  preserves (same_on h_pars) (replace_keys context run keys) ∧
  preserves (same_on h_cells) (replace_keys context run keys) ∧
  preserves (same_on h_tbls) (replace_keys context run keys) ∧
  preserves (same_on h_docs) (replace_keys context run keys).
Proof.
  unfold replace_keys, replace_key, Run_set_text.
  split_and!; preserves_steps; first [apply other_runs_update|done].
Qed.

Lemma replace_text_no_key context t :
  (∀ key, key ∈ dict_keys context → py_in key t = false) →
  replace_text context t = t.
Proof.
  unfold replace_text. generalize (dict_keys context). intros keys.
  induction keys as [|key keys IH]; intros Hno; [done|].
  simpl. unfold replace_step at 2. rewrite Hno by left.
  apply IH. intros k Hk. apply Hno. by right.
Qed.

(** C3: [DocDecorate.replace] returns, and rewrites the text of every
    cached run by the substitutions of the mapping, applied for each
    key in iteration order that occurs in the current text; the other
    attributes of the run, the runs that are not cached and the runs
    in which no key occurs are left as they were. *)
Theorem replace_rewrites_cached_runs (self : DocDecorate.instance) (context : dict)
    (h : heap) :
  NoDup (DocDecorate.runs self) →
  ∃ h', DocDecorate.replace self context h = (h', inr tt) ∧
    (∀ r, r ∈ DocDecorate.runs self →
       h_runs h' !!! r = with_text (replace_text context (Run_text h r)) (h_runs h !!! r)) ∧
    (∀ r, r ∉ DocDecorate.runs self → h_runs h' !! r = h_runs h !! r) ∧
    (∀ r, (∀ key, key ∈ dict_keys context → py_in key (Run_text h r) = false) →
       h_runs h' !!! r = h_runs h !!! r) ∧
    h_pars h' = h_pars h ∧ h_cells h' = h_cells h ∧
    h_tbls h' = h_tbls h ∧ h_docs h' = h_docs h.
Proof.
  intros Hnd. unfold DocDecorate.replace.
  change (for_ (DocDecorate.runs self) _)
    with (for_ (DocDecorate.runs self) (λ run, replace_keys context run (dict_keys context))).
  assert (Hmain : ∀ runs h, NoDup runs →
    ∃ h', for_ runs (λ run, replace_keys context run (dict_keys context)) h = (h', inr tt) ∧
      (∀ r, r ∈ runs →
         h_runs h' !!! r = with_text (replace_text context (Run_text h r)) (h_runs h !!! r)) ∧
      (∀ r, r ∉ runs → h_runs h' !! r = h_runs h !! r) ∧
      h_pars h' = h_pars h ∧ h_cells h' = h_cells h ∧
      h_tbls h' = h_tbls h ∧ h_docs h' = h_docs h).
  { clear. intros runs. induction runs as [|run runs IH]; intros h Hnd.
    - exists h. split_and!; try done. intros r Hr. by apply elem_of_nil in Hr.
    - apply NoDup_cons in Hnd as [Hrun Hnd].
      destruct (replace_keys_run context run (dict_keys context) h) as [Hok Hrun'].
      destruct (replace_keys_frame context run (dict_keys context))
        as (Ho & Hp & Hc & Ht & Hd).
      specialize (Ho h). specialize (Hp h). specialize (Hc h).
      specialize (Ht h). specialize (Hd h). unfold same_on in *.
      rewrite for_cons.
      destruct (replace_keys context run (dict_keys context) h) as [h1 r1] eqn:E.
      simpl in *. subst r1.
      destruct (IH h1 Hnd) as (h' & Hfor & Hin & Hout & Hp' & Hc' & Ht' & Hd').
      exists h'. split_and!; try congruence.
      + intros r Hr. apply elem_of_cons in Hr as [->|Hr].
        * unfold replace_text. rewrite <- Hrun'. unfold lookup_total, map_lookup_total.
          by rewrite (Hout run Hrun).
        * assert (Hne : r ≠ run) by (intros ->; done).
          rewrite (Hin r Hr). unfold Run_text.
          unfold lookup_total, map_lookup_total.
          by rewrite (other_runs_lookup run h h1 r Ho Hne).
      + intros r Hr. apply not_elem_of_cons in Hr as [Hne Hr].
        rewrite (Hout r Hr). by apply (other_runs_lookup run h h1 r Ho Hne). }
  destruct (Hmain (DocDecorate.runs self) h Hnd) as (h' & Hfor & Hin & Hout & Hrest).
  exists h'. split_and!; try done; try apply Hrest.
  intros r Hno. destruct (decide (r ∈ DocDecorate.runs self)) as [Hr|Hr].
  - rewrite (Hin r Hr), replace_text_no_key by done. apply with_text_id.
  - unfold lookup_total, map_lookup_total. by rewrite (Hout r Hr).
Qed.

(** ** Deleting a run by its text (doc_decorate.py) *)

Lemma list_remove_middle {A} `{EqDecision A} (x : A) (pre post : list A) :
  x ∉ pre → list_remove x (pre ++ x :: post) = Some (pre ++ post).
Proof.
  induction pre as [|y pre IH]; intros Hx; simpl.
  - by rewrite decide_True.
  - apply not_elem_of_cons in Hx as [Hne Hx].
    rewrite decide_False by done. by rewrite IH.
Qed.

Lemma delete_run_loop_skip pre todo self text h :
  Forall (λ x, Run_text h x ≠ text) pre →
  DocDecorate.delete_run_loop (pre ++ todo) self text h
  = DocDecorate.delete_run_loop todo self text h.
Proof.
  induction 1 as [|x pre Hx _ IH]; [done|].
  simpl. unfold bind at 1, gets at 1. cbv iota beta.
  by rewrite decide_False.
Qed.

Lemma delete_run_loop_none todo self text h :
  Forall (λ x, Run_text h x ≠ text) todo →
  DocDecorate.delete_run_loop todo self text h = (h, inr self).
Proof.
  intros Hall. rewrite <- (app_nil_r todo). by rewrite delete_run_loop_skip.
Qed.

(** C5 (amended): [DocDecorate.delete_run] sets the text of the first
    cached run whose text equals [text] to the empty string and removes
    that run from the cached list; the run stays in its paragraph and
    every other run is unchanged.  When no cached run has the text the
    call changes nothing, which is the case of a second call once the
    only such run is gone. *)
Theorem delete_run_blanks_first_match (self : DocDecorate.instance) (text : string)
    (h : heap) :
  (∀ pre r post,
     DocDecorate.runs self = pre ++ r :: post →
     Forall (λ x, Run_text h x ≠ text) pre →
     Run_text h r = text →
     let h' := update_run r (with_text "") h in
     let self' := DocDecorate.mk (DocDecorate.doc self) (pre ++ post)
                    (DocDecorate.paragraphs self) (DocDecorate.tables self)
                    (DocDecorate.cells self) in
     DocDecorate.delete_run self text h = (h', inr self') ∧
     Run_text h' r = "" ∧
     h_runs h' !!! r = with_text "" (h_runs h !!! r) ∧
     (∀ x, x ≠ r → h_runs h' !! x = h_runs h !! x) ∧
     (∀ p, Paragraph_runs h' p = Paragraph_runs h p) ∧
     h_pars h' = h_pars h ∧ h_cells h' = h_cells h ∧
     h_tbls h' = h_tbls h ∧ h_docs h' = h_docs h ∧
     (Forall (λ x, Run_text h x ≠ text) post →
      DocDecorate.delete_run self' text h' = (h', inr self'))) ∧
  (Forall (λ x, Run_text h x ≠ text) (DocDecorate.runs self) →
   DocDecorate.delete_run self text h = (h, inr self)).
Proof.
  split.
  - intros pre r post Hruns Hpre Hr h' self'.
    assert (Hnotin : r ∉ pre).
    { intros Hin. rewrite Forall_forall in Hpre. by apply (Hpre r Hin). }
    split_and!; try done.
    + unfold DocDecorate.delete_run. rewrite Hruns at 1.
      rewrite delete_run_loop_skip by done. simpl.
      unfold bind at 1, gets at 1. cbv iota beta.
      rewrite decide_True by done.
      unfold bind at 1, Run_set_text, modify. cbv iota beta.
      by rewrite Hruns, list_remove_middle.
    + unfold Run_text. subst h'. by rewrite update_run_lookup.
    + subst h'. by rewrite update_run_lookup.
    + intros x Hx. by apply update_run_lookup_ne.
    + intros Hpost. apply delete_run_loop_none. simpl.
      apply Forall_app. split.
      * eapply Forall_impl; [exact Hpre|]. intros x Hx. simpl in Hx.
        assert (x ≠ r) by (intros ->; done).
        unfold Run_text, lookup_total, map_lookup_total.
        subst h'. rewrite update_run_lookup_ne by done. exact Hx.
      * eapply Forall_impl; [exact Hpost|]. intros x Hx. simpl in Hx.
        assert (x ≠ r) by (intros ->; done).
        unfold Run_text, lookup_total, map_lookup_total.
        subst h'. rewrite update_run_lookup_ne by done. exact Hx.
  - apply delete_run_loop_none.
Qed.

(** ** Inserting a paragraph before an index (content.py) *)

Lemma insert_before_lookup {A} `{EqDecision A} (x y : A) (l : list A) (i : nat) :
  NoDup l → l !! i = Some x → insert_before x y l = take i l ++ y :: drop i l.
Proof.
  revert i. induction l as [|z l IH]; intros i Hnd Hi; [done|].
  apply NoDup_cons in Hnd as [Hz Hnd]. simpl.
  destruct i as [|i]; simpl in *.
  - injection Hi as ->. by rewrite decide_True.
  - rewrite decide_False.
    + by rewrite (IH i).
    + intros ->. apply Hz. by eapply list_elem_of_lookup_2.
Qed.

Lemma omap_insert_before d x y (bs : list block) :
  omap (body_paragraph d) (insert_before (BlockP x) (BlockP y) bs)
  = insert_before (mkParagraphProxy x (InBody d)) (mkParagraphProxy y (InBody d))
      (omap (body_paragraph d) bs).
Proof.
  induction bs as [|b bs IH]; [done|].
  cbn [insert_before].
  destruct (decide (b = BlockP x)) as [->|Hne].
  - cbn. by rewrite decide_True.
  - destruct b as [p|t]; cbn.
    + rewrite decide_False by congruence. by rewrite IH.
    + exact IH.
Qed.

Lemma tables_insert_before x y (bs : list block) :
  omap body_table (insert_before (BlockP x) (BlockP y) bs) = omap body_table bs.
Proof.
  induction bs as [|b bs IH]; [done|].
  cbn [insert_before].
  destruct (decide (b = BlockP x)) as [->|Hne]; [done|].
  destruct b; cbn; by rewrite IH.
Qed.

Lemma Document_paragraphs_parent h d q :
  q ∈ Document_paragraphs h d → p_parent q = InBody d.
Proof.
  unfold Document_paragraphs. intros Hq.
  apply list_elem_of_omap in Hq as (b & _ & Hb).
  destruct b; simpl in Hb; by simplify_eq.
Qed.

Lemma new_runs_for_text text h :
  ∃ rs h1, new_runs_for text h = (h1, inr rs) ∧
    h_runs h ⊆ h_runs h1 ∧
    h_pars h1 = h_pars h ∧ h_cells h1 = h_cells h ∧
    h_tbls h1 = h_tbls h ∧ h_docs h1 = h_docs h ∧
    String.concat "" (Run_text h1 <$> rs) = text.
Proof.
  unfold new_runs_for. case_decide as Ht.
  - exists [], h. by subst.
  - eexists _, _. split; [reflexivity|]. simpl. split_and!; try done.
    + apply insert_subseteq, fresh_None.
    + unfold Run_text. simpl. by rewrite lookup_total_insert_eq.
Qed.

(** C4: for a document of [N] top-level paragraphs,
    [insert_paragraph_before] with an index outside [0, N) fails with
    the assertion on the index and changes nothing; with [0 <= i < N]
    it returns a new paragraph, which stands at index [i] of the [N+1]
    paragraphs, directly before the paragraph that was at index [i]. *)
Theorem insert_paragraph_before_index (docx_Document : string → M loc) (d : loc)
    (text : string) (i : Z) (style : option string) (h : heap) :
  let self := DocContent.mk (ObjDocument d) in
  let ps := Document_paragraphs h d in
  (¬ (0 ≤ i < Z.of_nat (length ps)) →
   DocContent.insert_paragraph_before docx_Document self text (inl i) style h
   = (h, inl (AssertionError "段落下标不合规"))) ∧
  (0 ≤ i < Z.of_nat (length ps) → NoDup ps →
   ∃ p h',
     let new := mkParagraphProxy p (InBody d) in
     DocContent.insert_paragraph_before docx_Document self text (inl i) style h
     = (h', inr new) ∧
     h_pars h !! p = None ∧
     Document_paragraphs h' d
     = take (Z.to_nat i) ps ++ new :: drop (Z.to_nat i) ps ∧
     length (Document_paragraphs h' d) = S (length ps) ∧
     Document_paragraphs h' d !! Z.to_nat i = Some new ∧
     Document_paragraphs h' d !! S (Z.to_nat i) = ps !! Z.to_nat i ∧
     Document_tables h' d = Document_tables h d ∧
     Paragraph_text h' new = text ∧
     h_runs h ⊆ h_runs h' ∧ h_pars h ⊆ h_pars h' ∧
     h_cells h' = h_cells h ∧ h_tbls h' = h_tbls h).
Proof.
  intros self ps. split.
  - intros Hi. unfold DocContent.insert_paragraph_before. simpl.
    unfold bind, ret, gets, lift. simpl.
    unfold DOCXElement.get_paragraph_by_index. simpl.
    fold ps.
    destruct ((0 <=? i) && (i <? Z.of_nat (length ps))) eqn:E; [|done].
    apply andb_true_iff in E. lia.
  - intros Hi Hnd.
    assert (Hlt : (Z.to_nat i < length ps)%nat) by lia.
    destruct (lookup_lt_is_Some_2 _ _ Hlt) as [q Hq].
    assert (Hpar : p_parent q = InBody d).
    { eapply Document_paragraphs_parent, list_elem_of_lookup_2, Hq. }
    destruct q as [pq par]. simpl in Hpar. subst par.
    destruct (new_runs_for_text text h)
      as (rs & h1 & Hnew & Hruns & Hpars & Hcells & Htbls & Hdocs & Htext).
    set (p := fresh (dom (h_pars h1))).
    set (h' := update_doc d
                 (λ e, mkDocument (insert_before (BlockP pq) (BlockP p) (body e)))
                 (set_pars <[p := mkParagraph rs style None]> h1)).
    assert (Heq : Document_paragraphs h' d
                  = take (Z.to_nat i) ps
                    ++ mkParagraphProxy p (InBody d) :: drop (Z.to_nat i) ps).
    { unfold Document_paragraphs at 1. simpl.
      rewrite lookup_total_insert_eq. simpl.
      rewrite Hdocs. fold (body_paragraph d).
      rewrite omap_insert_before.
      by apply insert_before_lookup. }
    assert (Htake : length (take (Z.to_nat i) ps) = Z.to_nat i)
      by (rewrite length_take; lia).
    exists p, h'.
    split_and!.
    + unfold DocContent.insert_paragraph_before. simpl.
      unfold bind at 1. unfold ret at 1. cbv iota beta.
      unfold bind at 1. unfold gets at 1. cbv iota beta.
      unfold bind at 1. unfold lift at 1.
      unfold DOCXElement.get_paragraph_by_index. simpl. fold ps.
      replace ((0 <=? i) && (i <? Z.of_nat (length ps))) with true
        by (symmetry; apply andb_true_iff; lia).
      rewrite (py_getitem_nat ps i _ (proj1 Hi) Hq). simpl.
      unfold Paragraph_insert_paragraph_before. simpl.
      unfold bind at 1. rewrite Hnew.
      reflexivity.
    + rewrite <- Hpars. apply fresh_None.
    + exact Heq.
    + rewrite Heq, length_app. simpl. rewrite length_take, length_drop. lia.
    + rewrite Heq, lookup_app_r by lia. by rewrite Htake, Nat.sub_diag.
    + rewrite Heq, lookup_app_r by lia. rewrite Htake.
      replace (S (Z.to_nat i) - Z.to_nat i)%nat with 1%nat by lia. simpl.
      rewrite lookup_drop. f_equal. lia.
    + unfold Document_tables. simpl. rewrite lookup_total_insert_eq. simpl.
      rewrite Hdocs. apply tables_insert_before.
    + unfold Paragraph_text, Paragraph_runs. simpl.
      rewrite lookup_total_insert_eq. simpl.
      exact Htext.
    + exact Hruns.
    + simpl. rewrite <- Hpars. apply insert_subseteq, fresh_None.
    + simpl. done.
    + simpl. done.
Qed.

(** ** Allocation of cells *)

Lemma cell_holds_text h c s : cell_holds h c s → Cell_text h c = s.
Proof.
  intros (p & r & Hc & Hp & Hr).
  unfold Cell_text, Cell_paragraphs, Paragraph_text, Paragraph_runs, Run_text.
  rewrite (lookup_total_correct _ _ _ Hc). simpl.
  rewrite (lookup_total_correct _ _ _ Hp). simpl.
  by rewrite (lookup_total_correct _ _ _ Hr).
Qed.

Lemma empty_cell_weaken h h' c :
  h_pars h ⊆ h_pars h' → h_cells h ⊆ h_cells h' → empty_cell h c → empty_cell h' c.
Proof.
  intros Hp Hc (p & H1 & H2). exists p.
  split; eapply lookup_weaken; eauto.
Qed.

Lemma allocates_new_tc : allocates (λ c, [c]) new_tc.
Proof.
  intros h. eexists _, _. split; [reflexivity|]. simpl.
  split_and!; try done.
  - apply NoDup_singleton.
  - apply Forall_singleton. split; [apply fresh_None|].
    eexists. split; [apply lookup_insert_eq|apply lookup_insert_eq].
  - apply insert_subseteq, fresh_None.
  - apply insert_subseteq, fresh_None.
Qed.

Lemma allocates_replicateM {A} (cells_of : A → list loc) (m : M A) (n : nat) :
  allocates cells_of m →
  allocates (λ xs, concat (cells_of <$> xs)) (replicateM n m).
Proof.
  intros Hm. induction n as [|n IH]; intros h.
  - exists [], h. split_and!; try done. apply NoDup_nil_2.
  - destruct (Hm h) as (a & h1 & Ha & Hnd1 & Hall1 & Hp1 & Hc1 & Hr1 & Ht1 & Hd1).
    destruct (IH h1) as (xs & h' & Hxs & Hnd & Hall & Hp & Hc & Hr & Ht & Hd).
    exists (a :: xs), h'. split_and!.
    + simpl. unfold bind at 1. rewrite Ha. unfold bind at 1. by rewrite Hxs.
    + rewrite fmap_cons, concat_cons. apply NoDup_app. split_and!; [done| |done].
      intros c Hc1' Hc2.
      rewrite Forall_forall in Hall1, Hall.
      destruct (Hall1 c Hc1') as [_ (p & Hcell & _)].
      destruct (Hall c Hc2) as [Hnone _]. congruence.
    + rewrite fmap_cons, concat_cons. apply Forall_app. split.
      * eapply Forall_impl; [exact Hall1|]. intros c [Hnone Hempty].
        split; [done|]. by eapply empty_cell_weaken.
      * eapply Forall_impl; [exact Hall|]. intros c [Hnone Hempty].
        split; [|done].
        destruct (h_cells h !! c) eqn:E; [|done].
        by rewrite (lookup_weaken _ _ _ _ E Hc1) in Hnone.
    + by etrans.
    + by etrans.
    + congruence.
    + congruence.
    + congruence.
Qed.

Lemma replicateM_length {A} (m : M A) (n : nat) h h' xs :
  replicateM n m h = (h', inr xs) → length xs = n.
Proof.
  revert h xs. induction n as [|n IH]; intros h xs; simpl.
  - by intros [= <- <-].
  - unfold bind at 1. destruct (m h) as [h1 [e|a]]; [done|].
    unfold bind at 1. destruct (replicateM n m h1) as [h2 [e|ys]] eqn:E; [done|].
    intros [= <- <-]. simpl. f_equal. by eapply IH.
Qed.

Lemma replicateM_Forall {A} (P : A → Prop) (m : M A) (n : nat) h h' xs :
  (∀ h h' a, m h = (h', inr a) → P a) →
  replicateM n m h = (h', inr xs) → Forall P xs.
Proof.
  intros Hm. revert h xs. induction n as [|n IH]; intros h xs; simpl.
  - by intros [= <- <-].
  - unfold bind at 1. destruct (m h) as [h1 [e|a]] eqn:Ea; [done|].
    unfold bind at 1. destruct (replicateM n m h1) as [h2 [e|ys]] eqn:E; [done|].
    intros [= <- <-]. constructor; [by eapply Hm|by eapply IH].
Qed.

Lemma concat_singletons {A} (xs : list A) : concat ((λ x, [x]) <$> xs) = xs.
Proof. induction xs as [|x xs IH]; [done|]. rewrite fmap_cons, concat_cons, IH. done. Qed.

(** A new row of [n] cells. *)
Lemma allocates_row (n : nat) : allocates id (replicateM n new_tc).
Proof.
  intros h. destruct (allocates_replicateM _ _ n allocates_new_tc h)
    as (cs & h' & Heq & Hrest).
  rewrite concat_singletons in Hrest. by exists cs, h'.
Qed.

(** A new grid of [rows] rows of [cols] cells. *)
Lemma allocates_grid (rows cols : nat) :
  allocates (λ grid, concat grid) (replicateM rows (replicateM cols new_tc)).
Proof.
  intros h. destruct (allocates_replicateM _ _ rows (allocates_row cols) h)
    as (grid & h' & Heq & Hrest).
  rewrite list_fmap_id in Hrest. by exists grid, h'.
Qed.

(** ** Appending rows (content.py) *)

(** C1: [DocContent.append_rows] appends no row.  Its first statement
    takes [len(table.rows[0])], and a row has no length: on a table
    with at least one row the call raises TypeError for every [data],
    on a table without rows IndexError, and in both cases the
    document is left as it was. *)
Theorem append_rows_raises (t : loc) (data : list string) (h : heap) :
  (tr_lst (h_tbls h !!! t) = [] →
     DocContent.append_rows t data h = (h, inl IndexError)) ∧
  (∀ row0 rest, tr_lst (h_tbls h !!! t) = row0 :: rest →
     DocContent.append_rows t data h = (h, inl TypeError)).
Proof.
  split.
  - intros Hrows. unfold DocContent.append_rows.
    erewrite bind_returns by reflexivity. cbv beta.
    erewrite bind_raises; [reflexivity|].
    unfold lift, Table_rows. by rewrite Hrows.
  - intros row0 rest Hrows. unfold DocContent.append_rows.
    erewrite bind_returns by reflexivity. cbv beta.
    erewrite bind_returns.
    2: { unfold lift. rewrite (py_getitem_nat _ 0 (mkRow t 0)); [reflexivity|done|].
         apply Table_rows_lookup. rewrite Hrows. simpl. lia. }
    by erewrite bind_raises.
Qed.

(** ** Building a table (content.py) *)

Lemma for_app {A} (xs ys : list A) (body : A → M unit) h :
  for_ (xs ++ ys) body h =
  match for_ xs body h with
  | (h1, inl e) => (h1, inl e)
  | (h1, inr _) => for_ ys body h1
  end.
Proof.
  revert h. induction xs as [|x xs IH]; intros h; [done|].
  rewrite <- app_comm_cons, !for_cons.
  destruct (body x h) as [h1 [e|[]]]; [done|]. apply IH.
Qed.

Lemma py_getitem_of_nat {A} (l : list A) (i : nat) (x : A) :
  l !! i = Some x → py_getitem l (Z.of_nat i) = inr x.
Proof. intros Hx. apply py_getitem_nat; [lia|]. by rewrite Nat2Z.id. Qed.

Lemma range_succ (n : nat) : range (Z.of_nat (S n)) = range (Z.of_nat n) ++ [Z.of_nat n].
Proof.
  unfold range. rewrite !Nat2Z.id. by rewrite seq_S, fmap_app.
Qed.

Lemma Cell_set_text_spec c s h :
  ∃ h', Cell_set_text c s h = (h', inr tt) ∧
    cell_holds h' c s ∧
    (∀ c', c' ≠ c → h_cells h' !! c' = h_cells h !! c') ∧
    h_runs h ⊆ h_runs h' ∧ h_pars h ⊆ h_pars h' ∧
    h_tbls h' = h_tbls h ∧ h_docs h' = h_docs h.
Proof.
  eexists. split; [reflexivity|]. simpl. split_and!; try done.
  - eexists _, _. split_and!; apply lookup_insert_eq.
  - intros c' Hne. by rewrite lookup_insert_ne.
  - apply insert_subseteq, fresh_None.
  - apply insert_subseteq, fresh_None.
Qed.

Lemma cell_holds_weaken h h' c s :
  h_runs h ⊆ h_runs h' → h_pars h ⊆ h_pars h' →
  h_cells h' !! c = h_cells h !! c →
  cell_holds h c s → cell_holds h' c s.
Proof.
  intros Hr Hp Hc (p & r & H1 & H2 & H3). exists p, r.
  split_and!; [congruence|by eapply lookup_weaken..].
Qed.

Lemma fill_cells_spec (cells : list loc) (data : list string) (n : nat) h :
  NoDup cells → (n ≤ length cells)%nat → (n ≤ length data)%nat →
  ∃ h', fill_cells cells data (Z.of_nat n) h = (h', inr tt) ∧
    (∀ i c s, (i < n)%nat → cells !! i = Some c → data !! i = Some s →
              cell_holds h' c s) ∧
    (∀ c, c ∉ take n cells → h_cells h' !! c = h_cells h !! c) ∧
    h_runs h ⊆ h_runs h' ∧ h_pars h ⊆ h_pars h' ∧
    h_tbls h' = h_tbls h ∧ h_docs h' = h_docs h.
Proof.
  intros Hnd. induction n as [|n IH]; intros Hcells Hdata.
  - exists h. split_and!; try done. intros; lia.
  - destruct IH as (h1 & Hfill & Hheld & Hother & Hr & Hp & Ht & Hd); [lia..|].
    destruct (lookup_lt_is_Some_2 cells n) as [c Hc]; [lia|].
    destruct (lookup_lt_is_Some_2 data n) as [s Hs]; [lia|].
    destruct (Cell_set_text_spec c s h1)
      as (h' & Hset & Hc' & Hother' & Hr' & Hp' & Ht' & Hd').
    exists h'. split_and!.
    + unfold fill_cells in *. rewrite range_succ, for_app, Hfill.
      rewrite for_cons. unfold bind at 1, lift at 1.
      rewrite (py_getitem_of_nat data n s) by done.
      unfold bind at 1, lift at 1.
      rewrite (py_getitem_of_nat cells n c) by done.
      by rewrite Hset.
    + intros i ci si Hi Hci Hsi.
      destruct (decide (i = n)) as [->|Hne].
      * by simplify_eq.
      * assert (ci ≠ c).
        { intros ->. apply Hne. by eapply NoDup_lookup. }
        eapply cell_holds_weaken; [done|done|by apply Hother'|].
        apply (Hheld i ci si); [lia|done..].
    + intros c' Hc'n.
      rewrite (take_S_r _ _ _ Hc) in Hc'n.
      apply not_elem_of_app in Hc'n as [Hc'1 Hc'2].
      rewrite Hother' by (intros ->; apply Hc'2; left).
      by apply Hother.
    + by etrans.
    + by etrans.
    + congruence.
    + congruence.
Qed.

Lemma length_concat_uniform {A} (ll : list (list A)) (n : nat) :
  Forall (λ l, length l = n) ll → length (concat ll) = (length ll * n)%nat.
Proof.
  induction 1 as [|l ll Hl _ IH]; [done|].
  simpl. rewrite length_app, IH, Hl. done.
Qed.

Lemma Document_add_table_spec d rows cols style h :
  ∃ grid h1,
    let t := fresh (dom (h_tbls h)) in
    Document_add_table d rows cols style h
    = (update_doc d (λ e, mkDocument (body e ++ [BlockT t]))
         (set_tbls <[t := mkTable (Z.to_nat cols) grid style]> h1), inr t) ∧
    length grid = Z.to_nat rows ∧
    Forall (λ row : list loc, length row = Z.to_nat cols) grid ∧
    NoDup (concat grid) ∧
    Forall (λ c, h_cells h !! c = None ∧ empty_cell h1 c) (concat grid) ∧
    h_pars h ⊆ h_pars h1 ∧ h_cells h ⊆ h_cells h1 ∧
    h_runs h1 = h_runs h ∧ h_tbls h1 = h_tbls h ∧ h_docs h1 = h_docs h.
Proof.
  destruct (allocates_grid (Z.to_nat rows) (Z.to_nat cols) h)
    as (grid & h1 & Heq & Hnd & Hall & Hp & Hc & Hr & Ht & Hd).
  exists grid, h1. split_and!; try done.
  - unfold Document_add_table. unfold bind at 1. rewrite Heq.
    unfold bind at 1, new_table. cbv iota beta zeta. rewrite Ht. reflexivity.
  - by eapply replicateM_length.
  - eapply replicateM_Forall; [|exact Heq].
    intros h0 h0' a Ha. by eapply replicateM_length.
Qed.

(** C2: [DocContent.add_table] fails with the first assertion when
    [rows <= 0] or [columns <= 0], with the second when
    [len(data) < rows * columns], and otherwise appends to the document
    a new table of [rows] rows and [columns] columns whose cells hold,
    in row-major order, the first [rows * columns] items of [data], and
    returns it; the elements that existed before are unchanged. *)
Theorem add_table_builds_grid (docx_Document : string → M loc) (d : loc)
    (rows columns : Z) (data : list string) (style : option string) (h : heap) :
  let self := DocContent.mk (ObjDocument d) in
  (rows ≤ 0 ∨ columns ≤ 0 →
   DocContent.add_table docx_Document self rows columns data style h
   = (h, inl (AssertionError "表格行数或列数不能小于或者等于0"))) ∧
  (0 < rows → 0 < columns → Z.of_nat (length data) < rows * columns →
   DocContent.add_table docx_Document self rows columns data style h
   = (h, inl (AssertionError "数据个数应该大于单元格个数"))) ∧
  (0 < rows → 0 < columns → rows * columns ≤ Z.of_nat (length data) →
   ∃ t h',
     DocContent.add_table docx_Document self rows columns data style h = (h', inr t) ∧
     h_tbls h !! t = None ∧
     body (h_docs h' !!! d) = body (h_docs h !!! d) ++ [BlockT t] ∧
     Document_tables h' d = Document_tables h d ++ [t] ∧
     Document_paragraphs h' d = Document_paragraphs h d ∧
     length (Table_rows h' t) = Z.to_nat rows ∧
     length (Table_columns h' t) = Z.to_nat columns ∧
     Forall (λ row : list loc, length row = Z.to_nat columns) (tr_lst (h_tbls h' !!! t)) ∧
     DOCXElement.get_cells_of_table h' (ETable t) = inr (Table__cells h' t) ∧
     length (Table__cells h' t) = Z.to_nat (rows * columns) ∧
     Cell_text h' <$> Table__cells h' t = take (Z.to_nat (rows * columns)) data ∧
     h_runs h ⊆ h_runs h' ∧ h_pars h ⊆ h_pars h' ∧ h_cells h ⊆ h_cells h' ∧
     (∀ t', t' ≠ t → h_tbls h' !! t' = h_tbls h !! t') ∧
     (∀ d', d' ≠ d → h_docs h' !! d' = h_docs h !! d')).
Proof.
  intros self. unfold DocContent.add_table. simpl. split_and!.
  - intros Hbad. unfold bind at 1.
    replace ((0 <? rows) && (0 <? columns)) with false; [done|].
    symmetry. apply andb_false_iff. lia.
  - intros Hr Hc Hdata. unfold bind at 1.
    replace ((0 <? rows) && (0 <? columns)) with true
      by (symmetry; apply andb_true_iff; lia).
    simpl. unfold bind at 1.
    replace (rows * columns <=? Z.of_nat (length data)) with false by lia. done.
  - intros Hr Hc Hdata.
    destruct (Document_add_table_spec d rows columns style h)
      as (grid & h1 & Hadd & Hlen & Hrowlen & Hnd & Hall & Hp1 & Hc1 & Hr1 & Ht1 & Hd1).
    set (t := fresh (dom (h_tbls h))) in *.
    set (h2 := update_doc d (λ e, mkDocument (body e ++ [BlockT t]))
                 (set_tbls <[t := mkTable (Z.to_nat columns) grid style]> h1)) in *.
    assert (Hcells2 : Table__cells h2 t = concat grid).
    { unfold Table__cells. simpl. by rewrite lookup_total_insert_eq. }
    assert (Hcount : length (concat grid) = Z.to_nat (rows * columns)).
    { rewrite (length_concat_uniform _ _ Hrowlen), Hlen. lia. }
    destruct (fill_cells_spec (concat grid) data (Z.to_nat (rows * columns)) h2)
      as (h' & Hfill & Hheld & Hother & Hr' & Hp' & Ht' & Hd'); [done|lia|lia|].
    rewrite Z2Nat.id in Hfill by lia.
    assert (Htbl : h_tbls h' !!! t = mkTable (Z.to_nat columns) grid style).
    { rewrite Ht'. simpl. by rewrite lookup_total_insert_eq. }
    assert (Hcells' : Table__cells h' t = concat grid).
    { unfold Table__cells. by rewrite Htbl. }
    assert (Hbody : body (h_docs h' !!! d) = body (h_docs h !!! d) ++ [BlockT t]).
    { rewrite Hd'. simpl. rewrite lookup_total_insert_eq. simpl. by rewrite Hd1. }
    exists t, h'. split_and!.
    + unfold bind at 1.
      replace ((0 <? rows) && (0 <? columns)) with true
        by (symmetry; apply andb_true_iff; lia).
      simpl. unfold bind at 1.
      replace (rows * columns <=? Z.of_nat (length data)) with true by lia.
      simpl. unfold bind at 1. rewrite Hadd.
      unfold bind at 1, ret at 1. cbv iota beta.
      unfold bind at 1, gets at 1. cbv iota beta.
      unfold bind at 1, lift at 1. simpl DOCXElement.get_cells_of_table.
      cbv iota beta. unfold id. rewrite Hcells2.
      unfold bind at 1. fold (fill_cells (concat grid) data (rows * columns)).
      by rewrite Hfill.
    + apply fresh_None.
    + exact Hbody.
    + unfold Document_tables. rewrite Hbody, omap_app. done.
    + unfold Document_paragraphs. rewrite Hbody, omap_app. simpl. by rewrite app_nil_r.
    + unfold Table_rows. rewrite length_fmap, length_seq, Htbl. done.
    + unfold Table_columns. rewrite length_fmap, length_seq, Htbl. done.
    + by rewrite Htbl.
    + done.
    + by rewrite Hcells'.
    + rewrite Hcells'. apply list_eq. intros i.
      rewrite list_lookup_fmap.
      destruct (decide (i < Z.to_nat (rows * columns))%nat) as [Hi|Hi].
      * destruct (lookup_lt_is_Some_2 (concat grid) i) as [c Hc']; [lia|].
        destruct (lookup_lt_is_Some_2 data i) as [s Hs]; [lia|].
        rewrite lookup_take_lt by done. rewrite Hc', Hs. simpl. f_equal.
        apply cell_holds_text. by eapply Hheld.
      * rewrite lookup_take_ge by lia.
        rewrite (proj2 (lookup_ge_None _ _)); [done|lia].
    + simpl in Hr'. by rewrite Hr1 in Hr'.
    + etrans; [exact Hp1|exact Hp'].
    + apply map_subseteq_spec. intros c x Hx.
      rewrite Hother.
      * simpl. by eapply lookup_weaken.
      * intros Hin. apply elem_of_take in Hin as (i & Hin & _).
        apply list_elem_of_lookup_2 in Hin.
        rewrite Forall_forall in Hall. destruct (Hall c Hin) as [Hnone _]. congruence.
    + intros t' Hne. rewrite Ht'. simpl. rewrite lookup_insert_ne by done. by rewrite Ht1.
    + intros d' Hne. rewrite Hd'. simpl. rewrite lookup_insert_ne by done. by rewrite Hd1.
Qed.

(** * Further properties of the helpers *)

(** ** Enumerations (part.py, element.py) *)

Lemma rows_by_index {A} (l : list (list A)) (k : nat) (pre : list (list A)) :
  length pre = k →
  (λ i : Z, default [] ((pre ++ l) !! Z.to_nat i)) <$> (Z.of_nat <$> seq k (length l)) = l.
Proof.
  revert k pre. induction l as [|x l IH]; intros k pre Hk; [done|].
  simpl. rewrite Nat2Z.id. f_equal.
  - rewrite lookup_app_r by lia. by rewrite Hk, Nat.sub_diag.
  - rewrite (cons_middle x pre l), app_assoc. apply IH.
    rewrite length_app. simpl. lia.
Qed.

Lemma get_cells_in_table_cells h t : part.get_cells_in_table h t = Table__cells h t.
Proof.
  unfold part.get_cells_in_table, part.get_table_row_length, Table_row_cells,
    Table__cells, Table_rows, range.
  rewrite length_fmap, length_seq, Nat2Z.id.
  rewrite (foldl_extend (λ i : Z, default [] (tr_lst (h_tbls h !!! t) !! Z.to_nat i))).
  simpl. f_equal. apply (rows_by_index _ 0%nat []). done.
Qed.

(** X1: [part.get_cells_in_table] returns the cells of a table row by
    row, and on a table the methods [get_cells_of_table] and
    [get_paragraphs_of_table] of [DOCXElement] return what the helpers
    of [part] return: the paragraphs of the cells, in cell order. *)
Theorem get_cells_in_table_row_major (h : heap) (t : loc) :
  part.get_cells_in_table h t = concat (tr_lst (h_tbls h !!! t)) ∧
  DOCXElement.get_cells_of_table h (ETable t) = inr (part.get_cells_in_table h t) ∧
  DOCXElement.get_paragraphs_of_table h (ETable t)
    = inr (part.get_paragraphs_in_table h t) ∧
  part.get_paragraphs_in_table h t
    = (c ← concat (tr_lst (h_tbls h !!! t)); Cell_paragraphs h c).
Proof.
  pose proof (get_cells_in_table_cells h t) as Hc. unfold Table__cells in Hc.
  split_and!.
  - exact Hc.
  - simpl. unfold Table__cells. by rewrite Hc.
  - unfold DOCXElement.get_paragraphs_of_table, part.get_paragraphs_in_table. simpl.
    unfold Table__cells, DOCXElement.get_paragraphs_of_cell. by rewrite Hc.
  - unfold part.get_paragraphs_in_table. rewrite Hc, foldl_extend. simpl.
    generalize (concat (tr_lst (h_tbls h !!! t))). intros cs.
    induction cs as [|c cs IH]; [done|].
    by rewrite fmap_cons, concat_cons, bind_cons, IH.
Qed.

Lemma concat_fmap_bind {A B} (f : A → list B) (l : list A) : concat (f <$> l) = l ≫= f.
Proof.
  induction l as [|x l IH]; [done|]. by rewrite fmap_cons, concat_cons, bind_cons, IH.
Qed.

Lemma foldl_extend_bind {A B} (f : A → list B) (acc : list B) (l : list A) :
  foldl (λ xs a, xs ++ f a) acc l = acc ++ (l ≫= f).
Proof. by rewrite foldl_extend, concat_fmap_bind. Qed.

Lemma length_bind_sum {A B} (f : A → list B) (l : list A) :
  length (l ≫= f) = sum_list ((λ x, length (f x)) <$> l).
Proof.
  induction l as [|x l IH]; [done|].
  rewrite bind_cons, length_app, IH. done.
Qed.

Lemma bind_bind_assoc {A B C} (f : A → list B) (g : B → list C) (l : list A) :
  (l ≫= f) ≫= g = l ≫= (λ x, f x ≫= g).
Proof.
  induction l as [|x l IH]; [done|].
  by rewrite !bind_cons, bind_app, IH.
Qed.

Lemma part_get_paragraphs_in_tables docx d h :
  part.get_paragraphs_in_tables docx (ObjDocument d) h = (h, inr (table_paragraphs h d)).
Proof.
  unfold part.get_paragraphs_in_tables, part.get_cells_in_tables, part.get_tables,
    part.opened, bind, ret, gets, lift. simpl. unfold id.
  do 2 f_equal. rewrite !foldl_extend_bind. simpl.
  unfold table_paragraphs. rewrite bind_bind_assoc.
  apply list_bind_ext; [|done]. intros t. by rewrite get_cells_in_table_cells.
Qed.

Lemma part_get_paragraphs docx d h :
  part.get_paragraphs docx (ObjDocument d) h = (h, inr (Document_paragraphs h d)).
Proof. done. Qed.

(** X2: on a Document, [part.get_all_paragraphs] leaves the document
    as it is and returns the top-level paragraphs followed by the
    paragraphs of the tables (table, cell, paragraph order); their
    number is the number of top-level paragraphs plus the numbers of
    paragraphs of all the cells. *)
Theorem get_all_paragraphs_order (docx_Document : string → M loc) (d : loc) (h : heap) :
  ∃ ps,
    part.get_all_paragraphs docx_Document (ObjDocument d) h = (h, inr ps) ∧
    ps = Document_paragraphs h d ++ table_paragraphs h d ∧
    length ps
    = (length (Document_paragraphs h d)
       + sum_list ((λ t, sum_list ((λ c, length (Cell_paragraphs h c))
                                     <$> Table__cells h t))
                   <$> Document_tables h d))%nat.
Proof.
  eexists. split_and!; [|reflexivity|].
  - unfold part.get_all_paragraphs. unfold bind at 1.
    rewrite part_get_paragraphs. unfold bind at 1.
    rewrite part_get_paragraphs_in_tables. reflexivity.
  - rewrite length_app. f_equal. unfold table_paragraphs.
    rewrite length_bind_sum. f_equal. apply list_fmap_ext. intros _ t _.
    apply length_bind_sum.
Qed.

Lemma part_get_all_paragraphs docx d h :
  part.get_all_paragraphs docx (ObjDocument d) h
  = (h, inr (Document_paragraphs h d ++ table_paragraphs h d)).
Proof.
  unfold part.get_all_paragraphs. unfold bind at 1.
  rewrite part_get_paragraphs. unfold bind at 1.
  by rewrite part_get_paragraphs_in_tables.
Qed.

(** X3: on a Document, the runs [part.get_all_runs] returns are the
    runs of [get_runs_in_paragraphs] followed by the runs of
    [get_runs_in_tables]; none of the three changes the document. *)
Theorem get_all_runs_splits (docx_Document : string → M loc) (d : loc) (h : heap) :
  ∃ rp rt,
    part.get_runs_in_paragraphs docx_Document (ObjDocument d) h = (h, inr rp) ∧
    part.get_runs_in_tables docx_Document (ObjDocument d) h = (h, inr rt) ∧
    part.get_all_runs docx_Document (ObjDocument d) h = (h, inr (rp ++ rt)) ∧
    rp = (p ← Document_paragraphs h d; Paragraph_runs h p) ∧
    rt = (p ← table_paragraphs h d; Paragraph_runs h p).
Proof.
  eexists _, _. split_and!; [| | |reflexivity..].
  - unfold part.get_runs_in_paragraphs. unfold bind at 1.
    rewrite part_get_paragraphs. unfold gets. by rewrite foldl_extend_bind.
  - unfold part.get_runs_in_tables. unfold bind at 1.
    rewrite part_get_paragraphs_in_tables. unfold gets. by rewrite foldl_extend_bind.
  - unfold part.get_all_runs. unfold bind at 1.
    rewrite part_get_all_paragraphs. unfold gets.
    by rewrite foldl_extend_bind, bind_app.
Qed.

Lemma element_table_paragraphs h (ts : list loc) (acc : list Paragraph) :
  foldl (λ acc table,
           paragraphs <-? acc ;;
           qs <-? DOCXElement.get_paragraphs_of_table h (ETable table) ;;
           inr (paragraphs ++ qs)) (inr acc) ts
  = inr (acc ++ (t ← ts; c ← Table__cells h t; Cell_paragraphs h c)).
Proof.
  revert acc. induction ts as [|t ts IH]; intros acc.
  - simpl. by rewrite app_nil_r.
  - assert (Hstep :
      (paragraphs <-? inr acc ;;
       qs <-? DOCXElement.get_paragraphs_of_table h (ETable t) ;;
       inr (paragraphs ++ qs))
      = inr (acc ++ (Table__cells h t ≫= Cell_paragraphs h))).
    { unfold DOCXElement.get_paragraphs_of_table, DOCXElement.get_paragraphs_of_cell.
      simpl. by rewrite foldl_extend_bind. }
    cbn [foldl]. rewrite Hstep, IH, bind_cons, app_assoc. done.
Qed.

(** X4: on a Document, [DOCXElement.get_all_runs] returns the runs
    [part.get_all_runs] returns; of the attributes of the facade only
    [paragraphs] is assigned, and it receives the top-level paragraphs,
    not all the paragraphs that were collected. *)
Theorem DOCXElement_get_all_runs_agrees (docx_Document : string → M loc)
    (self : DOCXElement.instance) (d : loc) (h : heap) :
  DOCXElement.doc self = ObjDocument d →
  ∃ rs,
    part.get_all_runs docx_Document (ObjDocument d) h = (h, inr rs) ∧
    DOCXElement.get_all_runs h self
    = inr (DOCXElement.mk (ObjDocument d) (Some (Document_paragraphs h d))
             (DOCXElement.tables self) (DOCXElement.runs self), rs) ∧
    DOCXElement.get_all_paragraphs h self
    = inr (DOCXElement.mk (ObjDocument d) (Some (Document_paragraphs h d))
             (DOCXElement.tables self) (DOCXElement.runs self),
           Document_paragraphs h d ++ table_paragraphs h d).
Proof.
  intros Hdoc.
  assert (Hps : DOCXElement.get_all_paragraphs h self
    = inr (DOCXElement.mk (ObjDocument d) (Some (Document_paragraphs h d))
             (DOCXElement.tables self) (DOCXElement.runs self),
           Document_paragraphs h d ++ table_paragraphs h d)).
  { unfold DOCXElement.get_all_paragraphs, DOCXElement.get_paragraphs_of_document,
      DOCXElement.get_tables_of_document.
    rewrite Hdoc.
    cbn [getattr_paragraphs getattr_tables rbind fst snd DOCXElement.doc
         DOCXElement.tables DOCXElement.runs app].
    rewrite element_table_paragraphs. reflexivity. }
  eexists. split_and!; [|unfold DOCXElement.get_all_runs; rewrite Hps; reflexivity|exact Hps].
  unfold part.get_all_runs. unfold bind at 1.
  rewrite part_get_all_paragraphs. reflexivity.
Qed.

(** ** Tables, rows and columns by index (element.py) *)

(** X5: [DOCXElement.__init__] sets [tables] to [None] and no method
    assigns it, so on a Document [get_table] with an index never
    returns a table: with [index >= 0] the length of [None] is taken
    (TypeError), with a negative index the assertion fails; a table
    passed as an object is returned as it is. *)
Theorem get_table_by_index_never_returns (docx_Document : string → M loc)
    (file : pyobj) (index : Z) (h : heap) :
  ∀ h' self,
    DOCXElement.__init__ docx_Document file h = (h', inr self) →
    DOCXElement.tables self = None ∧
    (∀ d, DOCXElement.doc self = ObjDocument d →
       DOCXElement.get_table h' self (inl index)
       = inl (if 0 <=? index then TypeError else AssertionError "表格下标不合格")) ∧
    (∀ r, DOCXElement.get_table h' self (inl index) ≠ inr r) ∧
    (∀ t, DOCXElement.get_table h' self (inr t) = inr (self, t)).
Proof.
  intros h' self Hinit.
  assert (Htables : DOCXElement.tables self = None).
  { unfold DOCXElement.__init__ in Hinit. destruct file; simpl in Hinit.
    - unfold bind in Hinit. destruct (docx_Document s h) as [h1 [e|d]]; [done|].
      by injection Hinit as _ <-.
    - by injection Hinit as _ <-.
    - by injection Hinit as _ <-.
    - by injection Hinit as _ <-. }
  split_and!; [done| | |done].
  - intros d Hd. unfold DOCXElement.get_table, DOCXElement.get_table_by_index,
      DOCXElement.get_tables_of_document.
    rewrite Htables, Hd. simpl. by destruct (0 <=? index).
  - intros r. unfold DOCXElement.get_table, DOCXElement.get_table_by_index.
    rewrite Htables.
    destruct (DOCXElement.get_tables_of_document h' self) as [e|ts]; simpl; [done|].
    by destruct (0 <=? index).
Qed.

Lemma py_getitem_spec {A} (l : list A) (i : Z) :
  let n := Z.of_nat (length l) in
  (0 ≤ i < n → py_getitem l i = from_option inr (inl IndexError) (l !! Z.to_nat i)) ∧
  (- n ≤ i < 0 →
     py_getitem l i = from_option inr (inl IndexError) (l !! Z.to_nat (n + i))) ∧
  (¬ (- n ≤ i < n) → py_getitem l i = inl IndexError).
Proof.
  intros n. unfold py_getitem. fold n. split_and!; intros Hi.
  - destruct (i <? 0) eqn:E; [lia|].
    replace ((0 <=? i) && (i <? n)) with true by (symmetry; apply andb_true_iff; lia).
    by destruct (l !! Z.to_nat i).
  - destruct (i <? 0) eqn:E; [|lia].
    replace ((0 <=? i + n) && (i + n <? n)) with true
      by (symmetry; apply andb_true_iff; lia).
    rewrite (Z.add_comm i n). by destruct (l !! Z.to_nat (n + i)).
  - destruct (i <? 0) eqn:E.
    + replace ((0 <=? i + n) && (i + n <? n)) with false; [done|].
      symmetry. apply andb_false_iff. lia.
    + replace ((0 <=? i) && (i <? n)) with false; [done|].
      symmetry. apply andb_false_iff. lia.
Qed.

(** X6: [DOCXElement.get_row_of_table_by_index] indexes the rows as a
    Python list: [0 <= i < n] gives row [i], [-n <= i < 0] gives row
    [n + i], anything else IndexError.  Index 0 of a table with rows
    is accepted, where [part.get_row_in_table] fails; whenever the
    helper of [part] returns a row, the method returns the same row. *)
Theorem get_row_of_table_by_index_bounds (h : heap) (t : loc) (i : Z) :
  let n := part.get_table_row_length h t in
  (0 ≤ i < n →
     DOCXElement.get_row_of_table_by_index h t i = inr (mkRow t (Z.to_nat i))) ∧
  (- n ≤ i < 0 →
     DOCXElement.get_row_of_table_by_index h t i = inr (mkRow t (Z.to_nat (n + i)))) ∧
  (¬ (- n ≤ i < n) → DOCXElement.get_row_of_table_by_index h t i = inl IndexError) ∧
  (0 < n →
     DOCXElement.get_row_of_table_by_index h t 0 = inr (mkRow t 0) ∧
     part.get_row_in_table h t 0 = inl (AssertionError "row_index out of range")) ∧
  (∀ r, part.get_row_in_table h t i = inr r →
        DOCXElement.get_row_of_table_by_index h t i = inr r).
Proof.
  intros n. subst n. unfold part.get_table_row_length.
  unfold DOCXElement.get_row_of_table_by_index, DOCXElement.get_rows_of_table.
  destruct (py_getitem_spec (Table_rows h t) i) as (Hpos & Hneg & Hout).
  assert (Hlen : length (Table_rows h t) = length (tr_lst (h_tbls h !!! t))).
  { unfold Table_rows. by rewrite length_fmap, length_seq. }
  split_and!.
  - intros Hi. rewrite Hpos by done.
    rewrite Table_rows_lookup by lia. done.
  - intros Hi. rewrite Hneg by done.
    rewrite Table_rows_lookup by lia. done.
  - exact Hout.
  - intros Hn. split; [|done].
    destruct (py_getitem_spec (Table_rows h t) 0) as (Hpos0 & _).
    rewrite Hpos0 by lia. rewrite Table_rows_lookup by lia. done.
  - intros r. unfold part.get_row_in_table.
    destruct ((0 <? i) && _); [done|discriminate].
Qed.

(** ** Adding paragraphs through the DocDecorate facade (doc_decorate.py) *)

Lemma preserves_for_in (R : relation heap) `{!PreOrder R} {A} (xs : list A)
    (body : A → M unit) :
  (∀ x, x ∈ xs → preserves R (body x)) → preserves R (for_ xs body).
Proof.
  induction xs as [|x xs IH]; intros Hbody; simpl.
  - by apply preserves_ret.
  - apply preserves_bind; [done| |intros _].
    + apply Hbody. left.
    + apply IH. intros y Hy. apply Hbody. by right.
Qed.

Lemma replace_uncached (self : DocDecorate.instance) (context : dict) (r : loc) :
  r ∉ DocDecorate.runs self →
  preserves (same_on (λ h, h_runs h !! r)) (DocDecorate.replace self context).
Proof.
  intros Hr. unfold DocDecorate.replace.
  apply preserves_for_in; [apply _|]. intros run Hrun.
  assert (Hne : r ≠ run) by (intros ->; done).
  unfold Run_set_text. preserves_steps. simpl. by rewrite lookup_insert_ne.
Qed.

Lemma Document_add_paragraph_appends d text style h :
  ∃ p h',
    let new := mkParagraphProxy p (InBody d) in
    Document_add_paragraph d text style h = (h', inr new) ∧
    h_pars h !! p = None ∧
    body (h_docs h' !!! d) = body (h_docs h !!! d) ++ [BlockP p] ∧
    Document_paragraphs h' d = Document_paragraphs h d ++ [new] ∧
    Document_tables h' d = Document_tables h d ∧
    Paragraph_text h' new = text ∧
    Forall (λ r, h_runs h !! r = None) (Paragraph_runs h' new) ∧
    h_runs h ⊆ h_runs h' ∧ h_pars h ⊆ h_pars h' ∧
    h_cells h' = h_cells h ∧ h_tbls h' = h_tbls h ∧
    (∀ d', d' ≠ d → h_docs h' !! d' = h_docs h !! d').
Proof.
  destruct (Document_add_paragraph_eq d text style h) as (rs & h1 & Hrs & Heq).
  destruct (new_runs_for_text text h)
    as (rs' & h1' & Hnew & Hruns & Hpars & Hcells & Htbls & Hdocs & Htext).
  rewrite Hrs in Hnew. injection Hnew as <- <-.
  eexists _, _. split; [exact Heq|].
  assert (Hbody : body (h_docs (update_doc d
            (λ e, mkDocument (body e ++ [BlockP (fresh (dom (h_pars h1)))]))
            (set_pars <[fresh (dom (h_pars h1)) := mkParagraph rs style None]> h1)) !!! d)
          = body (h_docs h !!! d) ++ [BlockP (fresh (dom (h_pars h1)))]).
  { simpl. rewrite lookup_total_insert_eq. simpl. by rewrite Hdocs. }
  split_and!.
  - rewrite <- Hpars. apply fresh_None.
  - exact Hbody.
  - unfold Document_paragraphs. rewrite Hbody, omap_app. done.
  - unfold Document_tables. rewrite Hbody, omap_app. simpl. by rewrite app_nil_r.
  - unfold Paragraph_text, Paragraph_runs. simpl. rewrite lookup_total_insert_eq. done.
  - unfold Paragraph_runs. simpl. rewrite lookup_total_insert_eq. simpl.
    unfold new_runs_for in Hrs. case_decide.
    + injection Hrs as <- <-. constructor.
    + unfold bind, new_run, ret in Hrs. injection Hrs as <- <-.
      repeat constructor. apply fresh_None.
  - exact Hruns.
  - simpl. rewrite <- Hpars. apply insert_subseteq, fresh_None.
  - done.
  - done.
  - intros d' Hne. simpl. rewrite lookup_insert_ne by done. by rewrite Hdocs.
Qed.

(** X7: [DocDecorate.add_paragraph] without a flag ([None] or the
    empty string) appends the paragraph to the document and refreshes
    the cached paragraphs but not the cached runs: the runs of the new
    paragraph are not in the cache, and a later [replace] leaves their
    text as it is. *)
Theorem add_paragraph_leaves_run_cache (docx_Document : string → M loc)
    (self : DocDecorate.instance) (d : loc) (content flag : option string) (h : heap) :
  DocDecorate.doc self = ObjDocument d →
  (flag = None ∨ flag = Some "") →
  ∃ p h',
    let new := mkParagraphProxy p (InBody d) in
    let self' := doc_decorate.with_paragraphs (Document_paragraphs h' d) self in
    doc_decorate.add_paragraph docx_Document self content flag h
      = (h', inr (self', Some new)) ∧
    Document_paragraphs h' d = Document_paragraphs h d ++ [new] ∧
    DocDecorate.paragraphs self' = Document_paragraphs h' d ∧
    DocDecorate.runs self' = DocDecorate.runs self ∧
    Paragraph_text h' new = default "" content ∧
    (Forall (λ r, is_Some (h_runs h !! r)) (DocDecorate.runs self) →
     ∀ r, r ∈ Paragraph_runs h' new →
       (r ∉ DocDecorate.runs self') ∧
       (∀ context, Run_text (DocDecorate.replace self' context h').1 r = Run_text h' r)).
Proof.
  intros Hdoc Hflag.
  destruct (Document_add_paragraph_appends d (default "" content) None h)
    as (p & h' & Hadd & _ & _ & Hps & _ & Htext & Hfresh & _).
  exists p, h'. cbv zeta. split_and!; try done.
  - assert (Hgo : doc_decorate.add_paragraph docx_Document self content flag h
      = (new_p <- doc_decorate.doc_add_paragraph (DocDecorate.doc self) content ;;
         ps <- part.get_paragraphs docx_Document (DocDecorate.doc self) ;;
         ret (doc_decorate.with_paragraphs ps self, Some new_p)) h).
    { by destruct Hflag as [->| ->]. }
    rewrite Hgo, Hdoc. unfold doc_decorate.doc_add_paragraph. simpl.
    unfold bind at 1. rewrite Hadd. reflexivity.
  - intros Hcache r Hr.
    assert (Hnotin : r ∉ DocDecorate.runs self).
    { intros Hin. rewrite Forall_forall in Hcache, Hfresh.
      destruct (Hcache r Hin) as [x Hx]. rewrite (Hfresh r Hr) in Hx. done. }
    split; [exact Hnotin|]. intros context.
    pose proof (replace_uncached
      (doc_decorate.with_paragraphs (Document_paragraphs h' d) self) context r Hnotin h')
      as Hsame.
    unfold same_on in Hsame. unfold Run_text, lookup_total, map_lookup_total.
    by rewrite Hsame.
Qed.

Lemma add_paragraph_loop_skip docx pre todo self content flag h :
  Forall (λ q, Paragraph_text h q ≠ flag) pre →
  doc_decorate.add_paragraph_loop docx (pre ++ todo) self content flag h
  = doc_decorate.add_paragraph_loop docx todo self content flag h.
Proof.
  induction 1 as [|q pre Hq _ IH]; [done|].
  simpl. unfold bind at 1, gets at 1. cbv iota beta.
  rewrite decide_False by (intros ->; done). exact IH.
Qed.

(** X8: [DocDecorate.add_paragraph] with a non-empty flag returns
    [None] and changes nothing when no cached paragraph has the flag
    as its text; otherwise the new paragraph is inserted directly
    before the first paragraph whose text is the flag, and the cached
    paragraphs are refreshed. *)
Theorem add_paragraph_before_flag (docx_Document : string → M loc)
    (self : DocDecorate.instance) (d : loc) (content : option string) (flag : string)
    (h : heap) :
  flag ≠ "" →
  (Forall (λ q, Paragraph_text h q ≠ flag) (DocDecorate.paragraphs self) →
   doc_decorate.add_paragraph docx_Document self content (Some flag) h
   = (h, inr (self, None))) ∧
  (∀ pre q post,
     DocDecorate.doc self = ObjDocument d →
     DocDecorate.paragraphs self = Document_paragraphs h d →
     NoDup (Document_paragraphs h d) →
     Document_paragraphs h d = pre ++ q :: post →
     Forall (λ q, Paragraph_text h q ≠ flag) pre →
     Paragraph_text h q = flag →
     ∃ p h',
       let new := mkParagraphProxy p (InBody d) in
       doc_decorate.add_paragraph docx_Document self content (Some flag) h
       = (h', inr (doc_decorate.with_paragraphs (Document_paragraphs h' d) self,
                   Some new)) ∧
       h_pars h !! p = None ∧
       Document_paragraphs h' d = pre ++ new :: q :: post ∧
       Paragraph_text h' new = default "" content ∧
       Document_tables h' d = Document_tables h d ∧
       h_runs h ⊆ h_runs h' ∧ h_pars h ⊆ h_pars h').
Proof.
  intros Hflag.
  assert (Hgo : doc_decorate.add_paragraph docx_Document self content (Some flag) h
    = doc_decorate.add_paragraph_loop docx_Document (DocDecorate.paragraphs self)
        self content flag h).
  { destruct flag; [done|reflexivity]. }
  rewrite Hgo. clear Hgo. split.
  - intros Hall. rewrite <- (app_nil_r (DocDecorate.paragraphs self)).
    by rewrite add_paragraph_loop_skip.
  - intros pre q post Hdoc Hcache Hnd Hsplit Hpre Hq.
    assert (Hpar : p_parent q = InBody d).
    { eapply Document_paragraphs_parent. rewrite Hsplit.
      apply elem_of_app. right. left. }
    destruct q as [pq par]. simpl in Hpar. subst par.
    destruct (new_runs_for_text (default "" content) h)
      as (rs & h1 & Hnew & Hruns & Hpars & Hcells & Htbls & Hdocs & Htext).
    set (p := fresh (dom (h_pars h1))).
    set (h' := update_doc d
                 (λ e, mkDocument (insert_before (BlockP pq) (BlockP p) (body e)))
                 (set_pars <[p := mkParagraph rs None None]> h1)).
    assert (Hlookup : Document_paragraphs h d !! length pre
                      = Some (mkParagraphProxy pq (InBody d))).
    { rewrite Hsplit. by rewrite list_lookup_middle. }
    assert (Heq : Document_paragraphs h' d
                  = pre ++ mkParagraphProxy p (InBody d)
                        :: mkParagraphProxy pq (InBody d) :: post).
    { unfold Document_paragraphs at 1. simpl.
      rewrite lookup_total_insert_eq. simpl. rewrite Hdocs.
      rewrite omap_insert_before.
      fold (Document_paragraphs h d).
      rewrite (insert_before_lookup _ _ _ (length pre) Hnd Hlookup).
      rewrite Hsplit, take_app_length, drop_app_length. done. }
    exists p, h'. cbv zeta. split_and!.
    + rewrite Hcache, Hsplit, add_paragraph_loop_skip by done.
      simpl. unfold bind at 1, gets at 1. cbv iota beta.
      rewrite decide_True by done.
      unfold Paragraph_insert_paragraph_before. simpl.
      unfold bind at 1. unfold bind at 1. rewrite Hnew.
      rewrite Hdoc. reflexivity.
    + rewrite <- Hpars. apply fresh_None.
    + exact Heq.
    + unfold Paragraph_text, Paragraph_runs. simpl.
      rewrite lookup_total_insert_eq. simpl. exact Htext.
    + unfold Document_tables. simpl. rewrite lookup_total_insert_eq. simpl.
      rewrite Hdocs. apply tables_insert_before.
    + exact Hruns.
    + simpl. rewrite <- Hpars. apply insert_subseteq, fresh_None.
Qed.

(** ** Loops that set the same attributes on every element *)

#[global] Instance keeps_preorder (P : heap → Prop) : PreOrder (keeps P).
Proof.
  split; [intros h Hh; exact Hh|].
  intros x y z Hxy Hyz Hx. apply Hyz, Hxy, Hx.
Qed.

(** A loop whose body, at [x], returns and establishes [P x], and at
    any element keeps every [P x] already established. *)
Lemma for_establishes {A} (body : A → M unit) (P : A → heap → Prop) (xs : list A) :
  (∀ x, x ∈ xs → ∀ h, (body x h).2 = inr tt ∧ P x (body x h).1) →
  (∀ x y, x ∈ xs → y ∈ xs → preserves (keeps (P x)) (body y)) →
  ∀ h, (for_ xs body h).2 = inr tt ∧ ∀ x, x ∈ xs → P x (for_ xs body h).1.
Proof.
  induction xs as [|y ys IH]; intros Hest Hkeep h.
  - split; [done|]. intros x Hx. by apply elem_of_nil in Hx.
  - rewrite for_cons. destruct (Hest y (list_elem_of_here _ _) h) as [Hret HP].
    destruct (body y h) as [h1 r]. simpl in Hret, HP. subst r.
    destruct (IH (λ x Hx, Hest x (list_elem_of_further _ _ _ Hx))
                 (λ x z Hx Hz, Hkeep x z (list_elem_of_further _ _ _ Hx)
                                         (list_elem_of_further _ _ _ Hz)) h1)
      as [Hret' Hall].
    split; [done|]. intros x Hx. apply elem_of_cons in Hx as [->|Hx]; [|by apply Hall].
    assert (Hk : preserves (keeps (P y)) (for_ ys body)).
    { apply preserves_for_in; [apply _|]. intros z Hz.
      apply Hkeep; [left|by right]. }
    by apply (Hk h1).
Qed.

(** Two loop bodies that agree on the heaps of an invariant the
    second keeps. *)
Lemma for_ext_inv {A} (I : heap → Prop) (body1 body2 : A → M unit) (xs : list A) h :
  (∀ x h1, I h1 → body1 x h1 = body2 x h1) →
  (∀ x h1, I h1 → I (body2 x h1).1) →
  I h → for_ xs body1 h = for_ xs body2 h.
Proof.
  intros Heq Hinv. revert h. induction xs as [|x xs IH]; intros h Hh; [done|].
  rewrite !for_cons, (Heq x h Hh). specialize (Hinv x h Hh).
  destruct (body2 x h) as [h1 [e|[]]]; [done|]. by apply IH.
Qed.

(** ** Alignment of the content of tables, rows and columns (doc_decorate.py) *)

Lemma Paragraph_set_alignment_valid p a h :
  (∀ v, a = Some v → v ∈ WD_PARAGRAPH_ALIGNMENT) →
  Paragraph_set_alignment p a h
  = (update_par (p_elem p) (with_jc (Some <$> a)) h, inr tt).
Proof.
  intros Ha. destruct a as [v|]; [|done].
  unfold Paragraph_set_alignment. erewrite bind_returns by reflexivity.
  rewrite bool_decide_eq_true_2 by (by apply Ha).
  unfold modify, update_par, set_pars. simpl. do 2 f_equal.
  rewrite lookup_total_insert_eq, insert_insert_eq. f_equal.
  unfold get_or_add_jc. by destruct (p_alignment _).
Qed.

Lemma Paragraph_set_alignment_invalid p v h :
  v ∉ WD_PARAGRAPH_ALIGNMENT →
  Paragraph_set_alignment p (Some v) h
  = (update_par (p_elem p) get_or_add_jc h,
     inl (ValueError (pretty v +:+ " is not a valid WD_PARAGRAPH_ALIGNMENT"))).
Proof.
  intros Hv. unfold Paragraph_set_alignment. erewrite bind_returns by reflexivity.
  by rewrite bool_decide_eq_false_2.
Qed.

Lemma Paragraph_set_alignment_cells p a :
  preserves (same_on h_cells) (Paragraph_set_alignment p a).
Proof. unfold Paragraph_set_alignment. by preserves_steps. Qed.

Lemma align_loop (ps : list Paragraph) (a : option Z) (h : heap) :
  (∀ v, a = Some v → v ∈ WD_PARAGRAPH_ALIGNMENT) →
  ∃ h', for_ ps (λ p, doc_decorate.set_paragraph_align p a) h = (h', inr tt) ∧
        aligned ps a h h'.
Proof.
  intros Ha.
  pose (body := λ p : Paragraph, modify (update_par (p_elem p) (with_jc (Some <$> a)))).
  rewrite (for_ext_inv (λ _, True) _ body) by
    (done || (intros p h0 _; by apply Paragraph_set_alignment_valid)).
  assert (Hest : ∀ p, p ∈ ps → ∀ h0,
            (body p h0).2 = inr tt ∧
            p_alignment (h_pars (body p h0).1 !!! p_elem p) = Some <$> a).
  { intros p _ h0. split; [done|]. simpl. by rewrite lookup_total_insert_eq. }
  assert (Hkeep : ∀ p q, p ∈ ps → q ∈ ps →
            preserves (keeps (λ h0, p_alignment (h_pars h0 !!! p_elem p) = Some <$> a))
              (body q)).
  { intros p q _ _ h0 Hp. simpl.
    destruct (decide (p_elem q = p_elem p)) as [->|Hne].
    - by rewrite lookup_total_insert_eq.
    - by rewrite lookup_total_insert_ne. }
  destruct (for_establishes body _ ps Hest Hkeep h) as [Hret Hall].
  destruct (for_ ps body h) as [h' r] eqn:E. simpl in Hret, Hall. subst r.
  exists h'. split; [done|].
  assert (Hframe : ∀ {B} (g : heap → B),
            (∀ q f h0, f = with_jc (Some <$> a) → q ∈ p_elem <$> ps →
                       g (update_par q f h0) = g h0) → g h' = g h).
  { intros B g Hg.
    assert (Hp : preserves (same_on g) (for_ ps body)).
    { apply preserves_for_in; [apply _|]. intros x Hx.
      apply preserves_modify. intros h0. apply Hg; [done|].
      apply list_elem_of_fmap. by exists x. }
    specialize (Hp h). by rewrite E in Hp. }
  split_and!; try done.
  - intros q. split.
    + apply (Hframe _ (λ h0, p_runs (h_pars h0 !!! q))). intros q' f h0 -> _. simpl.
      destruct (decide (q' = q)) as [->|Hne].
      * by rewrite lookup_total_insert_eq.
      * by rewrite lookup_total_insert_ne.
    + apply (Hframe _ (λ h0, p_style (h_pars h0 !!! q))). intros q' f h0 -> _. simpl.
      destruct (decide (q' = q)) as [->|Hne].
      * by rewrite lookup_total_insert_eq.
      * by rewrite lookup_total_insert_ne.
  - intros q Hq. apply (Hframe _ (λ h0, h_pars h0 !! q)). intros q' f h0 _ Hq'. simpl.
    apply lookup_insert_ne. by intros ->.
  - by apply (Hframe _ h_runs).
  - by apply (Hframe _ h_cells).
  - by apply (Hframe _ h_tbls).
  - by apply (Hframe _ h_docs).
Qed.

(** A loop that assigns a value outside the enumeration stops at the
    first paragraph. *)
Lemma align_loop_rejected {A} (ps : list Paragraph) (v : Z) (x : A) (h : heap) :
  v ∉ WD_PARAGRAPH_ALIGNMENT →
  alignment_rejected ps v h x
    ((for_ ps (λ p, doc_decorate.set_paragraph_align p (Some v)) ;;; ret x) h).
Proof.
  intros Hv. split.
  - by intros ->.
  - intros p rest ->. erewrite bind_raises; [reflexivity|].
    rewrite for_cons. unfold doc_decorate.set_paragraph_align at 1.
    by rewrite Paragraph_set_alignment_invalid.
Qed.

(** The loop over the cells of a row or column and, inside, over the
    paragraphs of each cell visits the paragraphs of the cells in
    order, as long as the body does not touch the cells. *)
Lemma for_cells_paragraphs (cells : list loc) (body : Paragraph → M unit) (h : heap) :
  (∀ p, preserves (same_on h_cells) (body p)) →
  for_ cells (λ cell, paragraphs <- gets (λ h, Cell_paragraphs h cell) ;;
                      for_ paragraphs body) h
  = for_ (c ← cells; Cell_paragraphs h c) body h.
Proof.
  intros Hbody. revert h.
  assert (Hgen : ∀ h0 h, h_cells h = h_cells h0 →
    for_ cells (λ cell, paragraphs <- gets (λ h, Cell_paragraphs h cell) ;;
                        for_ paragraphs body) h
    = for_ (c ← cells; Cell_paragraphs h0 c) body h); [|by intros h; apply Hgen].
  intros h0. induction cells as [|c cs IH]; intros h Hh; [done|].
  rewrite for_cons, bind_cons, for_app.
  unfold bind at 1, gets at 1. cbv iota beta.
  replace (Cell_paragraphs h c) with (Cell_paragraphs h0 c)
    by (unfold Cell_paragraphs; by rewrite Hh).
  pose proof (preserves_for (same_on h_cells) (Cell_paragraphs h0 c) body Hbody h) as Hc.
  destruct (for_ (Cell_paragraphs h0 c) body h) as [h1 [e|[]]]; [done|].
  apply IH. unfold same_on in Hc. simpl in Hc. congruence.
Qed.

(** X9: with [None] or a value of the alignment enumeration,
    [set_table_align], [set_row_align] and [set_column_align] return;
    they set the alignment of every paragraph of the cells of the
    table, row or column and change nothing else: the runs and styles
    of all paragraphs, the other paragraphs, and the runs, cells,
    tables and documents are as before.  With an integer outside the
    enumeration they return only when there is no paragraph; otherwise
    they raise ValueError at the first paragraph, which is left with a
    [w:jc] element (added if it had none) whose value was not set. *)
Theorem set_align_reaches_every_paragraph (a : option Z) (h : heap) :
  ((∀ v, a = Some v → v ∈ WD_PARAGRAPH_ALIGNMENT) →
   (∀ table, ∃ h',
       doc_decorate.set_table_align table a h = (h', inr tt) ∧
       aligned (part.get_paragraphs_in_table h table) a h h') ∧
   (∀ row, ∃ h',
       doc_decorate.set_row_align row a h = (h', inr tt) ∧
       aligned (c ← Row_cells h row; Cell_paragraphs h c) a h h') ∧
   (∀ column, ∃ h',
       doc_decorate.set_column_align column a h = (h', inr tt) ∧
       aligned (c ← Column_cells h column; Cell_paragraphs h c) a h h')) ∧
  (∀ v, a = Some v → v ∉ WD_PARAGRAPH_ALIGNMENT →
   (∀ table,
       alignment_rejected (part.get_paragraphs_in_table h table) v h tt
         (doc_decorate.set_table_align table a h)) ∧
   (∀ row,
       alignment_rejected (c ← Row_cells h row; Cell_paragraphs h c) v h tt
         (doc_decorate.set_row_align row a h)) ∧
   (∀ column,
       alignment_rejected (c ← Column_cells h column; Cell_paragraphs h c) v h tt
         (doc_decorate.set_column_align column a h))).
Proof.
  assert (Hbody : ∀ p, preserves (same_on h_cells) (doc_decorate.set_paragraph_align p a)).
  { intros p. apply Paragraph_set_alignment_cells. }
  assert (Hunit : ∀ ps v, v ∉ WD_PARAGRAPH_ALIGNMENT →
            alignment_rejected ps v h tt
              (for_ ps (λ p, doc_decorate.set_paragraph_align p (Some v)) h)).
  { intros ps v Hv. destruct (align_loop_rejected ps v tt h Hv) as [Hnil Hcons]. split.
    - intros ->. by rewrite <- (Hnil eq_refl).
    - intros p rest ->. rewrite <- (Hcons p rest eq_refl).
      unfold bind. by destruct (for_ _ _ h) as [h1 [e|[]]]. }
  split.
  - intros Ha. split_and!.
    + intros table. by apply align_loop.
    + intros row. unfold doc_decorate.set_row_align. unfold bind at 1, gets at 1.
      cbv iota beta. rewrite for_cells_paragraphs by done. by apply align_loop.
    + intros column. unfold doc_decorate.set_column_align. unfold bind at 1, gets at 1.
      cbv iota beta. rewrite for_cells_paragraphs by done. by apply align_loop.
  - intros v -> Hv. split_and!.
    + intros table. by apply Hunit.
    + intros row. unfold doc_decorate.set_row_align. unfold bind at 1, gets at 1.
      cbv iota beta. rewrite for_cells_paragraphs by done. by apply Hunit.
    + intros column. unfold doc_decorate.set_column_align. unfold bind at 1, gets at 1.
      cbv iota beta. rewrite for_cells_paragraphs by done. by apply Hunit.
Qed.

(** ** Attributes of every run of an element (doc_decorate.py, style.py) *)

Lemma run_attributes_twice f sz c bold italic e :
  run_attributes f sz c bold italic (run_attributes f sz c bold italic e)
  = run_attributes f sz c bold italic e.
Proof.
  unfold run_attributes. simpl. rewrite insert_insert_eq.
  by destruct sz, c, bold, italic.
Qed.

(** A loop that applies an idempotent update to each run of a list. *)
Lemma for_update_run (rs : list loc) (G : RunElem → RunElem) (body : loc → M unit) h :
  (∀ e, G (G e) = G e) →
  (∀ r h, body r h = (update_run r G h, inr tt)) →
  ∃ h', for_ rs body h = (h', inr tt) ∧
    (∀ r, r ∈ rs → h_runs h' !!! r = G (h_runs h !!! r)) ∧
    (∀ r, r ∉ rs → h_runs h' !! r = h_runs h !! r) ∧
    h_pars h' = h_pars h ∧ h_cells h' = h_cells h ∧
    h_tbls h' = h_tbls h ∧ h_docs h' = h_docs h.
Proof.
  intros HG Hbody. revert h. induction rs as [|x xs IH]; intros h.
  - exists h. split_and!; try done. intros r Hr. by apply elem_of_nil in Hr.
  - destruct (IH (update_run x G h)) as (h' & Hfor & Hin & Hout & Hp & Hc & Ht & Hd).
    exists h'. rewrite for_cons, Hbody. split_and!; try done.
    + intros r Hr. destruct (decide (r ∈ xs)) as [Hxs|Hxs].
      * rewrite (Hin r Hxs). simpl.
        destruct (decide (r = x)) as [->|Hne].
        -- by rewrite lookup_total_insert_eq.
        -- by rewrite lookup_total_insert_ne.
      * apply elem_of_cons in Hr as [->|Hr]; [|done].
        rewrite lookup_total_alt, (Hout x Hxs). simpl.
        by rewrite lookup_insert_eq.
    + intros r Hr. apply not_elem_of_cons in Hr as [Hne Hr].
      rewrite (Hout r Hr). simpl. by rewrite lookup_insert_ne.
Qed.

Lemma part_get_all_runs docx d h :
  part.get_all_runs docx (ObjDocument d) h
  = (h, inr (p ← Document_paragraphs h d ++ table_paragraphs h d; Paragraph_runs h p)).
Proof.
  unfold part.get_all_runs. unfold bind at 1.
  rewrite part_get_all_paragraphs. unfold gets. by rewrite foldl_extend_bind.
Qed.

Lemma get_runs_in_element_reads docx el h :
  ∃ rs, part.get_runs_in_element docx el h = (h, inr rs).
Proof.
  destruct el as [d| | | | | |]; simpl; [|eexists; reflexivity..].
  eexists. apply part_get_all_runs.
Qed.

(** X10: [DocDecorate.set_font] always returns; every run that
    [part.get_runs_in_element] finds in the element gets the font as
    its name and as its east-Asian font and the size in points, and
    keeps its text, colour, bold and italic; the other runs and the
    rest of the document are unchanged. *)
Theorem set_font_every_run (docx_Document : string → M loc) (el : part.element)
    (font : string) (font_size : Z) (h : heap) :
  ∃ rs h',
    part.get_runs_in_element docx_Document el h = (h, inr rs) ∧
    doc_decorate.set_font docx_Document el font font_size h = (h', inr tt) ∧
    (∀ r, r ∈ rs →
       h_runs h' !!! r
       = run_attributes font (Some font_size) None None None (h_runs h !!! r)) ∧
    (∀ r, r ∉ rs → h_runs h' !! r = h_runs h !! r) ∧
    h_pars h' = h_pars h ∧ h_cells h' = h_cells h ∧
    h_tbls h' = h_tbls h ∧ h_docs h' = h_docs h.
Proof.
  destruct (get_runs_in_element_reads docx_Document el h) as [rs Hrs].
  exists rs. unfold doc_decorate.set_font.
  pose (body := λ run : loc,
          (modify (update_run run (Font_set_name (Some font))) ;;;
           modify (update_run run (with_font_size (Some (Pt font_size)))) ;;;
           rFonts_set_method run ;;;
           key <- lift (qn (Some "w:eastAsia")) ;;
           rFonts_set run key (Some font))).
  destruct (for_update_run rs (run_attributes font (Some font_size) None None None)
              body h) as (h' & Hfor & Hrest).
  { apply run_attributes_twice. }
  { intros r h0. unfold body.
    erewrite bind_returns by reflexivity.
    erewrite bind_returns by reflexivity.
    rewrite update_run_twice.
    erewrite bind_returns by (rewrite rFonts_set_method_eq; reflexivity).
    rewrite qn_eastAsia. erewrite bind_returns by reflexivity.
    unfold rFonts_set, modify. rewrite update_run_twice.
    f_equal; by apply update_run_ext. }
  exists h'. split; [exact Hrs|]. split; [|exact Hrest].
  erewrite bind_returns by exact Hrs. exact Hfor.
Qed.

(** X11: [DocStyle.set_paragraph_attributes] with the default
    [en_font], a font and no colour returns the paragraph; every run
    of the paragraph gets the font name, the east-Asian font and the
    given size, bold and italic, and keeps its text and colour; the
    other runs and the rest of the document are unchanged.  With a
    colour that can be built, the call returns only on a paragraph
    without runs: otherwise it raises AttributeError at the first run,
    whose fonts and size have been set and whose colour has not; no
    other run is changed. *)
Theorem set_paragraph_attributes_every_run (p : Paragraph) (f : string)
    (sz : option Z) (color : option color_arg) (bold italic : option bool) (h : heap) :
  (color = None →
   ∃ h',
     DocStyle.set_paragraph_attributes p (Some "w:eastAsia") (Some f)
       sz color bold italic h = (h', inr p) ∧
     (∀ r, r ∈ Paragraph_runs h p →
        h_runs h' !!! r = run_attributes f sz None bold italic (h_runs h !!! r)) ∧
     (∀ r, r ∉ Paragraph_runs h p → h_runs h' !! r = h_runs h !! r) ∧
     h_pars h' = h_pars h ∧ h_cells h' = h_cells h ∧
     h_tbls h' = h_tbls h ∧ h_docs h' = h_docs h) ∧
  (∀ c, color_of color = inr (Some c) →
     (Paragraph_runs h p = [] →
      DocStyle.set_paragraph_attributes p (Some "w:eastAsia") (Some f)
        sz color bold italic h = (h, inr p)) ∧
     (∀ r rest, Paragraph_runs h p = r :: rest →
      DocStyle.set_paragraph_attributes p (Some "w:eastAsia") (Some f)
        sz color bold italic h
      = (update_run r (run_attributes f sz None None None) h, inl AttributeError))).
Proof.
  unfold DocStyle.set_paragraph_attributes. split.
  - intros ->.
    pose (body := λ run : loc,
            (DocStyle.set_run_attribute run (Some "w:eastAsia") (Some f)
               sz None bold italic ;;; ret tt)).
    destruct (for_update_run (Paragraph_runs h p)
                (run_attributes f sz None bold italic) body h) as (h' & Hfor & Hrest).
    { apply run_attributes_twice. }
    { intros r h0. unfold body. unfold bind at 1.
      by rewrite set_run_attribute_eq. }
    exists h'. split; [|exact Hrest].
    erewrite bind_returns by reflexivity. cbv beta.
    erewrite bind_returns by exact Hfor. reflexivity.
  - intros c Hcolor. split.
    + intros Hruns. erewrite bind_returns by reflexivity. cbv beta. by rewrite Hruns.
    + intros r rest Hruns. erewrite bind_returns by reflexivity. cbv beta.
      rewrite Hruns. erewrite bind_raises; [reflexivity|].
      rewrite for_cons. unfold bind at 1.
      by rewrite set_run_attribute_eq, Hcolor.
Qed.

Lemma get_runs_in_cell_runs h c : part.get_runs_in_cell h c = runs_of_cells h [c].
Proof.
  unfold part.get_runs_in_cell, runs_of_cells.
  rewrite foldl_extend_bind. simpl. by rewrite app_nil_r.
Qed.

Lemma foldl_cells_runs h (cells : list loc) (acc : list loc) :
  foldl (λ runs cell, runs ++ part.get_runs_in_cell h cell) acc cells
  = acc ++ runs_of_cells h cells.
Proof.
  rewrite foldl_extend_bind. f_equal. unfold runs_of_cells.
  induction cells as [|c cells IH]; [done|].
  rewrite !bind_cons, IH. f_equal.
  unfold part.get_runs_in_cell. by rewrite foldl_extend_bind.
Qed.

Lemma get_run_in_row_runs h row :
  part.get_run_in_row h row = runs_of_cells h (Row_cells h row).
Proof.
  unfold part.get_run_in_row.
  assert (Hgen : ∀ cells acc,
    foldl (λ runs cell,
             foldl (λ runs paragraph, runs ++ Paragraph_runs h paragraph)
                   runs (Cell_paragraphs h cell)) acc cells
    = acc ++ runs_of_cells h cells); [|by rewrite Hgen].
  induction cells as [|c cells IH]; intros acc; cbn [foldl].
  - unfold runs_of_cells. change ([] ≫= _) with (@nil loc). by rewrite app_nil_r.
  - rewrite IH, foldl_extend_bind. unfold runs_of_cells.
    by rewrite bind_cons, app_assoc.
Qed.

(** X12: [part.get_runs_in_element] reads the document without
    changing it.  For a Document it returns the runs of the top-level
    paragraphs followed by those of the tables; for a table, a row or
    a cell the runs of its cells (cell, paragraph, run order), for a
    row the same list as [get_run_in_row]; for a paragraph its runs;
    for a run the run alone; a list of runs is returned as it is. *)
Theorem get_runs_in_element_by_kind (docx_Document : string → M loc) (h : heap) :
  (∀ d, part.get_runs_in_element docx_Document (part.ElDocument d) h
        = (h, inr ((p ← Document_paragraphs h d; Paragraph_runs h p)
                   ++ (t ← Document_tables h d; runs_of_cells h (Table__cells h t))))) ∧
  (∀ t, part.get_runs_in_element docx_Document (part.ElTable t) h
        = (h, inr (runs_of_cells h (Table__cells h t)))) ∧
  (∀ row, part.get_runs_in_element docx_Document (part.ElRow row) h
          = (h, inr (part.get_run_in_row h row)) ∧
          part.get_run_in_row h row = runs_of_cells h (Row_cells h row)) ∧
  (∀ c, part.get_runs_in_element docx_Document (part.ElCell c) h
        = (h, inr (runs_of_cells h [c]))) ∧
  (∀ p, part.get_runs_in_element docx_Document (part.ElParagraph p) h
        = (h, inr (Paragraph_runs h p))) ∧
  (∀ r, part.get_runs_in_element docx_Document (part.ElRun r) h = (h, inr [r])) ∧
  (∀ rs, part.get_runs_in_element docx_Document (part.ElRuns rs) h = (h, inr rs)).
Proof.
  split_and!; try done.
  - intros d. simpl. rewrite part_get_all_runs, bind_app. do 3 f_equal.
    unfold table_paragraphs, runs_of_cells.
    rewrite bind_bind_assoc. apply list_bind_ext; [|done]. intros t.
    by rewrite bind_bind_assoc.
  - intros t. simpl. unfold gets.
    by rewrite foldl_cells_runs, get_cells_in_table_cells.
  - intros row. split; [|apply get_run_in_row_runs]. simpl. unfold gets.
    by rewrite foldl_cells_runs, get_run_in_row_runs.
  - intros c. simpl. unfold gets. by rewrite get_runs_in_cell_runs.
Qed.



(** ** Texts of the cells of a row or column (doc_decorate.py) *)

Lemma py_getitem_fmap {A B} (f : A → B) (l : list A) (i : Z) :
  py_getitem (f <$> l) i
  = match py_getitem l i with inl e => inl e | inr x => inr (f x) end.
Proof.
  unfold py_getitem. rewrite length_fmap, list_lookup_fmap.
  destruct (_ && _); [|done]. by destruct (l !! _).
Qed.

(** The loop that reads the cells of the row or column again at each
    index fills the cells that were there at the start: assigning the
    text of a cell leaves the tables as they are. *)
Lemma fill_cells_reread (cells_of : heap → list loc) (content : list pyval) (n : Z) h :
  (∀ h h', h_tbls h' = h_tbls h → cells_of h' = cells_of h) →
  for_ (range n) (λ index,
    v <- lift (py_getitem content index) ;;
    cells <- gets cells_of ;;
    c <- lift (py_getitem cells index) ;;
    Cell_set_text c (py_str v)) h
  = fill_cells (cells_of h) (py_str <$> content) n h.
Proof.
  intros Hcells. unfold fill_cells.
  apply (for_ext_inv (λ h1, h_tbls h1 = h_tbls h)); [| |done].
  - intros i h1 Hh1. unfold bind, lift, gets.
    rewrite py_getitem_fmap, (Hcells h h1 Hh1).
    destruct (py_getitem content i) as [e|v]; [done|].
    by destruct (py_getitem (cells_of h) i).
  - intros i h1 Hh1. unfold bind, lift.
    destruct (py_getitem (py_str <$> content) i) as [e|v]; [done|].
    destruct (py_getitem (cells_of h) i) as [e|c]; [done|].
    destruct (Cell_set_text_spec c v h1) as (h2 & Hset & _ & _ & _ & _ & Ht & _).
    destruct (Cell_set_text c v h1) as [h2' r2]. injection Hset as -> ->.
    simpl. congruence.
Qed.

(** The texts of cells that hold, index by index, the strings of [data]. *)
Lemma cells_hold_texts h (cells : list loc) (data : list string) :
  length data = length cells →
  (∀ i c s, cells !! i = Some c → data !! i = Some s → cell_holds h c s) →
  Cell_text h <$> cells = data.
Proof.
  revert data. induction cells as [|c cells IH]; intros [|s data] Hlen Hheld;
    simplify_eq/=; [done|].
  f_equal.
  - apply cell_holds_text. by apply (Hheld 0%nat).
  - apply IH; [done|]. intros i c' s' Hc' Hs'. by apply (Hheld (S i)).
Qed.

Lemma fill_by_index {A} (cells_of : heap → list loc) (content : list pyval) (x : A) h :
  (∀ h h', h_tbls h' = h_tbls h → cells_of h' = cells_of h) →
  let fill : M A :=
    cells <- gets cells_of ;;
    py_assert (bool_decide (length content = length cells))
      "content长度于单元格个数不符" ;;;
    for_ (range (Z.of_nat (length content))) (λ index,
      v <- lift (py_getitem content index) ;;
      cells <- gets cells_of ;;
      c <- lift (py_getitem cells index) ;;
      Cell_set_text c (py_str v)) ;;;
    ret x in
  (length content ≠ length (cells_of h) →
   fill h = (h, inl (AssertionError "content长度于单元格个数不符"))) ∧
  (length content = length (cells_of h) → NoDup (cells_of h) →
   ∃ h', fill h = (h', inr x) ∧
     cells_of h' = cells_of h ∧
     (∀ i c v, cells_of h !! i = Some c → content !! i = Some v →
               cell_holds h' c (py_str v)) ∧
     Cell_text h' <$> cells_of h' = py_str <$> content ∧
     (∀ c, c ∉ cells_of h → h_cells h' !! c = h_cells h !! c) ∧
     h_runs h ⊆ h_runs h' ∧ h_pars h ⊆ h_pars h' ∧
     h_tbls h' = h_tbls h ∧ h_docs h' = h_docs h).
Proof.
  intros Hcells fill. subst fill. split.
  - intros Hlen. erewrite bind_returns by reflexivity. cbv beta.
    by rewrite bool_decide_eq_false_2.
  - intros Hlen Hnd.
    destruct (fill_cells_spec (cells_of h) (py_str <$> content) (length content) h)
      as (h' & Hfill & Hheld & Hother & Hr & Hp & Ht & Hd);
      [done|lia|by rewrite length_fmap|].
    assert (Hheld' : ∀ i c v, cells_of h !! i = Some c → content !! i = Some v →
                              cell_holds h' c (py_str v)).
    { intros i c v Hc Hv. apply (Hheld i); [|done|by rewrite list_lookup_fmap, Hv].
      by apply lookup_lt_Some in Hv. }
    exists h'. split_and!; try done.
    + erewrite bind_returns by reflexivity. cbv beta.
      rewrite bool_decide_eq_true_2 by done.
      erewrite bind_returns by reflexivity.
      erewrite bind_returns; [reflexivity|].
      by rewrite fill_cells_reread.
    + by apply Hcells.
    + rewrite (Hcells h h' Ht). apply cells_hold_texts; [by rewrite length_fmap|].
      intros i c s Hc Hs. rewrite list_lookup_fmap in Hs.
      destruct (content !! i) as [v|] eqn:Hv; simplify_eq/=. by apply (Hheld' i).
    + intros c Hc. apply Hother. rewrite Hlen, firstn_all. done.
Qed.

(** X14: [DocDecorate.add_row_text] and [add_column_text] fail with
    the assertion, changing nothing, when the number of items differs
    from the number of cells; otherwise, the cells being distinct, the
    text of the cell at each index becomes [str] of the item at that
    index, the cells outside the row or column are unchanged and the
    elements that existed before are still there. *)
Theorem add_row_column_text_fills (content : list pyval) (h : heap) :
  (∀ row,
     (length content ≠ length (Row_cells h row) →
      doc_decorate.add_row_text row content h
      = (h, inl (AssertionError "content长度于单元格个数不符"))) ∧
     (length content = length (Row_cells h row) → NoDup (Row_cells h row) →
      ∃ h', doc_decorate.add_row_text row content h = (h', inr row) ∧
        Row_cells h' row = Row_cells h row ∧
        (∀ i c v, Row_cells h row !! i = Some c → content !! i = Some v →
                  cell_holds h' c (py_str v)) ∧
        Cell_text h' <$> Row_cells h' row = py_str <$> content ∧
        (∀ c, c ∉ Row_cells h row → h_cells h' !! c = h_cells h !! c) ∧
        h_runs h ⊆ h_runs h' ∧ h_pars h ⊆ h_pars h' ∧
        h_tbls h' = h_tbls h ∧ h_docs h' = h_docs h)) ∧
  (∀ column,
     (length content ≠ length (Column_cells h column) →
      doc_decorate.add_column_text column content h
      = (h, inl (AssertionError "content长度于单元格个数不符"))) ∧
     (length content = length (Column_cells h column) → NoDup (Column_cells h column) →
      ∃ h', doc_decorate.add_column_text column content h = (h', inr column) ∧
        Column_cells h' column = Column_cells h column ∧
        (∀ i c v, Column_cells h column !! i = Some c → content !! i = Some v →
                  cell_holds h' c (py_str v)) ∧
        Cell_text h' <$> Column_cells h' column = py_str <$> content ∧
        (∀ c, c ∉ Column_cells h column → h_cells h' !! c = h_cells h !! c) ∧
        h_runs h ⊆ h_runs h' ∧ h_pars h ⊆ h_pars h' ∧
        h_tbls h' = h_tbls h ∧ h_docs h' = h_docs h)).
Proof.
  split.
  - intros row. apply (fill_by_index (λ h, Row_cells h row) content row h).
    intros h1 h2 Ht. unfold Row_cells, Table_row_cells. by rewrite Ht.
  - intros column. apply (fill_by_index (λ h, Column_cells h column) content column h).
    intros h1 h2 Ht. unfold Column_cells. by rewrite Ht.
Qed.

(** ** Appending one row (doc_decorate.py) *)

Lemma new_tc_spec h :
  ∃ c p h0,
    new_tc h = (h0, inr c) ∧
    h_cells h !! c = None ∧ h_pars h !! p = None ∧
    h_cells h0 !! c = Some (mkCell [p]) ∧
    h_pars h0 !! p = Some (mkParagraph [] None None) ∧
    h_pars h ⊆ h_pars h0 ∧ h_cells h ⊆ h_cells h0 ∧
    h_runs h0 = h_runs h ∧ h_tbls h0 = h_tbls h ∧ h_docs h0 = h_docs h.
Proof.
  eexists _, _, _. split; [reflexivity|]. simpl. split_and!; try done.
  - apply fresh_None.
  - apply fresh_None.
  - apply lookup_insert_eq.
  - apply lookup_insert_eq.
  - apply insert_subseteq, fresh_None.
  - apply insert_subseteq, fresh_None.
Qed.

(** The cells of a new row come with their paragraphs: the pairs are
    new and distinct. *)
Lemma new_row_spec (n : nat) h :
  ∃ (cps : list (loc * loc)) h1,
    replicateM n new_tc h = (h1, inr cps.*1) ∧
    length cps = n ∧ NoDup cps.*1 ∧ NoDup cps.*2 ∧
    Forall (λ cp, h_cells h !! cp.1 = None ∧ h_pars h !! cp.2 = None ∧
                  h_cells h1 !! cp.1 = Some (mkCell [cp.2]) ∧
                  h_pars h1 !! cp.2 = Some (mkParagraph [] None None)) cps ∧
    h_pars h ⊆ h_pars h1 ∧ h_cells h ⊆ h_cells h1 ∧
    h_runs h1 = h_runs h ∧ h_tbls h1 = h_tbls h ∧ h_docs h1 = h_docs h.
Proof.
  revert h. induction n as [|n IH]; intros h.
  - exists [], h. split_and!; try done; apply NoDup_nil_2.
  - destruct (new_tc_spec h)
      as (c & p & h0 & Htc & Hcn & Hpn & Hcc & Hpp & Hp0 & Hc0 & Hr0 & Ht0 & Hd0).
    destruct (IH h0) as (cps & h1 & Heq & Hlen & Hndc & Hndp & Hall & Hp & Hc & Hr & Ht & Hd).
    rewrite Forall_forall in Hall.
    exists ((c, p) :: cps), h1. split_and!; try done.
    + cbn [replicateM]. unfold bind at 1. rewrite Htc. unfold bind at 1. by rewrite Heq.
    + simpl. by rewrite Hlen.
    + rewrite fmap_cons. apply NoDup_cons. split; [|done].
      intros Hin. apply list_elem_of_fmap in Hin as ([c' p'] & Hc' & Hin).
      simpl in Hc'. subst c'. destruct (Hall _ Hin) as (Hnone & _). simpl in Hnone.
      congruence.
    + rewrite fmap_cons. apply NoDup_cons. split; [|done].
      intros Hin. apply list_elem_of_fmap in Hin as ([c' p'] & Hp' & Hin).
      simpl in Hp'. subst p'. destruct (Hall _ Hin) as (_ & Hnone & _). simpl in Hnone.
      congruence.
    + apply Forall_cons. split.
      * simpl. split_and!; [done|done| |].
        -- by eapply lookup_weaken.
        -- by eapply lookup_weaken.
      * apply Forall_forall. intros cp Hin.
        destruct (Hall cp Hin) as (H1 & H2 & H3 & H4). split_and!; try done.
        -- destruct (h_cells h !! cp.1) eqn:E; [|done].
           by rewrite (lookup_weaken _ _ _ _ E Hc0) in H1.
        -- destruct (h_pars h !! cp.2) eqn:E; [|done].
           by rewrite (lookup_weaken _ _ _ _ E Hp0) in H2.
    + by etrans.
    + by etrans.
    + congruence.
    + congruence.
    + congruence.
Qed.

Lemma append_row_step_eq cells row_data (k : nat) c p v h :
  cells !! k = Some c → row_data !! k = Some v →
  h_cells h !! c = Some (mkCell [p]) →
  h_pars h !! p = Some (mkParagraph [] None None) →
  let r := fresh (dom (h_runs h)) in
  doc_decorate.append_row_step cells row_data (Z.of_nat k) h
  = (set_pars <[p := mkParagraph [r] None None]>
       (set_runs <[r := empty_run (py_str v)]> h), inr tt).
Proof.
  intros Hc Hv Hcell Hpar r. unfold doc_decorate.append_row_step.
  unfold bind at 1, lift at 1. rewrite (py_getitem_of_nat cells k c Hc).
  unfold bind at 1, gets at 1. cbv iota beta.
  unfold Cell_paragraphs. rewrite (lookup_total_correct _ _ _ Hcell).
  unfold bind at 1, lift at 1. cbn [c_paragraphs fmap list_fmap].
  change (py_getitem [_] 0) with (@inr exn _ (mkParagraphProxy p (InCell c))).
  cbv iota beta.
  unfold Paragraph_add_run, Run_set_text, new_run, bind, modify, lift, ret.
  rewrite (py_getitem_of_nat row_data k v Hv).
  unfold update_par, update_run, set_pars, set_runs. simpl. fold r.
  rewrite (lookup_total_correct _ _ _ Hpar), lookup_total_insert_eq, insert_insert_eq.
  reflexivity.
Qed.

Lemma append_row_fill (cps : list (loc * loc)) (row_data : list pyval) (k : nat) h :
  NoDup cps.*2 → (k ≤ length cps)%nat → (k ≤ length row_data)%nat →
  Forall (λ cp, h_cells h !! cp.1 = Some (mkCell [cp.2]) ∧
                h_pars h !! cp.2 = Some (mkParagraph [] None None)) cps →
  ∃ h', for_ (range (Z.of_nat k)) (doc_decorate.append_row_step cps.*1 row_data) h = (h', inr tt) ∧
    (∀ i c p v, (i < k)%nat → cps !! i = Some (c, p) → row_data !! i = Some v →
                cell_holds h' c (py_str v)) ∧
    (∀ q, q ∉ take k cps.*2 → h_pars h' !! q = h_pars h !! q) ∧
    h_runs h ⊆ h_runs h' ∧ h_cells h' = h_cells h ∧
    h_tbls h' = h_tbls h ∧ h_docs h' = h_docs h.
Proof.
  intros Hnd. induction k as [|k IH]; intros Hk Hdata Hall.
  - exists h. split_and!; try done. intros; lia.
  - destruct IH as (h1 & Hfor & Hheld & Hpars & Hr & Hc & Ht & Hd); [lia|lia|done|].
    destruct (lookup_lt_is_Some_2 cps k) as [[c p] Hcp]; [lia|].
    destruct (lookup_lt_is_Some_2 row_data k) as [v Hv]; [lia|].
    rewrite Forall_forall in Hall.
    destruct (Hall (c, p)) as [Hcell Hpar]; [by eapply list_elem_of_lookup_2|].
    simpl in Hcell, Hpar.
    assert (Hp2 : cps.*2 !! k = Some p) by (by rewrite list_lookup_fmap, Hcp).
    assert (Hpk : p ∉ take k cps.*2).
    { intros Hin. apply list_elem_of_lookup in Hin as [j Hj].
      apply lookup_take_Some in Hj as [Hj Hjk].
      assert (j = k) by (by eapply NoDup_lookup). lia. }
    eexists. split_and!.
    + rewrite range_succ, for_app, Hfor, for_cons.
      pose proof (append_row_step_eq cps.*1 row_data k c p v h1) as Hstep.
      cbv zeta in Hstep. rewrite Hstep; [reflexivity| | | |].
      * by rewrite list_lookup_fmap, Hcp.
      * done.
      * by rewrite Hc.
      * by rewrite Hpars.
    + intros i ci pi vi Hi Hci Hvi. simpl.
      destruct (decide (i = k)) as [->|Hne].
      * simplify_eq. exists p, (fresh (dom (h_runs h1))). simpl.
        split_and!; [by rewrite Hc|apply lookup_insert_eq|apply lookup_insert_eq].
      * destruct (Hheld i ci pi vi) as (p' & r' & H1 & H2 & H3); [lia|done|done|].
        exists p', r'. simpl. split_and!; [done| |].
        -- rewrite lookup_insert_ne; [done|]. intros <-.
           destruct (Hall (ci, pi)) as [Hcell' _]; [by eapply list_elem_of_lookup_2|].
           simpl in Hcell'. rewrite Hc, Hcell' in H1. simplify_eq.
           assert (i = k); [|lia].
           eapply (NoDup_lookup cps.*2); [done| |exact Hp2].
           by rewrite list_lookup_fmap, Hci.
        -- rewrite lookup_insert_ne; [done|]. intros <-.
           by rewrite fresh_None in H3.
    + intros q Hq. simpl. rewrite (take_S_r _ _ _ Hp2) in Hq.
      apply not_elem_of_app in Hq as [Hq1 Hq2].
      rewrite lookup_insert_ne by (intros <-; apply Hq2; left).
      by apply Hpars.
    + simpl. etrans; [exact Hr|]. apply insert_subseteq, fresh_None.
    + done.
    + done.
    + done.
Qed.

Lemma Table_add_row_pairs t h :
  ∃ (cps : list (loc * loc)) h1,
    let h2 := update_tbl t (λ e, mkTable (tblGrid e) (tr_lst e ++ [cps.*1]) (t_style e)) h1 in
    Table_add_row t h = (h2, inr (mkRow t (length (tr_lst (h_tbls h !!! t))))) ∧
    NoDup cps.*2 ∧
    Forall (λ cp, h_pars h !! cp.2 = None ∧
                  h_cells h2 !! cp.1 = Some (mkCell [cp.2]) ∧
                  h_pars h2 !! cp.2 = Some (mkParagraph [] None None)) cps ∧
    h_runs h2 = h_runs h ∧
    row_appended t cps.*1 h h2.
Proof.
  destruct (new_row_spec (tblGrid (h_tbls h !!! t)) h)
    as (cps & h1 & Heq & Hlen & Hndc & Hndp & Hall & Hp & Hc & Hr & Ht & Hd).
  exists cps, h1. cbv zeta. split_and!; try done.
  - unfold Table_add_row. unfold bind at 1, gets at 1. cbv iota beta.
    unfold bind at 1, gets at 1. cbv iota beta.
    unfold bind at 1. rewrite Heq. reflexivity.
  - eapply Forall_impl; [exact Hall|]. intros cp (H1 & H2 & H3 & H4). by split_and!.
  - unfold row_appended. simpl. rewrite Ht.
    assert (Hnew : (<[t:=mkTable (tblGrid (h_tbls h !!! t))
                          (tr_lst (h_tbls h !!! t) ++ [cps.*1])
                          (t_style (h_tbls h !!! t))]> (h_tbls h) : gmap nat TableElem)
                   !!! t = mkTable (tblGrid (h_tbls h !!! t))
                             (tr_lst (h_tbls h !!! t) ++ [cps.*1])
                             (t_style (h_tbls h !!! t)))
      by apply lookup_total_insert_eq.
    split_and!; try done.
    + by rewrite Hnew.
    + unfold Row_cells, Table_row_cells. simpl. rewrite Ht, Hnew. simpl.
      by rewrite list_lookup_middle.
    + by rewrite length_fmap.
    + eapply Forall_fmap, Forall_impl; [exact Hall|]. by intros cp (H1 & _).
    + by rewrite Hr.
    + intros t' Hne. by rewrite lookup_insert_ne.
Qed.

(** X15: [DocDecorate.append_row] raises [Exception] with its own
    message and changes nothing when the table index is outside the
    cached tables.  Otherwise the row is added first: with a number of
    items different from the number of columns the call raises the
    same exception and leaves a new row of empty cells in the table;
    with the right number of items the texts of the new cells are
    [str] of the items and the refreshed table cache is the list of
    tables of the document. *)
Theorem append_row_adds_before_checking (docx_Document : string → M loc)
    (self : DocDecorate.instance) (table_index : Z) (row_data : list pyval) (h : heap) :
  (∀ e, py_getitem (DocDecorate.tables self) table_index = inl e →
        doc_decorate.append_row docx_Document self table_index row_data h
        = (h, inl (Exception "添加行失败"))) ∧
  (∀ t, py_getitem (DocDecorate.tables self) table_index = inr t →
        length row_data ≠ tblGrid (h_tbls h !!! t) →
        ∃ cs h',
          doc_decorate.append_row docx_Document self table_index row_data h
          = (h', inl (Exception "添加行失败")) ∧
          row_appended t cs h h' ∧
          Forall (empty_cell h') cs ∧ h_runs h' = h_runs h) ∧
  (∀ t d, py_getitem (DocDecorate.tables self) table_index = inr t →
        length row_data = tblGrid (h_tbls h !!! t) →
        DocDecorate.doc self = ObjDocument d →
        ∃ cs h',
          doc_decorate.append_row docx_Document self table_index row_data h
          = (h', inr (doc_decorate.with_tables (Document_tables h d) self,
                      mkRow t (length (tr_lst (h_tbls h !!! t))))) ∧
          row_appended t cs h h' ∧
          Cell_text h' <$> cs = py_str <$> row_data).
Proof.
  split_and!.
  - intros e Hget. unfold doc_decorate.append_row, try_except_Exception,
      doc_decorate.append_row_body.
    unfold bind at 1, lift at 1. by rewrite Hget.
  - intros t Hget Hlen.
    destruct (Table_add_row_pairs t h) as (cps & h1 & Hadd & Hndp & Hall & Hr & Happ).
    cbv zeta in *. set (h2 := update_tbl t _ h1) in *.
    exists cps.*1, h2. split_and!; try done.
    + unfold doc_decorate.append_row, try_except_Exception,
        doc_decorate.append_row_body.
      erewrite bind_returns by (unfold lift; rewrite Hget; reflexivity).
      erewrite bind_returns by exact Hadd.
      erewrite bind_returns by reflexivity. cbv beta.
      destruct Happ as (_ & -> & Hlen' & _).
      rewrite bool_decide_eq_false_2 by (rewrite Hlen'; congruence).
      reflexivity.
    + eapply Forall_fmap, Forall_impl; [exact Hall|].
      intros cp (_ & H1 & H2). by exists cp.2.
  - intros t d Hget Hlen Hdoc.
    destruct (Table_add_row_pairs t h) as (cps & h1 & Hadd & Hndp & Hall & Hr & Happ).
    cbv zeta in *. set (h2 := update_tbl t _ h1) in *.
    destruct Happ as (Htr & Hrow & Hlen' & Hndc & Hnew & Hr2 & Hp2 & Hc2 & Ht2 & Hd2).
    destruct (append_row_fill cps row_data (length cps) h2)
      as (h3 & Hfor & Hheld & Hpars & Hr3 & Hc3 & Ht3 & Hd3).
    { done. }
    { done. }
    { rewrite length_fmap in Hlen'. lia. }
    { eapply Forall_impl; [exact Hall|]. by intros cp (_ & H1 & H2). }
    exists cps.*1, h3. split_and!.
    + unfold doc_decorate.append_row, try_except_Exception,
        doc_decorate.append_row_body.
      erewrite bind_returns by (unfold lift; rewrite Hget; reflexivity).
      erewrite bind_returns by exact Hadd.
      erewrite bind_returns by reflexivity. cbv beta. rewrite Hrow.
      rewrite bool_decide_eq_true_2 by (rewrite Hlen'; congruence).
      erewrite bind_returns by reflexivity.
      rewrite length_fmap.
      erewrite bind_returns by exact Hfor.
      rewrite Hdoc. unfold part.get_tables, part.opened.
      unfold bind, ret, gets, lift, id. simpl.
      unfold Document_tables. by rewrite Hd3, Hd2.
    + unfold row_appended. rewrite Ht3. split_and!; try done.
      * unfold Row_cells, Table_row_cells in *. simpl in *. by rewrite Ht3.
      * by etrans.
      * apply map_subseteq_spec. intros q x Hq.
        rewrite Hpars; [by eapply lookup_weaken|].
        rewrite take_ge by (by rewrite length_fmap). intros Hin.
        apply list_elem_of_fmap in Hin as (cp & -> & Hin).
        rewrite Forall_forall in Hall. destruct (Hall cp Hin) as (Hnone & _). congruence.
      * by rewrite Hc3.
      * congruence.
    + apply cells_hold_texts; [rewrite !length_fmap in *; lia|].
      intros i c s Hc Hs. rewrite !list_lookup_fmap in *.
      destruct (cps !! i) as [[c' p']|] eqn:Hcp; simplify_eq/=.
      destruct (row_data !! i) as [v|] eqn:Hv; simplify_eq/=.
      apply (Hheld i c p' v); [by apply lookup_lt_Some in Hcp|done..].
Qed.

(** ** Styles of the elements of a table (style.py) *)

Lemma set_paragraph_alignment_unit p a h :
  (DocStyle.set_paragraph_alignment p a ;;; ret tt) h
  = doc_decorate.set_paragraph_align p a h.
Proof.
  unfold DocStyle.set_paragraph_alignment, doc_decorate.set_paragraph_align, bind.
  by destruct (Paragraph_set_alignment p a h) as [h1 [e|[]]].
Qed.

Lemma set_table_element_content_alignment_table t a h :
  DocStyle.set_table_element_content_alignment (ETable t) a h
  = (for_ (c ← Table__cells h t; Cell_paragraphs h c)
       (λ p, doc_decorate.set_paragraph_align p a) ;;; ret (ETable t)) h.
Proof.
  unfold DocStyle.set_table_element_content_alignment.
  erewrite bind_returns by reflexivity. cbv beta. unfold id.
  unfold DOCXElement.get_paragraphs_of_table, DOCXElement.get_cells_of_table, rbind.
  rewrite foldl_extend_bind. cbn [app].
  erewrite bind_returns by reflexivity.
  unfold bind. rewrite (for_ext_inv (λ _, True) _
    (λ p, doc_decorate.set_paragraph_align p a)); [done| |done|done].
  intros p h0 _. apply set_paragraph_alignment_unit.
Qed.

(** X16: the two setters of [DocStyle] for the elements of a table
    accept complementary kinds.  [set_table_element_content_attribute]
    fails with TypeError on every table; on a row, a column or a cell,
    without a colour, it sets the attributes of every run of the
    cells, and with a colour that can be built it raises
    AttributeError at the first run, if there is one.
    [set_table_element_content_alignment] fails with AttributeError on
    every row, column and cell; on a table it aligns every paragraph
    of the cells when the value is [None] or of the enumeration, and
    otherwise raises ValueError at the first paragraph, if there is
    one. *)
Theorem table_element_styles_by_kind (h : heap) :
  (∀ t en zh sz color bold italic,
     DocStyle.set_table_element_content_attribute (ETable t) en zh sz color bold italic h
     = (h, inl TypeError)) ∧
  (∀ element a, (∀ t, element ≠ ETable t) →
     DocStyle.set_table_element_content_alignment element a h
     = (h, inl AttributeError)) ∧
  (∀ t a, (∀ v, a = Some v → v ∈ WD_PARAGRAPH_ALIGNMENT) →
     ∃ h',
       DocStyle.set_table_element_content_alignment (ETable t) a h
       = (h', inr (ETable t)) ∧
       aligned (c ← Table__cells h t; Cell_paragraphs h c) a h h') ∧
  (∀ t v, v ∉ WD_PARAGRAPH_ALIGNMENT →
     alignment_rejected (c ← Table__cells h t; Cell_paragraphs h c) v h (ETable t)
       (DocStyle.set_table_element_content_alignment (ETable t) (Some v) h)) ∧
  (∀ element cells f sz bold italic,
     DOCXElement.get_cells_of_table_element h element = inr cells →
     ∃ h',
       DocStyle.set_table_element_content_attribute element (Some "w:eastAsia") (Some f)
         sz None bold italic h = (h', inr element) ∧
       (∀ r, r ∈ runs_of_cells h cells →
          h_runs h' !!! r = run_attributes f sz None bold italic (h_runs h !!! r)) ∧
       (∀ r, r ∉ runs_of_cells h cells → h_runs h' !! r = h_runs h !! r) ∧
       h_pars h' = h_pars h ∧ h_cells h' = h_cells h ∧
       h_tbls h' = h_tbls h ∧ h_docs h' = h_docs h) ∧
  (∀ element cells f sz color c bold italic,
     DOCXElement.get_cells_of_table_element h element = inr cells →
     color_of color = inr (Some c) →
     (runs_of_cells h cells = [] →
      DocStyle.set_table_element_content_attribute element (Some "w:eastAsia") (Some f)
        sz color bold italic h = (h, inr element)) ∧
     (∀ r rest, runs_of_cells h cells = r :: rest →
      DocStyle.set_table_element_content_attribute element (Some "w:eastAsia") (Some f)
        sz color bold italic h
      = (update_run r (run_attributes f sz None None None) h, inl AttributeError))).
Proof.
  assert (Hruns : ∀ element cells en zh sz color bold italic,
    DOCXElement.get_cells_of_table_element h element = inr cells →
    DocStyle.set_table_element_content_attribute element en zh sz color bold italic h
    = (for_ (runs_of_cells h cells) (λ run,
         DocStyle.set_run_attribute run en zh sz color bold italic ;;; ret tt) ;;;
       ret element) h).
  { intros element cells en zh sz color bold italic Hcells.
    unfold DocStyle.set_table_element_content_attribute.
    erewrite bind_returns by reflexivity. cbv beta. unfold id.
    unfold DOCXElement.get_runs_in_table_element,
      DOCXElement.get_paragraphs_of_table_element.
    rewrite Hcells. cbn [rbind]. rewrite runs_of_cells_extend.
    by erewrite bind_returns by reflexivity. }
  split_and!.
  - done.
  - intros element a Hne. destruct element; [by destruct (Hne t)|done..].
  - intros t a Ha.
    destruct (align_loop (c ← Table__cells h t; Cell_paragraphs h c) a h Ha)
      as (h' & Hfor & Hal).
    exists h'. split; [|done].
    rewrite set_table_element_content_alignment_table.
    by erewrite bind_returns by exact Hfor.
  - intros t v Hv. rewrite set_table_element_content_alignment_table.
    by apply align_loop_rejected.
  - intros element cells f sz bold italic Hcells.
    pose (body := λ run : loc,
            (DocStyle.set_run_attribute run (Some "w:eastAsia") (Some f)
               sz None bold italic ;;; ret tt)).
    destruct (for_update_run (runs_of_cells h cells)
                (run_attributes f sz None bold italic) body h) as (h' & Hfor & Hrest).
    { apply run_attributes_twice. }
    { intros r h0. unfold body. unfold bind at 1.
      by rewrite set_run_attribute_eq. }
    exists h'. split; [|exact Hrest].
    rewrite (Hruns _ cells) by done.
    by erewrite bind_returns by exact Hfor.
  - intros element cells f sz color c bold italic Hcells Hcolor.
    rewrite (Hruns _ cells) by done. split.
    + by intros ->.
    + intros r rest ->. erewrite bind_raises; [reflexivity|].
      rewrite for_cons. unfold bind at 1.
      by rewrite set_run_attribute_eq, Hcolor.
Qed.

(** ** The caches of a facade (doc_decorate.py) *)

Lemma part_get_tables docx d h :
  part.get_tables docx (ObjDocument d) h = (h, inr (Document_tables h d)).
Proof. done. Qed.

Lemma part_get_cells_in_tables docx d h :
  part.get_cells_in_tables docx (ObjDocument d) h
  = (h, inr (t ← Document_tables h d; Table__cells h t)).
Proof.
  unfold part.get_cells_in_tables. erewrite bind_returns by apply part_get_tables.
  unfold gets. rewrite foldl_extend_bind. cbn [app]. do 2 f_equal.
  apply list_bind_ext; [|done]. intros t. apply get_cells_in_table_cells.
Qed.

Lemma table_paragraphs_runs h d :
  (p ← table_paragraphs h d; Paragraph_runs h p)
  = (t ← Document_tables h d; runs_of_cells h (Table__cells h t)).
Proof.
  unfold table_paragraphs, runs_of_cells.
  rewrite bind_bind_assoc. apply list_bind_ext; [|done]. intros t.
  by rewrite bind_bind_assoc.
Qed.

(** X17: [DocDecorate.__init__] on a Document leaves it unchanged
    and caches its runs (top-level paragraphs first, then the tables),
    top-level paragraphs, tables and the cells of the tables; on a
    path it opens the file and proceeds as on the document, or fails
    with the error of opening; on a DocContent or [None] it fails with
    AttributeError. *)
Theorem DocDecorate_init_snapshot (docx_Document : string → M loc) (h : heap) :
  (∀ d, DocDecorate.__init__ docx_Document (ObjDocument d) h
        = (h, inr (DocDecorate.mk (ObjDocument d)
                     ((p ← Document_paragraphs h d; Paragraph_runs h p)
                      ++ (t ← Document_tables h d; runs_of_cells h (Table__cells h t)))
                     (Document_paragraphs h d)
                     (Document_tables h d)
                     (t ← Document_tables h d; Table__cells h t)))) ∧
  (∀ s h1 d, docx_Document s h = (h1, inr d) →
     DocDecorate.__init__ docx_Document (ObjStr s) h
     = DocDecorate.__init__ docx_Document (ObjDocument d) h1) ∧
  (∀ s h1 e, docx_Document s h = (h1, inl e) →
     DocDecorate.__init__ docx_Document (ObjStr s) h = (h1, inl e)) ∧
  (∀ inner, DocDecorate.__init__ docx_Document (ObjDocContent inner) h
            = (h, inl AttributeError)) ∧
  DocDecorate.__init__ docx_Document ObjNone h = (h, inl AttributeError).
Proof.
  split_and!; try done.
  - intros d. unfold DocDecorate.__init__.
    erewrite bind_returns by reflexivity.
    erewrite bind_returns by apply part_get_all_runs.
    erewrite bind_returns by apply part_get_paragraphs.
    erewrite bind_returns by apply part_get_tables.
    erewrite bind_returns by apply part_get_cells_in_tables.
    by rewrite bind_app, table_paragraphs_runs.
  - intros s h1 d Hopen. unfold DocDecorate.__init__.
    unfold bind at 1. unfold bind at 1. rewrite Hopen.
    unfold bind at 5. reflexivity.
  - intros s h1 e Hopen. unfold DocDecorate.__init__.
    unfold bind at 1. unfold bind at 1. by rewrite Hopen.
Qed.

(** ** Paragraphs added through nested facades (content.py) *)

Lemma add_paragraph_on_wrapped n o text style :
  DocContent.add_paragraph_on (wrapped n o) text style
  = DocContent.add_paragraph_on o text style.
Proof. induction n as [|n IH]; [done|]. exact IH. Qed.

(** X18: a DocContent built on a DocContent keeps it, and
    [DocContent.add_paragraph] through any number of nested facades
    appends the paragraph with the given text at the end of the
    innermost Document, leaving the tables, the other documents and
    the existing elements as they were; with [None] or a string in the
    place of the document it fails with AttributeError. *)
Theorem DocContent_add_paragraph_delegates (docx_Document : string → M loc)
    (n : nat) (d : loc) (text : string) (style : option string) (h : heap) :
  DocContent.__init__ docx_Document (wrapped (S n) (ObjDocument d)) h
  = (h, inr (DocContent.mk (wrapped (S n) (ObjDocument d)))) ∧
  (∃ p h',
     let new := mkParagraphProxy p (InBody d) in
     DocContent.add_paragraph (DocContent.mk (wrapped n (ObjDocument d))) text style h
     = (h', inr new) ∧
     Document_paragraphs h' d = Document_paragraphs h d ++ [new] ∧
     Document_tables h' d = Document_tables h d ∧
     Paragraph_text h' new = text ∧
     h_pars h !! p = None ∧
     h_runs h ⊆ h_runs h' ∧ h_pars h ⊆ h_pars h' ∧
     h_cells h' = h_cells h ∧ h_tbls h' = h_tbls h ∧
     (∀ d', d' ≠ d → h_docs h' !! d' = h_docs h !! d')) ∧
  DocContent.add_paragraph (DocContent.mk (wrapped n ObjNone)) text style h
  = (h, inl AttributeError) ∧
  (∀ s, DocContent.add_paragraph (DocContent.mk (wrapped n (ObjStr s))) text style h
        = (h, inl AttributeError)).
Proof.
  split_and!.
  - done.
  - destruct (Document_add_paragraph_appends d text style h)
      as (p & h' & Heq & Hnone & _ & Hps & Hts & Htext & _ & Hr & Hp & Hc & Ht & Hd).
    exists p, h'. cbv zeta. split_and!; try done.
    unfold DocContent.add_paragraph. simpl DocContent.doc.
    by rewrite add_paragraph_on_wrapped.
  - unfold DocContent.add_paragraph. simpl DocContent.doc.
    by rewrite add_paragraph_on_wrapped.
  - intros s. unfold DocContent.add_paragraph. simpl DocContent.doc.
    by rewrite add_paragraph_on_wrapped.
Qed.

(** ** The runs of the parts of a table (element.py) *)

Lemma rows_by_nat {A} (l : list (list A)) :
  (λ i, default [] (l !! i)) <$> seq 0 (length l) = l.
Proof.
  apply list_eq. intros i. rewrite list_lookup_fmap.
  destruct (decide (i < length l)%nat) as [Hlt|Hge].
  - rewrite lookup_seq_lt by done. simpl.
    destruct (lookup_lt_is_Some_2 l i Hlt) as [x Hx]. by rewrite Hx.
  - rewrite lookup_seq_ge by lia. simpl. symmetry. apply lookup_ge_None. lia.
Qed.

Lemma Table_cells_by_rows h t :
  Table__cells h t = (row ← Table_rows h t; Row_cells h row).
Proof.
  unfold Table__cells, Table_rows, Row_cells, Table_row_cells.
  rewrite <- concat_fmap_bind, <- list_fmap_compose.
  f_equal. symmetry. exact (rows_by_nat (tr_lst (h_tbls h !!! t))).
Qed.

(** X19: the getters of [DOCXElement] for the parts of a table
    return the paragraphs and runs of the cells in cell, paragraph,
    run order; the runs of a table are the runs of its rows, row by
    row; [get_runs_of_table] accepts tables only (AttributeError on a
    row, a column or a cell). *)
Theorem DOCXElement_runs_of_table_parts (h : heap) :
  (∀ c, DOCXElement.get_runs_of_cell h c = runs_of_cells h [c]) ∧
  (∀ row, DOCXElement.get_paragraphs_of_row h row
          = (c ← Row_cells h row; Cell_paragraphs h c) ∧
          DOCXElement.get_runs_of_row h row = runs_of_cells h (Row_cells h row)) ∧
  (∀ column, DOCXElement.get_paragraphs_of_column h column
             = (c ← Column_cells h column; Cell_paragraphs h c) ∧
             DOCXElement.get_runs_of_column h column
             = runs_of_cells h (Column_cells h column)) ∧
  (∀ t, DOCXElement.get_runs_of_table h (ETable t)
        = inr (runs_of_cells h (Table__cells h t)) ∧
        runs_of_cells h (Table__cells h t)
        = (row ← Table_rows h t; DOCXElement.get_runs_of_row h row)) ∧
  (∀ element, (∀ t, element ≠ ETable t) →
     DOCXElement.get_runs_of_table h element = inl AttributeError).
Proof.
  assert (Hrow : ∀ row, DOCXElement.get_runs_of_row h row
                        = runs_of_cells h (Row_cells h row)).
  { intros row. unfold DOCXElement.get_runs_of_row, DOCXElement.get_paragraphs_of_row.
    apply runs_of_cells_extend. }
  split_and!.
  - intros c. unfold DOCXElement.get_runs_of_cell, DOCXElement.get_paragraphs_of_cell.
    unfold runs_of_cells. rewrite foldl_extend_bind. simpl. by rewrite app_nil_r.
  - intros row. split; [|apply Hrow].
    unfold DOCXElement.get_paragraphs_of_row. by rewrite foldl_extend_bind.
  - intros column. split.
    + unfold DOCXElement.get_paragraphs_of_column. by rewrite foldl_extend_bind.
    + unfold DOCXElement.get_runs_of_column, DOCXElement.get_paragraphs_of_column.
      apply runs_of_cells_extend.
  - intros t. split.
    + unfold DOCXElement.get_runs_of_table, DOCXElement.get_paragraphs_of_table.
      cbn [DOCXElement.get_cells_of_table rbind].
      unfold DOCXElement.get_paragraphs_of_cell. by rewrite runs_of_cells_extend.
    + rewrite Table_cells_by_rows. unfold runs_of_cells at 1.
      rewrite bind_bind_assoc. apply list_bind_ext; [|done]. intros row. by rewrite Hrow.
  - intros element Hne. destruct element; [by destruct (Hne t)|done..].
Qed.

(** ** Adding a table through the facade (doc_decorate.py) *)

(** X20: [DocDecorate.add_table] on a Document appends a new table
    of [rows] rows of [columns] new, empty, distinct cells and
    refreshes the cached tables only: when the cached cells exist in
    the document, no cell of the new table is among them.  On a
    DocContent it fails with TypeError (the [data] argument is
    missing), on [None] with AttributeError. *)
Theorem add_table_refreshes_tables_only (docx_Document : string → M loc)
    (self : DocDecorate.instance) (rows columns : Z) (h : heap) :
  (∀ d, DocDecorate.doc self = ObjDocument d →
     ∃ t grid h',
       doc_decorate.add_table docx_Document self rows columns h
       = (h', inr (doc_decorate.with_tables (Document_tables h d ++ [t]) self, t)) ∧
       Document_tables h' d = Document_tables h d ++ [t] ∧
       h_tbls h !! t = None ∧
       h_tbls h' !! t = Some (mkTable (Z.to_nat columns) grid None) ∧
       length grid = Z.to_nat rows ∧
       Forall (λ row : list loc, length row = Z.to_nat columns) grid ∧
       NoDup (Table__cells h' t) ∧
       Forall (λ c, h_cells h !! c = None ∧ empty_cell h' c) (Table__cells h' t) ∧
       ((∀ c, c ∈ DocDecorate.cells self → is_Some (h_cells h !! c)) →
        ∀ c, c ∈ Table__cells h' t → c ∉ DocDecorate.cells self) ∧
       h_runs h' = h_runs h ∧ h_pars h ⊆ h_pars h' ∧ h_cells h ⊆ h_cells h') ∧
  (∀ inner, DocDecorate.doc self = ObjDocContent inner →
     doc_decorate.add_table docx_Document self rows columns h = (h, inl TypeError)) ∧
  (DocDecorate.doc self = ObjNone →
     doc_decorate.add_table docx_Document self rows columns h = (h, inl AttributeError)).
Proof.
  split_and!.
  - intros d Hdoc.
    destruct (Document_add_table_spec d rows columns None h)
      as (grid & h1 & Heq & Hlen & Hcols & Hnd & Hall & Hp & Hc & Hr & Ht & Hd).
    cbv zeta in Heq. set (t := fresh (dom (h_tbls h))) in *.
    set (h' := update_doc d _ _) in Heq.
    assert (Htbl : h_tbls h' !! t = Some (mkTable (Z.to_nat columns) grid None)).
    { unfold h'. simpl. apply lookup_insert_eq. }
    assert (Hcells : Table__cells h' t = concat grid).
    { unfold Table__cells. by rewrite (lookup_total_correct _ _ _ Htbl). }
    assert (Hts : Document_tables h' d = Document_tables h d ++ [t]).
    { unfold Document_tables, h'. simpl. rewrite lookup_total_insert_eq. simpl.
      by rewrite omap_app, Hd. }
    assert (Hnew : Forall (λ c, h_cells h !! c = None ∧ empty_cell h' c)
                          (Table__cells h' t)).
    { rewrite Hcells. eapply Forall_impl; [exact Hall|]. by intros c [H1 H2]. }
    exists t, grid, h'. split_and!; try done.
    + unfold doc_decorate.add_table. rewrite Hdoc.
      erewrite bind_returns by exact Heq.
      erewrite bind_returns by apply part_get_tables.
      by rewrite Hts.
    + unfold t. rewrite <- Ht. rewrite Ht. apply fresh_None.
    + by rewrite Hcells.
    + intros Hcached c Hc' Hin. rewrite Forall_forall in Hnew.
      destruct (Hnew c Hc') as [Hnone _]. destruct (Hcached c Hin) as [x Hx]. congruence.
  - intros inner Hdoc. unfold doc_decorate.add_table. by rewrite Hdoc.
  - intros Hdoc. unfold doc_decorate.add_table. by rewrite Hdoc.
Qed.

(** ** The cached paragraphs of the element facade (element.py) *)

Lemma py_getitem_in_range {A} (l : list A) (i : Z) (x : A) :
  0 ≤ i → l !! Z.to_nat i = Some x →
  (0 <=? i) && (i <? Z.of_nat (length l)) = true ∧ py_getitem l i = inr x.
Proof.
  intros Hi Hx. split; [|by apply py_getitem_nat].
  apply lookup_lt_Some in Hx. apply andb_true_iff. lia.
Qed.

(** X21: [DOCXElement.get_paragraph_by_index] accepts [0 <= i < N]
    only (a negative index fails the assertion).  Without a cache it
    reads the top-level paragraphs of the document and caches them;
    with a cache it answers from the cached list whatever the document
    holds now.  [get_runs_of_paragraph] with an index returns the runs
    of that same paragraph, and [get_runs_of_paragraphs] the runs of
    the cached (or just read) top-level paragraphs. *)
Theorem get_paragraph_by_index_uses_cache (self : DOCXElement.instance) (d : loc)
    (h : heap) (i : Z) :
  let cached := DOCXElement.mk (DOCXElement.doc self) (Some (Document_paragraphs h d))
                  (DOCXElement.tables self) (DOCXElement.runs self) in
  (DOCXElement.doc self = ObjDocument d → DOCXElement.paragraphs self = None →
     (¬ (0 ≤ i < Z.of_nat (length (Document_paragraphs h d))) →
        DOCXElement.get_paragraph_by_index h self i
        = inl (AssertionError "段落下标不合规")) ∧
     (∀ p, 0 ≤ i → Document_paragraphs h d !! Z.to_nat i = Some p →
        DOCXElement.get_paragraph_by_index h self i = inr (cached, p) ∧
        DOCXElement.get_runs_of_paragraph h self (inl i)
        = inr (cached, Paragraph_runs h p)) ∧
     DOCXElement.get_runs_of_paragraphs h self
     = inr (cached, p ← Document_paragraphs h d; Paragraph_runs h p)) ∧
  (∀ ps, DOCXElement.paragraphs self = Some ps →
     (∀ h', DOCXElement.get_paragraph_by_index h' self i
            = DOCXElement.get_paragraph_by_index h self i) ∧
     (¬ (0 ≤ i < Z.of_nat (length ps)) →
        DOCXElement.get_paragraph_by_index h self i
        = inl (AssertionError "段落下标不合规")) ∧
     (∀ p, 0 ≤ i → ps !! Z.to_nat i = Some p →
        DOCXElement.get_paragraph_by_index h self i = inr (self, p) ∧
        DOCXElement.get_runs_of_paragraph h self (inl i)
        = inr (self, Paragraph_runs h p)) ∧
     DOCXElement.get_runs_of_paragraphs h self
     = inr (self, p ← ps; Paragraph_runs h p)).
Proof.
  intros cached. subst cached.
  assert (Hout : ∀ n : nat, ¬ (0 ≤ i < Z.of_nat n) →
                 (0 <=? i) && (i <? Z.of_nat n) = false).
  { intros n Hn. apply andb_false_iff.
    destruct (Z.leb_spec 0 i); [right|by left]. apply Z.ltb_ge. lia. }
  split.
  - intros Hdoc Hnone.
    unfold DOCXElement.get_paragraph_by_index, DOCXElement.get_runs_of_paragraph,
      DOCXElement.get_runs_of_paragraphs, DOCXElement.get_paragraphs_of_document.
    rewrite Hnone, Hdoc. cbn [getattr_paragraphs rbind fst snd
      DOCXElement.doc DOCXElement.tables DOCXElement.runs].
    split_and!.
    + intros Hi. by rewrite Hout.
    + intros p Hi Hp. destruct (py_getitem_in_range _ i p Hi Hp) as [-> ->]. done.
    + by rewrite foldl_extend_bind.
  - intros ps Hsome.
    unfold DOCXElement.get_paragraph_by_index, DOCXElement.get_runs_of_paragraph,
      DOCXElement.get_runs_of_paragraphs.
    rewrite Hsome. cbn [rbind fst snd]. split_and!.
    + done.
    + intros Hi. by rewrite Hout.
    + intros p Hi Hp. destruct (py_getitem_in_range _ i p Hi Hp) as [-> ->]. done.
    + by rewrite foldl_extend_bind.
Qed.

(** * The properties on the sample documents *)

(** C1 on a table of three columns and the data [x, y, z, w]: no row
    is appended. *)
Lemma append_rows_raises_3_columns :
  tr_lst (h_tbls doc_table_1x3 !!! 0%nat) = [[0%nat; 1%nat; 2%nat]] ∧
  DocContent.append_rows 0%nat ["x"; "y"; "z"; "w"] doc_table_1x3
  = (doc_table_1x3, inl TypeError).
Proof.
  assert (Hrows : tr_lst (h_tbls doc_table_1x3 !!! 0%nat) = [[0%nat; 1%nat; 2%nat]])
    by (vm_compute; reflexivity).
  split; [exact Hrows|].
  destruct (append_rows_raises 0%nat ["x"; "y"; "z"; "w"] doc_table_1x3) as [_ H].
  exact (H [0%nat; 1%nat; 2%nat] [] Hrows).
Defined.

(** C2 on a table of two rows and three columns. *)
Lemma add_table_2_by_3 :
  ∃ t h',
    DocContent.add_table no_files (DocContent.mk (ObjDocument 0%nat)) 2 3
      ["a"; "b"; "c"; "d"; "e"; "f"] None doc_empty = (h', inr t) ∧
    Cell_text h' <$> Table__cells h' t = ["a"; "b"; "c"; "d"; "e"; "f"].
Proof.
  destruct (add_table_builds_grid no_files 0%nat 2 3
              ["a"; "b"; "c"; "d"; "e"; "f"] None doc_empty) as (_ & _ & H).
  destruct H as (t & h' & Heq & _ & _ & _ & _ & _ & _ & _ & _ & _ & Htexts & _);
    [lia|lia|simpl; lia|].
  exists t, h'. split; [exact Heq|exact Htexts].
Defined.

(** C3 on a run with the text [foobar123]. *)
Lemma replace_foo_by_bar :
  ∃ h', DocDecorate.replace facade_foobar [("foo", VStr "bar")] doc_foobar = (h', inr tt) ∧
        Run_text h' 0%nat = "barbar123".
Proof.
  destruct (replace_rewrites_cached_runs facade_foobar [("foo", VStr "bar")] doc_foobar)
    as (h' & Heq & Hin & _).
  - apply (bool_decide_unpack _). vm_compute. exact I.
  - exists h'. split; [exact Heq|].
    unfold Run_text. rewrite (Hin 0%nat) by (vm_compute; left).
    vm_compute. reflexivity.
Defined.

Lemma facades_of_sample_documents :
  DocDecorate.__init__ no_files (ObjDocument 0%nat) doc_foobar
    = (doc_foobar, inr facade_foobar) ∧
  DocDecorate.__init__ no_files (ObjDocument 0%nat) doc_marker
    = (doc_marker, inr facade_marker).
Proof. split; vm_compute; reflexivity. Qed.

(** C4 on a document of two paragraphs. *)
Lemma insert_paragraph_before_first :
  ∃ p h',
    DocContent.insert_paragraph_before no_files (DocContent.mk (ObjDocument 0%nat))
      "new" (inl 0) None doc_a_b = (h', inr (mkParagraphProxy p (InBody 0%nat))) ∧
    Paragraph_text h' <$> Document_paragraphs h' 0%nat = ["new"; "a"; "b"] ∧
    DocContent.insert_paragraph_before no_files (DocContent.mk (ObjDocument 0%nat))
      "new" (inl 2) None doc_a_b = (doc_a_b, inl (AssertionError "段落下标不合规")).
Proof.
  destruct (insert_paragraph_before_index no_files 0%nat "new" 0 None doc_a_b)
    as [_ H].
  destruct (insert_paragraph_before_index no_files 0%nat "new" 2 None doc_a_b)
    as [Hout _].
  destruct H as (p & h' & Heq & _); [vm_compute; split; [discriminate|reflexivity]| |].
  - apply (bool_decide_unpack _). vm_compute. exact I.
  - exists p, h'. split_and!; [exact Heq| |].
    + vm_compute in Heq. injection Heq as <- <-. vm_compute. reflexivity.
    + apply Hout. vm_compute. intros [_ H]. discriminate H.
Defined.

(** C5 (amended) on a document with one [marker] run. *)
Lemma delete_run_marker_twice :
  ∃ h' self',
    DocDecorate.delete_run facade_marker "marker" doc_marker = (h', inr self') ∧
    DocDecorate.runs self' = [1%nat] ∧
    Run_text h' 0%nat = "" ∧
    DocDecorate.delete_run self' "marker" h' = (h', inr self').
Proof.
  destruct (delete_run_blanks_first_match facade_marker "marker" doc_marker) as [H _].
  destruct (H [] 0%nat [1%nat]) as (Heq & Htext & _ & _ & _ & _ & _ & _ & _ & Hagain).
  - reflexivity.
  - constructor.
  - vm_compute. reflexivity.
  - eexists _, _. split_and!; [exact Heq|reflexivity|exact Htext|].
    apply Hagain. repeat constructor. vm_compute. discriminate.
Defined.

(** C5 as stated fails: after [delete_run] the run is still listed in
    its paragraph and among the runs of the document. *)
Lemma delete_run_keeps_run_in_document :
  ∃ h' self',
    DocDecorate.delete_run facade_marker "marker" doc_marker = (h', inr self') ∧
    part.get_all_runs no_files (ObjDocument 0%nat) doc_marker
      = (doc_marker, inr [0%nat; 1%nat]) ∧
    part.get_all_runs no_files (ObjDocument 0%nat) h' = (h', inr [0%nat; 1%nat]) ∧
    0%nat ∈ Paragraph_runs h' (mkParagraphProxy 0%nat (InBody 0%nat)) ∧
    ¬ (0%nat ∉ Paragraph_runs h' (mkParagraphProxy 0%nat (InBody 0%nat))).
Proof.
  eexists _, _. split; [vm_compute; reflexivity|].
  split_and!; [vm_compute; reflexivity..| |].
  - vm_compute. left.
  - intros H. apply H. vm_compute. left.
Qed.



(** C7 for red, [(255, 0, 0)], [FF0000] and [ff0000]: the call raises
    and the run has no colour afterwards. *)
Lemma set_run_attribute_red :
  let tuple := DocStyle.set_run_attribute 0%nat None None None
                 (Some (ColorTuple 255 0 0)) None None run_arial in
  DocStyle.set_run_attribute 0%nat None None None (Some (ColorStr "FF0000")) None None
    run_arial = tuple ∧
  DocStyle.set_run_attribute 0%nat None None None (Some (ColorStr "ff0000")) None None
    run_arial = tuple ∧
  tuple.2 = inl AttributeError ∧
  r_font_color (h_runs tuple.1 !!! 0%nat) = None.
Proof.
  destruct (set_run_attribute_color_encodings 0%nat None None None None None
              255 0 0 run_arial) as (_ & Hs & _ & Hcol & Hraise & _); [lia..|].
  split_and!.
  - apply Hs. vm_compute. reflexivity.
  - apply Hs. vm_compute. reflexivity.
  - apply Hraise. left. split; reflexivity.
  - cbv zeta. rewrite Hcol. vm_compute. reflexivity.
Defined.

(** C9 on a document of two paragraphs. *)
Lemma DocContent_init_on_sample_document :
  h_docs doc_a_b !! 0%nat
    = Some (mkDocument [BlockP 0%nat; BlockP 1%nat]) ∧
  ∃ d' h1,
    d' ≠ 0%nat ∧
    DocContent.__init__ no_files (ObjDocument 0%nat) doc_a_b
      = (h1, inr (DocContent.mk (ObjDocument d'))) ∧
    h_docs h1 !! d' = Some (mkDocument []).
Proof.
  split; [vm_compute; reflexivity|].
  destruct (DocContent_init_drops_document no_files doc_a_b 0%nat
              (mkDocument [BlockP 0%nat; BlockP 1%nat]))
    as (d' & h1 & Hne & Heq & _ & Hnew & _); [vm_compute; reflexivity|].
  exists d', h1. split_and!; [exact Hne|exact Heq|exact Hnew].
Defined.

(** C10 on a table of two rows and two columns. *)
Lemma get_row_in_table_2x2 :
  part.get_row_in_table doc_table_2x2 0%nat 0
    = inl (AssertionError "row_index out of range") ∧
  part.get_row_in_table doc_table_2x2 0%nat 1 = inr (mkRow 0%nat 1) ∧
  part.get_column_in_table doc_table_2x2 0%nat 1 = inr (mkColumn 0%nat 1) ∧
  part.get_row_in_table doc_table_2x2 0%nat 2
    = inl (AssertionError "row_index out of range").
Proof.
  destruct (get_row_column_in_table_index doc_table_2x2 0%nat)
    as (H0 & _ & Hout & _ & Hrow & Hcol).
  split_and!.
  - exact H0.
  - apply Hrow. vm_compute. split; reflexivity.
  - apply Hcol. vm_compute. split; reflexivity.
  - apply Hout. vm_compute. intros [_ H]. discriminate H.
Defined.

(** X4 on the document of one paragraph. *)
Lemma DOCXElement_get_all_runs_on_foobar :
  DOCXElement.get_all_runs doc_foobar element_facade
  = inr (DOCXElement.mk (ObjDocument 0%nat)
           (Some [mkParagraphProxy 0%nat (InBody 0%nat)]) None None, [0%nat]) ∧
  part.get_all_runs no_files (ObjDocument 0%nat) doc_foobar = (doc_foobar, inr [0%nat]).
Proof.
  destruct (DOCXElement_get_all_runs_agrees no_files element_facade 0%nat doc_foobar
              eq_refl) as (rs & Hpart & Hel & _).
  assert (Hrs : rs = [0%nat]).
  { assert (Hc : part.get_all_runs no_files (ObjDocument 0%nat) doc_foobar
                 = (doc_foobar, inr [0%nat])) by (vm_compute; reflexivity).
    rewrite Hc in Hpart. by injection Hpart as <-. }
  subst rs. split; [exact Hel|exact Hpart].
Defined.

(** X5 on the document of one table: the table at index 0 is not
    returned. *)
Lemma get_table_by_index_on_2x2 :
  DOCXElement.__init__ no_files (ObjDocument 0%nat) doc_table_2x2
  = (doc_table_2x2, inr element_facade) ∧
  Document_tables doc_table_2x2 0%nat = [0%nat] ∧
  DOCXElement.get_table doc_table_2x2 element_facade (inl 0) = inl TypeError.
Proof.
  split; [reflexivity|]. split; [vm_compute; reflexivity|].
  destruct (get_table_by_index_never_returns no_files (ObjDocument 0%nat) 0
              doc_table_2x2 doc_table_2x2 element_facade eq_refl) as (_ & H & _).
  exact (H 0%nat eq_refl).
Defined.

(** X6 on the table of two rows: index 0 is a row for [DOCXElement]
    and an error for [part]. *)
Lemma get_row_of_table_by_index_first :
  0 < part.get_table_row_length doc_table_2x2 0%nat ∧
  DOCXElement.get_row_of_table_by_index doc_table_2x2 0%nat 0 = inr (mkRow 0%nat 0%nat) ∧
  part.get_row_in_table doc_table_2x2 0%nat 0
  = inl (AssertionError "row_index out of range").
Proof.
  assert (Hn : 0 < part.get_table_row_length doc_table_2x2 0%nat)
    by (vm_compute; reflexivity).
  split; [exact Hn|].
  destruct (get_row_of_table_by_index_bounds doc_table_2x2 0%nat 0) as (_ & _ & _ & H & _).
  exact (H Hn).
Defined.

(** X7 on the facade of one paragraph: the run of the appended
    paragraph is not the cached run. *)
Lemma add_paragraph_at_end_of_foobar :
  ∃ p h',
    doc_decorate.add_paragraph no_files facade_foobar (Some "x") None doc_foobar
    = (h', inr (doc_decorate.with_paragraphs (Document_paragraphs h' 0%nat) facade_foobar,
                Some (mkParagraphProxy p (InBody 0%nat)))) ∧
    Paragraph_text h' (mkParagraphProxy p (InBody 0%nat)) = "x" ∧
    ∀ r, r ∈ Paragraph_runs h' (mkParagraphProxy p (InBody 0%nat)) → r ∉ [0%nat].
Proof.
  destruct (add_paragraph_leaves_run_cache no_files facade_foobar 0%nat (Some "x") None
              doc_foobar eq_refl (or_introl eq_refl))
    as (p & h' & Heq & _ & _ & _ & Htext & Hruns).
  exists p, h'. split; [exact Heq|]. split; [exact Htext|].
  intros r Hr. apply Hruns; [|exact Hr].
  apply Forall_singleton. vm_compute. eauto.
Defined.

(** X8 on the document of the paragraphs [marker] and [keep]. *)
Lemma add_paragraph_before_keep :
  ∃ p h',
    doc_decorate.add_paragraph no_files facade_marker (Some "new") (Some "keep") doc_marker
    = (h', inr (doc_decorate.with_paragraphs (Document_paragraphs h' 0%nat) facade_marker,
                Some (mkParagraphProxy p (InBody 0%nat)))) ∧
    Document_paragraphs h' 0%nat
    = [mkParagraphProxy 0%nat (InBody 0%nat); mkParagraphProxy p (InBody 0%nat);
       mkParagraphProxy 1%nat (InBody 0%nat)] ∧
    Paragraph_text h' (mkParagraphProxy p (InBody 0%nat)) = "new".
Proof.
  assert (Hflag : "keep" ≠ "") by discriminate.
  destruct (add_paragraph_before_flag no_files facade_marker 0%nat (Some "new") "keep"
              doc_marker Hflag) as [_ H].
  destruct (H [mkParagraphProxy 0%nat (InBody 0%nat)]
              (mkParagraphProxy 1%nat (InBody 0%nat)) [])
    as (p & h' & Heq & _ & Hps & Htext & _).
  - reflexivity.
  - vm_compute. reflexivity.
  - apply (bool_decide_unpack _). vm_compute. exact I.
  - vm_compute. reflexivity.
  - apply Forall_singleton. vm_compute. discriminate.
  - vm_compute. reflexivity.
  - exists p, h'. split; [exact Heq|]. split; [exact Hps|exact Htext].
Defined.

(** X10 on the run set in Arial. *)
Lemma set_font_on_arial_run :
  ∃ h', doc_decorate.set_font no_files (part.ElRun 0%nat) "SimSun" 12 run_arial
        = (h', inr tt) ∧
        h_runs h' !!! 0%nat
        = mkRun "hello" (Some "SimSun") {[eastAsia := "SimSun"]} (Some 152400)
                None None None.
Proof.
  destruct (set_font_every_run no_files (part.ElRun 0%nat) "SimSun" 12 run_arial)
    as (rs & h' & Hrs & Hset & Hin & _).
  injection Hrs as <-.
  exists h'. split; [exact Hset|].
  rewrite (Hin 0%nat) by (simpl; left). reflexivity.
Defined.

(** X9 on the table of two rows and two columns: centred, and with
    the integer 6, which is no alignment. *)
Lemma set_table_align_center_and_six :
  (∃ h', doc_decorate.set_table_align 0%nat (Some 1) doc_table_2x2 = (h', inr tt) ∧
         p_alignment (h_pars h' !!! 0%nat) = Some (Some 1)) ∧
  doc_decorate.set_table_align 0%nat (Some 6) doc_table_2x2
  = (update_par 0%nat get_or_add_jc doc_table_2x2,
     inl (ValueError "6 is not a valid WD_PARAGRAPH_ALIGNMENT")).
Proof.
  assert (Hps : part.get_paragraphs_in_table doc_table_2x2 0%nat
                = mkParagraphProxy 0%nat (InCell 0%nat)
                  :: [mkParagraphProxy 1%nat (InCell 1%nat);
                      mkParagraphProxy 2%nat (InCell 2%nat);
                      mkParagraphProxy 3%nat (InCell 3%nat)])
    by (vm_compute; reflexivity).
  split.
  - destruct (set_align_reaches_every_paragraph (Some 1) doc_table_2x2) as [Hok _].
    destruct Hok as (Htable & _).
    { intros v [= <-]. apply (bool_decide_unpack _). vm_compute. exact I. }
    destruct (Htable 0%nat) as (h' & Heq & Hal & _).
    exists h'. split; [exact Heq|].
    apply (Hal (mkParagraphProxy 0%nat (InCell 0%nat))). rewrite Hps. left.
  - destruct (set_align_reaches_every_paragraph (Some 6) doc_table_2x2) as [_ Hbad].
    destruct (Hbad 6 eq_refl) as (Htable & _).
    { intros Hin. apply (bool_decide_pack _) in Hin. vm_compute in Hin. exact Hin. }
    destruct (Htable 0%nat) as [_ Hcons].
    exact (Hcons _ _ Hps).
Defined.

(** X11 on the paragraph [foobar123]: set in SimSun, and in red. *)
Lemma set_paragraph_attributes_red :
  (∃ h',
     DocStyle.set_paragraph_attributes (mkParagraphProxy 0%nat (InBody 0%nat))
       (Some "w:eastAsia") (Some "SimSun") None None None None doc_foobar
     = (h', inr (mkParagraphProxy 0%nat (InBody 0%nat))) ∧
     h_runs h' !!! 0%nat
     = mkRun "foobar123" (Some "SimSun") {[eastAsia := "SimSun"]} None None None None) ∧
  DocStyle.set_paragraph_attributes (mkParagraphProxy 0%nat (InBody 0%nat))
    (Some "w:eastAsia") (Some "SimSun") None (Some (ColorTuple 255 0 0)) None None
    doc_foobar
  = (update_run 0%nat (run_attributes "SimSun" None None None None) doc_foobar,
     inl AttributeError).
Proof.
  assert (Hruns : Paragraph_runs doc_foobar (mkParagraphProxy 0%nat (InBody 0%nat))
                  = [0%nat]) by (vm_compute; reflexivity).
  split.
  - destruct (set_paragraph_attributes_every_run (mkParagraphProxy 0%nat (InBody 0%nat))
                "SimSun" None None None None doc_foobar) as [Hnone _].
    destruct (Hnone eq_refl) as (h' & Heq & Hin & _).
    exists h'. split; [exact Heq|].
    rewrite (Hin 0%nat).
    + vm_compute. reflexivity.
    + rewrite Hruns. left.
  - destruct (set_paragraph_attributes_every_run (mkParagraphProxy 0%nat (InBody 0%nat))
                "SimSun" None (Some (ColorTuple 255 0 0)) None None doc_foobar)
      as [_ Hcolor].
    destruct (Hcolor (mkRGBColor 255 0 0) eq_refl) as [_ Hcons].
    exact (Hcons 0%nat [] Hruns).
Defined.


(** X14 on the first row of the table of two columns. *)
Lemma add_row_text_first_row :
  ∃ h', doc_decorate.add_row_text (mkRow 0%nat 0%nat) [VStr "a"; VInt 1] doc_table_2x2
        = (h', inr (mkRow 0%nat 0%nat)) ∧
        Cell_text h' <$> Row_cells h' (mkRow 0%nat 0%nat) = ["a"; "1"] ∧
        doc_decorate.add_row_text (mkRow 0%nat 0%nat) [VStr "a"] doc_table_2x2
        = (doc_table_2x2, inl (AssertionError "content长度于单元格个数不符")).
Proof.
  destruct (add_row_column_text_fills [VStr "a"; VInt 1] doc_table_2x2) as [Hrow _].
  destruct (Hrow (mkRow 0%nat 0%nat)) as [_ Hfill].
  destruct Hfill as (h' & Heq & _ & _ & Htexts & _).
  - vm_compute. reflexivity.
  - apply (bool_decide_unpack _). vm_compute. exact I.
  - exists h'. split; [exact Heq|]. split; [exact Htexts|].
    destruct (add_row_column_text_fills [VStr "a"] doc_table_2x2) as [Hrow' _].
    destruct (Hrow' (mkRow 0%nat 0%nat)) as [Hbad _].
    apply Hbad. vm_compute. discriminate.
Defined.

(** X15 on the table of two columns: one item for two cells. *)
Lemma append_row_one_item_two_columns :
  ∃ cs h',
    doc_decorate.append_row no_files facade_table_2x2 0 [VStr "x"] doc_table_2x2
    = (h', inl (Exception "添加行失败")) ∧
    tr_lst (h_tbls h' !!! 0%nat) = tr_lst (h_tbls doc_table_2x2 !!! 0%nat) ++ [cs] ∧
    length cs = 2%nat.
Proof.
  destruct (append_row_adds_before_checking no_files facade_table_2x2 0 [VStr "x"]
              doc_table_2x2) as (_ & H & _).
  destruct (H 0%nat) as (cs & h' & Heq & Happ & _).
  - reflexivity.
  - vm_compute. discriminate.
  - destruct Happ as (Htr & _ & Hlen & _).
    exists cs, h'. split; [exact Heq|]. split; [exact Htr|].
    rewrite Hlen. vm_compute. reflexivity.
Defined.

(** X16 on a row: the alignment setter rejects it. *)
Lemma set_table_element_content_alignment_row :
  DocStyle.set_table_element_content_alignment (ERow (mkRow 0%nat 0%nat)) (Some 1)
    doc_table_2x2
  = (doc_table_2x2, inl AttributeError).
Proof.
  destruct (table_element_styles_by_kind doc_table_2x2) as (_ & H & _).
  apply H. intros t. discriminate.
Defined.

(** X17 on a path that cannot be opened. *)
Lemma DocDecorate_init_missing_file :
  DocDecorate.__init__ no_files (ObjStr "a.docx") doc_empty
  = (doc_empty, inl (IOError "a.docx")).
Proof.
  destruct (DocDecorate_init_snapshot no_files doc_empty) as (_ & _ & H & _).
  apply H. reflexivity.
Defined.

(** X18 on two facades around the empty document. *)
Lemma DocContent_add_paragraph_through_two_facades :
  ∃ p h',
    DocContent.add_paragraph
      (DocContent.mk (ObjDocContent (ObjDocContent (ObjDocument 0%nat)))) "x" None doc_empty
    = (h', inr (mkParagraphProxy p (InBody 0%nat))) ∧
    Document_paragraphs h' 0%nat = [mkParagraphProxy p (InBody 0%nat)] ∧
    h_docs h' !! 1%nat = h_docs doc_empty !! 1%nat.
Proof.
  destruct (DocContent_add_paragraph_delegates no_files 2 0%nat "x" None doc_empty)
    as (_ & (p & h' & Heq & Hps & _ & _ & _ & _ & _ & _ & _ & Hd) & _).
  exists p, h'. split; [exact Heq|]. split; [exact Hps|].
  apply Hd. discriminate.
Defined.

(** X19 on a cell: [get_runs_of_table] takes tables only. *)
Lemma get_runs_of_table_on_cell :
  DOCXElement.get_runs_of_table doc_table_2x2 (ECell 0%nat) = inl AttributeError.
Proof.
  destruct (DOCXElement_runs_of_table_parts doc_table_2x2) as (_ & _ & _ & _ & H).
  apply H. intros t. discriminate.
Defined.

(** X20 on the facade of one table: the cells of the second table
    are not among the cached cells. *)
Lemma add_table_second_table :
  ∃ t h',
    doc_decorate.add_table no_files facade_table_2x2 1 1 doc_table_2x2
    = (h', inr (doc_decorate.with_tables ([0%nat] ++ [t]) facade_table_2x2, t)) ∧
    length (Table__cells h' t) = 1%nat ∧
    ∀ c, c ∈ Table__cells h' t → c ∉ [0%nat; 1%nat; 2%nat; 3%nat].
Proof.
  destruct (add_table_refreshes_tables_only no_files facade_table_2x2 1 1 doc_table_2x2)
    as (H & _).
  destruct (H 0%nat eq_refl)
    as (t & grid & h' & Heq & _ & _ & Htbl & Hlen & Hcols & _ & _ & Hcache & _).
  exists t, h'. split; [exact Heq|]. split.
  - unfold Table__cells. rewrite (lookup_total_correct _ _ _ Htbl). simpl.
    rewrite (length_concat_uniform grid 1) by exact Hcols. rewrite Hlen. reflexivity.
  - apply Hcache. intros c Hc.
    apply (bool_decide_unpack _).
    revert c Hc. apply Forall_forall.
    apply (bool_decide_unpack _). vm_compute. exact I.
Defined.

(** X21 on the document of the paragraphs [a] and [b], with a cache
    that no longer is the list of the document. *)
Lemma get_paragraph_by_index_stale :
  Document_paragraphs doc_a_b 0%nat !! 0%nat = Some (mkParagraphProxy 0%nat (InBody 0%nat)) ∧
  DOCXElement.get_paragraph_by_index doc_a_b element_facade_stale 0
  = inr (element_facade_stale, mkParagraphProxy 1%nat (InBody 0%nat)) ∧
  DOCXElement.get_paragraph_by_index doc_a_b element_facade 0
  = inr (DOCXElement.mk (ObjDocument 0%nat) (Some (Document_paragraphs doc_a_b 0%nat))
           None None,
         mkParagraphProxy 0%nat (InBody 0%nat)).
Proof.
  split; [vm_compute; reflexivity|].
  destruct (get_paragraph_by_index_uses_cache element_facade_stale 0%nat doc_a_b 0)
    as [_ Hstale].
  destruct (Hstale [mkParagraphProxy 1%nat (InBody 0%nat)] eq_refl) as (_ & _ & Hhit & _).
  destruct (Hhit (mkParagraphProxy 1%nat (InBody 0%nat))) as [Hp _]; [lia|reflexivity|].
  split; [exact Hp|].
  destruct (get_paragraph_by_index_uses_cache element_facade 0%nat doc_a_b 0)
    as [Hfresh _].
  destruct (Hfresh eq_refl eq_refl) as (_ & Hhit' & _).
  destruct (Hhit' (mkParagraphProxy 0%nat (InBody 0%nat))) as [Hp' _];
    [lia|vm_compute; reflexivity|].
  exact Hp'.
Defined.
